(** * Smart-safe controller: sensor pipeline, face matcher, storage and unlock flow

    A shallow embedding of the TypeScript sources of the smart-safe
    application and the properties its specification states about them.

    - JavaScript numbers are IEEE-754 binary64 values: they are modelled by
      Rocq's primitive floats ([PrimFloat]), whose operations are the same
      correctly rounded binary64 operations.
    - [Date.now()] and parsed event timestamps are integer milliseconds ([Z]).
    - Arrays are lists; [push] appends at the end, [shift] drops the head.
    - [localStorage] is a finite map from strings to strings.
    - The JSON files under [data/] are the fields of a [Storage.t] record that
      every storage operation reads and writes back as a whole.
    - An [async] function is a function from the state before to a result and
      the state after; [fetch] calls made by the browser code are recorded in
      an observation trace. *)

From Stdlib Require Import ZArith List Floats Lia Bool Ascii.
From stdpp Require Import base list strings gmap pretty sorting.

Set Warnings "-inexact-float".

(** ** Part I: the program *)

(** *** JavaScript numbers and arrays *)

Module JS.

(** [Array.prototype.push] of one element. *)
Definition push {A} (l : list A) (v : A) : list A := l ++ [v].

(** [Array.prototype.shift], keeping only the remaining array. *)
Definition shift {A} (l : list A) : list A := tail l.

(** The [length] of an array as a number. *)
Definition number_of_nat (n : nat) : float :=
  PrimFloat.of_uint63 (Uint63.of_Z (Z.of_nat n)).

(** [arr.reduce((a, b) => a + b, 0)]. *)
Definition sum (l : list float) : float :=
  fold_left PrimFloat.add l 0%float.

(** [x ** 2], taken as one rounded multiplication. *)
Definition square (x : float) : float := (x * x)%float.

(** [a > b] and [a !== b] on numbers. *)
Definition gtb (a b : float) : bool := PrimFloat.ltb b a.
Definition neqb (a b : float) : bool := negb (PrimFloat.eqb a b).

(** [v || 0] on a number: 0 and NaN are falsy. *)
Definition or_zero (v : float) : float :=
  if PrimFloat.eqb v 0 || PrimFloat.is_nan v then 0%float else v.

(** [Math.fround]: the binary32 value nearest to a number, as stored in an
    element of a [Float32Array]. *)
Definition fround (v : float) : float :=
  match Prim2SF v with
  | S754_finite s m e =>
      SF2Prim (binary_normalize 24 128 (cond_Zopp s (Zpos m)) e s)
  | _ => v
  end.

(** [arr.slice(0, end)] for an integer [end]: a negative [end] counts from
    the end of the array. *)
Definition slice0 {A} (l : list A) (e : Z) : list A :=
  if (e <? 0)%Z
  then take (Z.to_nat (Z.max (Z.of_nat (length l) + e) 0)) l
  else take (Z.to_nat e) l.

(** [Array.prototype.sort(cmp)] is a stable sort: [a] stays before [b] unless
    [cmp(a, b) > 0]. The result is built by stable insertion. *)
Fixpoint sort_insert {A} (cmp : A -> A -> Z) (a : A) (sorted : list A) : list A :=
  match sorted with
  | [] => [a]
  | b :: rest =>
      if (0 <? cmp a b)%Z then b :: sort_insert cmp a rest
      else a :: b :: rest
  end.

Definition sort {A} (cmp : A -> A -> Z) (l : list A) : list A :=
  foldr (sort_insert cmp) [] l.

(** Truthiness of an optional string: [undefined] and [""] are falsy. *)
Definition truthy (s : option string) : bool :=
  match s with
  | Some v => negb (String.eqb v "")
  | None => false
  end.

(** [str.replace(/\D/g, "")]. *)
Definition is_digit (c : ascii) : bool :=
  (48 <=? nat_of_ascii c) && (nat_of_ascii c <=? 57).

Fixpoint digits_only (s : string) : string :=
  match s with
  | EmptyString => EmptyString
  | String c rest =>
      if is_digit c then String c (digits_only rest) else digits_only rest
  end.

(** The arithmetic mean of an array: the left-to-right sum divided by the
    number of elements. *)
Definition mean (l : list float) : float :=
  (sum l / number_of_nat (length l))%float.

(** The last [k] elements of an array. *)
Definition lastn {A} (k : nat) (l : list A) : list A :=
  drop (length l - k) l.

End JS.

Module Vec3.
Record t : Type := mk { x : float; y : float; z : float }.
End Vec3.

(** [interface SensorData] (server.ts, app/admin/page.tsx). *)
Module SensorData.
Record t : Type := mk
  { accelerometer : Vec3.t; gyroscope : Vec3.t; timestamp : Z }.
End SensorData.

(** Values stored under [metadata] of an event. *)
Inductive json : Type :=
| JNum (n : float)
| JStr (s : string)
| JBool (b : bool).

(** The body of [POST /api/events]: [{ type, userId, userName, metadata }]. *)
Module EventBody.
Record t : Type := mk
  { type : option string;
    userId : option string;
    userName : option string;
    metadata : option (list (string * json)) }.
End EventBody.

(** *** Signal smoother (app/admin/page.tsx, [smoothAccelerometer]) *)

Module Smoother.

(** [accelBufferRef.current]: one queue per axis. *)
Record AccelBuffer : Type :=
  { buf_x : list float; buf_y : list float; buf_z : list float }.

(** [useRef({ x: [], y: [], z: [] })]. *)
Definition accelBufferRef_init : AccelBuffer :=
  {| buf_x := []; buf_y := []; buf_z := [] |}.

Definition bufferSize : nat := 5.

(** One call of [smoothAccelerometer(x, y, z)]: the buffers after the call
    and the returned object. The eviction test reads the X queue only. *)
Definition smoothAccelerometer (b : AccelBuffer) (x y z : float)
  : AccelBuffer * Vec3.t :=
  let b1 := {| buf_x := JS.push (buf_x b) x;
               buf_y := JS.push (buf_y b) y;
               buf_z := JS.push (buf_z b) z |} in
  let b2 := if Nat.ltb bufferSize (length (buf_x b1))
            then {| buf_x := JS.shift (buf_x b1);
                    buf_y := JS.shift (buf_y b1);
                    buf_z := JS.shift (buf_z b1) |}
            else b1 in
  let avgX := (JS.sum (buf_x b2) / JS.number_of_nat (length (buf_x b2)))%float in
  let avgY := (JS.sum (buf_y b2) / JS.number_of_nat (length (buf_y b2)))%float in
  let avgZ := (JS.sum (buf_z b2) / JS.number_of_nat (length (buf_z b2)))%float in
  (b2, Vec3.mk avgX avgY (avgZ - 5)%float).

(** Feeding a sequence of samples, one call per sample: the final buffers
    and the value returned by each call. *)
Fixpoint feed (b : AccelBuffer) (samples : list Vec3.t)
  : AccelBuffer * list Vec3.t :=
  match samples with
  | [] => (b, [])
  | s :: rest =>
      let '(b1, o) := smoothAccelerometer b (Vec3.x s) (Vec3.y s) (Vec3.z s) in
      let '(b2, os) := feed b1 rest in
      (b2, o :: os)
  end.

(** The values returned for a whole sequence, starting from fresh buffers. *)
Definition smoothed (samples : list Vec3.t) : list Vec3.t :=
  snd (feed accelBufferRef_init samples).

(** The queues that hold the last [bufferSize] values of each axis of a
    sequence of samples. *)
Definition window_of (samples : list Vec3.t) : AccelBuffer :=
  {| buf_x := JS.lastn bufferSize (map Vec3.x samples);
     buf_y := JS.lastn bufferSize (map Vec3.y samples);
     buf_z := JS.lastn bufferSize (map Vec3.z samples) |}.

End Smoother.

(** *** Anomaly detection in the dashboard (app/admin/page.tsx,
    [handleSensorData]) *)

Module Dashboard.

(** One chart: its labels and its three data sets, at most 20 points. The
    label is the sample's timestamp (rendered as a time of day on screen). *)
Record Chart : Type :=
  { labels : list Z; data0 : list float; data1 : list float; data2 : list float }.

Definition chart_init : Chart :=
  {| labels := []; data0 := []; data1 := []; data2 := [] |}.

Definition chart_add (c : Chart) (time : Z) (v : Vec3.t) : Chart :=
  let c1 := {| labels := JS.push (labels c) time;
               data0 := JS.push (data0 c) (Vec3.x v);
               data1 := JS.push (data1 c) (Vec3.y v);
               data2 := JS.push (data2 c) (Vec3.z v) |} in
  if Nat.ltb 20 (length (labels c1))
  then {| labels := JS.shift (labels c1);
          data0 := JS.shift (data0 c1);
          data1 := JS.shift (data1 c1);
          data2 := JS.shift (data2 c1) |}
  else c1.

(** The component's state and refs that [handleSensorData] reads or writes. *)
Record t : Type :=
  { accelBufferRef : Smoother.AccelBuffer;
    lastMovementEventRef : Z;
    accidentCount : nat;
    theftDetected : bool;
    accelData : Chart;
    gyroData : Chart }.

Definition init : t :=
  {| accelBufferRef := Smoother.accelBufferRef_init;
     lastMovementEventRef := 0;
     accidentCount := 0;
     theftDetected := false;
     accelData := chart_init;
     gyroData := chart_init |}.

Definition MOVEMENT_EVENT_COOLDOWN : Z := 5000.

(** [Math.sqrt(a.x ** 2 + a.y ** 2 + a.z ** 2)]. *)
Definition accelMagnitude (a : Vec3.t) : float :=
  PrimFloat.sqrt
    (JS.square (Vec3.x a) + JS.square (Vec3.y a) + JS.square (Vec3.z a))%float.

(** The five threshold tests of the movement check. *)
Record Exceeded : Type :=
  { accelXExceeded : bool; accelYExceeded : bool;
    gyroXExceeded : bool; gyroYExceeded : bool; gyroZExceeded : bool }.

Definition exceeded (data : SensorData.t) : Exceeded :=
  let a := SensorData.accelerometer data in
  let g := SensorData.gyroscope data in
  {| accelXExceeded := JS.gtb (PrimFloat.abs (Vec3.x a)) 5;
     accelYExceeded := JS.gtb (PrimFloat.abs (Vec3.y a)) 5;
     gyroXExceeded := JS.gtb (PrimFloat.abs (Vec3.x g)) 2;
     gyroYExceeded := JS.gtb (PrimFloat.abs (Vec3.y g)) 2;
     gyroZExceeded := JS.gtb (PrimFloat.abs (Vec3.z g)) 2 |}.

Definition any_exceeded (e : Exceeded) : bool :=
  accelXExceeded e || accelYExceeded e ||
  gyroXExceeded e || gyroYExceeded e || gyroZExceeded e.

(** The metadata object: one key per axis that exceeded, in this order. *)
Definition movement_metadata (data : SensorData.t) : list (string * json) :=
  let a := SensorData.accelerometer data in
  let g := SensorData.gyroscope data in
  let e := exceeded data in
  (if accelXExceeded e then [("accelX", JNum (Vec3.x a))] else []) ++
  (if accelYExceeded e then [("accelY", JNum (Vec3.y a))] else []) ++
  (if gyroXExceeded e then [("gyroX", JNum (Vec3.x g))] else []) ++
  (if gyroYExceeded e then [("gyroY", JNum (Vec3.y g))] else []) ++
  (if gyroZExceeded e then [("gyroZ", JNum (Vec3.z g))] else []).

Definition theft_body (magnitude : float) : EventBody.t :=
  EventBody.mk (Some "theft_detected") None None
    (Some [("magnitude", JNum magnitude)]).

Definition movement_body (data : SensorData.t) : EventBody.t :=
  EventBody.mk (Some "movement_detected") None None
    (Some (movement_metadata data)).

(** [handleSensorData(data)] run when [Date.now()] is [now]: the state after
    the call and the bodies posted to [/api/events], in order. *)
Definition handleSensorData (st : t) (data : SensorData.t) (now : Z)
  : t * list EventBody.t :=
  let a := SensorData.accelerometer data in
  let g := SensorData.gyroscope data in
  let time := SensorData.timestamp data in
  let '(buf, smoothed) :=
    Smoother.smoothAccelerometer (accelBufferRef st)
      (Vec3.x a) (Vec3.y a) (Vec3.z a) in
  let accel' := chart_add (accelData st) time smoothed in
  let gyro' :=
    if JS.neqb (Vec3.x g) 0 || JS.neqb (Vec3.y g) 0 || JS.neqb (Vec3.z g) 0
    then chart_add (gyroData st) time g
    else gyroData st in
  let magnitude := accelMagnitude a in
  let theft := JS.gtb magnitude 50 in
  let moved :=
    any_exceeded (exceeded data) &&
    (MOVEMENT_EVENT_COOLDOWN <? now - lastMovementEventRef st)%Z in
  ({| accelBufferRef := buf;
      lastMovementEventRef := if moved then now else lastMovementEventRef st;
      accidentCount := if theft then S (accidentCount st) else accidentCount st;
      theftDetected := if theft then true else theftDetected st;
      accelData := accel';
      gyroData := gyro' |},
   (if theft then [theft_body magnitude] else []) ++
   (if moved then [movement_body data] else [])).

(** The three producers that feed [handleSensorData]: the Socket.io
    channel, and the accelerometer and gyroscope WebSockets, whose messages
    carry a [values] array. *)
Inductive Message : Type :=
| SocketSensorData (data : SensorData.t)
| AccelerometerValues (values : option (list float))
| GyroscopeValues (values : option (list float)).

Definition zero3 : Vec3.t := Vec3.mk 0 0 0.

(** The sample a message is turned into when it is handled at [now], if it
    is handled: [values && values.length >= 3], each axis read as
    [values[i] || 0]. *)
Definition sample_of (m : Message) (now : Z) : option SensorData.t :=
  match m with
  | SocketSensorData data => Some data
  | AccelerometerValues (Some (v0 :: v1 :: v2 :: _)) =>
      Some (SensorData.mk (Vec3.mk (JS.or_zero v0) (JS.or_zero v1) (JS.or_zero v2))
              zero3 now)
  | GyroscopeValues (Some (v0 :: v1 :: v2 :: _)) =>
      Some (SensorData.mk zero3
              (Vec3.mk (JS.or_zero v0) (JS.or_zero v1) (JS.or_zero v2)) now)
  | _ => None
  end.

(** One message received when [Date.now()] is [now]. *)
Definition receive (st : t) (m : Message) (now : Z) : t * list EventBody.t :=
  match sample_of m now with
  | Some data => handleSensorData st data now
  | None => (st, [])
  end.

(** The messages of all producers in the order they are handled, each with
    the clock value at that moment: the final state and the posts made
    while handling each message. *)
Fixpoint run (st : t) (inputs : list (Message * Z))
  : t * list (list EventBody.t) :=
  match inputs with
  | [] => (st, [])
  | (m, now) :: rest =>
      let '(st1, posts) := receive st m now in
      let '(st2, more) := run st1 rest in
      (st2, posts :: more)
  end.

(** The state reached after a sequence of messages. *)
Definition state_after (st : t) (inputs : list (Message * Z)) : t :=
  fst (run st inputs).

End Dashboard.

(** *** Sensor hub (server.ts, [socket.on("sensor-data")]) *)

Module Hub.

(** Messages emitted to every connected client with [io.emit]. *)
Inductive Emit : Type :=
| EmitSensorData (data : SensorData.t)
| EmitTheftAlert (magnitude : float) (timestamp : Z)
| EmitGhostModeAlert (timestamp : Z).

(** The handler for one ["sensor-data"] message received when [Date.now()]
    is [now]: the retained history after it and the messages emitted. *)
Definition on_sensor_data (sensorDataStore : list SensorData.t)
  (data : SensorData.t) (now : Z) : list SensorData.t * list Emit :=
  let store1 := JS.push sensorDataStore data in
  let store2 := if Nat.ltb 100 (length store1) then JS.shift store1 else store1 in
  let a := SensorData.accelerometer data in
  let g := SensorData.gyroscope data in
  let accelMagnitude :=
    PrimFloat.sqrt
      (JS.square (Vec3.x a) + JS.square (Vec3.y a) + JS.square (Vec3.z a))%float in
  (store2,
   [EmitSensorData data] ++
   (if JS.gtb accelMagnitude 50 then [EmitTheftAlert accelMagnitude now] else []) ++
   (if PrimFloat.ltb accelMagnitude 0.1 &&
       PrimFloat.ltb (PrimFloat.abs (Vec3.x g)) 0.1 &&
       PrimFloat.ltb (PrimFloat.abs (Vec3.y g)) 0.1 &&
       PrimFloat.ltb (PrimFloat.abs (Vec3.z g)) 0.1
    then [EmitGhostModeAlert now] else [])).

End Hub.

(** *** Persistent storage (lib/storage.ts) *)

Module User.
Record t : Type := mk
  { id : string;
    name : string;
    email : string;
    passwordHash : string;
    isAdmin : bool;
    faceDescriptor : option (list float);
    voicePhrase : option string;
    pinHash : option string;
    createdAt : Z }.
End User.

(** [Partial<User>] as passed to [updateUser]: the fields present. *)
Module UserUpdate.
Record t : Type := mk
  { name : option string;
    email : option string;
    passwordHash : option string;
    isAdmin : option bool;
    faceDescriptor : option (list float);
    voicePhrase : option string;
    pinHash : option string }.

Definition none : t := mk None None None None None None None.

(** [{ ...user, ...updates }]. *)
Definition apply (u : User.t) (up : t) : User.t :=
  User.mk (User.id u)
    (default (User.name u) (name up))
    (default (User.email u) (email up))
    (default (User.passwordHash u) (passwordHash up))
    (default (User.isAdmin u) (isAdmin up))
    (match faceDescriptor up with Some d => Some d | None => User.faceDescriptor u end)
    (match voicePhrase up with Some p => Some p | None => User.voicePhrase u end)
    (match pinHash up with Some h => Some h | None => User.pinHash u end)
    (User.createdAt u).
End UserUpdate.

(** A logged event. [timestamp] is the instant in milliseconds: the file
    holds its ISO rendering, which [new Date(...).getTime()] reads back. *)
Module Event.
Record t : Type := mk
  { id : string;
    type : string;
    userId : option string;
    userName : option string;
    timestamp : Z;
    metadata : option (list (string * json)) }.
End Event.

Module FaceData.
Record t : Type := mk
  { userId : string;
    descriptor : list float;
    image : option string;
    createdAt : Z }.
End FaceData.

(** [Float32Array]: every element holds a binary32 value. *)
Module Float32Array.
Record t : Type := mk { values : list float }.

(** [new Float32Array(array)]. *)
Definition of_array (l : list float) : t := mk (map JS.fround l).

(** [Array.from(typedArray)]. *)
Definition to_array (a : t) : list float := values a.
End Float32Array.

Module Storage.

(** The contents of [users.json], [events.json] and [faces.json]; a missing
    file reads as the empty array. *)
Record t : Type := mk
  { users : list User.t; events : list Event.t; faces : list FaceData.t }.

Definition empty : t := mk [] [] [].

Definition getUserById (st : t) (id : string) : option User.t :=
  find (fun u => String.eqb (User.id u) id) (users st).

Definition updateUser (st : t) (id : string) (updates : UserUpdate.t)
  : option User.t * t :=
  match list_find (fun u => User.id u = id) (users st) with
  | None => (None, st)
  | Some (index, u) =>
      let u' := UserUpdate.apply u updates in
      (Some u', mk (<[index := u']> (users st)) (events st) (faces st))
  end.

(** The comparator of [getEvents]:
    [new Date(b.timestamp).getTime() - new Date(a.timestamp).getTime()]. *)
Definition newest_first (a b : Event.t) : Z :=
  (Event.timestamp b - Event.timestamp a)%Z.

(** [getEvents(limit?)]: [limit ? sorted.slice(0, limit) : sorted]; the
    number 0 is falsy. *)
Definition getEvents (st : t) (limit : option Z) : list Event.t :=
  let sorted := JS.sort newest_first (events st) in
  match limit with
  | Some n => if (n =? 0)%Z then sorted else JS.slice0 sorted n
  | None => sorted
  end.

(** [createEvent(event)] called when the clock reads [now]: the sorted
    events with the new one pushed at the end are written back. *)
Definition createEvent (st : t) (type : string) (userId userName : option string)
  (metadata : option (list (string * json))) (now : Z) : Event.t * t :=
  let events := getEvents st None in
  let newEvent := Event.mk (pretty now) type userId userName now metadata in
  (newEvent, mk (users st) (JS.push events newEvent) (faces st)).

Definition getFaceData (st : t) : list FaceData.t := faces st.

(** [saveFaceData(userId, descriptor, image?)]. *)
Definition saveFaceData (st : t) (userId : string) (descriptor : Float32Array.t)
  (image : option string) (now : Z) : t :=
  let faces := getFaceData st in
  let faceData := FaceData.mk userId (Float32Array.to_array descriptor) image now in
  let faces' :=
    match list_find (fun f => FaceData.userId f = userId) faces with
    | Some (existingIndex, _) => <[existingIndex := faceData]> faces
    | None => JS.push faces faceData
    end in
  let st1 := mk (users st) (events st) faces' in
  let up := UserUpdate.mk None None None None
              (Some (Float32Array.values descriptor)) None None in
  snd (updateUser st1 userId up).

(** [deleteFaceData(userId)]. *)
Definition deleteFaceData (st : t) (userId : string) : bool * t :=
  let filtered :=
    List.filter (fun f => negb (String.eqb (FaceData.userId f) userId)) (faces st) in
  if length filtered =? length (faces st) then (false, st)
  else (true, mk (users st) (events st) filtered).

End Storage.

(** *** Face matcher (lib/face-api-server.ts, lib/face-recognition.ts) *)

Module FaceMatcher.

(** [number[] | Float32Array]. *)
Inductive Descriptor : Type :=
| NumberArray (l : list float)
| TypedArray (a : Float32Array.t).

(** [d instanceof Float32Array ? d : new Float32Array(d)]. *)
Definition toFloat32Array (d : Descriptor) : Float32Array.t :=
  match d with
  | TypedArray a => a
  | NumberArray l => Float32Array.of_array l
  end.

Record Match : Type := mkMatch { userId : string; distance : float }.

Definition threshold : float := 0.6.

(** The inner loop: squared differences accumulated over the common prefix. *)
Fixpoint sum_squares (input face : list float) (sum : float) : float :=
  match input, face with
  | a :: input', b :: face' =>
      let diff := (a - b)%float in
      sum_squares input' face' (sum + diff * diff)%float
  | _, _ => sum
  end.

Definition euclidean (input face : Float32Array.t) : float :=
  PrimFloat.sqrt
    (sum_squares (Float32Array.values input) (Float32Array.values face) 0).

(** One iteration of the matching loop once the distance is known. *)
Definition consider (bestMatch : option Match) (userId : string) (distance : float)
  : option Match :=
  if PrimFloat.ltb distance threshold then
    match bestMatch with
    | None => Some (mkMatch userId distance)
    | Some b =>
        if PrimFloat.ltb distance (FaceMatcher.distance b)
        then Some (mkMatch userId distance)
        else bestMatch
    end
  else bestMatch.

(** [saveFaceData(userId, descriptor)] of face-api-server.ts. *)
Definition saveFaceData (st : Storage.t) (userId : string) (descriptor : Descriptor)
  (now : Z) : option Float32Array.t * Storage.t :=
  let descriptorArray := toFloat32Array descriptor in
  if length (Float32Array.values descriptorArray) =? 0 then (None, st)
  else (Some descriptorArray, Storage.saveFaceData st userId descriptorArray None now).

(** [recognizeFaceFromDescriptor(descriptor)] of face-api-server.ts. *)
Definition recognizeFaceFromDescriptor (st : Storage.t) (descriptor : Descriptor)
  : option Match :=
  let faceData := Storage.getFaceData st in
  let inputDescriptor := toFloat32Array descriptor in
  fold_left
    (fun bestMatch face =>
       let faceDescriptor := Float32Array.of_array (FaceData.descriptor face) in
       consider bestMatch (FaceData.userId face)
         (euclidean inputDescriptor faceDescriptor))
    faceData None.


End FaceMatcher.

(** *** HTTP routes (app/api/face/recognize, app/api/face/verify-pin,
    app/api/events) *)

Module Response.

Inductive Body : Type :=
| Error (error : string)
| Recognized (userId : string) (userName : option string) (distance : float)
| Success
| Created (event : Event.t).

Record t : Type := mk { status : nat; body : Body }.

(** [response.ok]: the status is in the range 200-299. *)
Definition ok (r : t) : bool := (200 <=? status r) && (status r <=? 299).

End Response.

Module Routes.

Section WithBcrypt.

(** [verifyPassword(password, hash)] of lib/auth.ts, that is
    [bcrypt.compare]. *)
Variable verifyPassword : string -> string -> bool.

(** [POST /api/face/recognize] with body [{ descriptor }], handled when the
    clock reads [now]. An array is truthy, so only an absent descriptor is
    refused. *)
Definition recognize_POST (st : Storage.t) (descriptor : option (list float))
  (now : Z) : Response.t * Storage.t :=
  match descriptor with
  | None => (Response.mk 400 (Response.Error "descriptor is required"), st)
  | Some d =>
      match FaceMatcher.recognizeFaceFromDescriptor st (FaceMatcher.NumberArray d) with
      | None =>
          let '(_, st1) :=
            Storage.createEvent st "unauthorized_face" None None
              (Some [("reason", JStr "No matching face found")]) now in
          (Response.mk 401 (Response.Error "Face not recognized"), st1)
      | Some m =>
          let user := Storage.getUserById st (FaceMatcher.userId m) in
          (Response.mk 200
             (Response.Recognized (FaceMatcher.userId m)
                (User.name <$> user) (FaceMatcher.distance m)),
           st)
      end
  end.

(** [POST /api/face/verify-pin] with body [{ userId, pin }]. *)
Definition verify_pin_POST (st : Storage.t) (userId pin : option string)
  (now : Z) : Response.t * Storage.t :=
  if negb (JS.truthy userId) || negb (JS.truthy pin) then
    (Response.mk 400 (Response.Error "UserId and PIN are required"), st)
  else
    let userId' := default "" userId in
    let pin' := default "" pin in
    match Storage.getUserById st userId' with
    | None => (Response.mk 404 (Response.Error "User not found"), st)
    | Some user =>
        if negb (JS.truthy (User.pinHash user)) then
          (Response.mk 400 (Response.Error "PIN not set for this user"), st)
        else
          let isValid := verifyPassword pin' (default "" (User.pinHash user)) in
          if negb isValid then
            let '(_, st1) :=
              Storage.createEvent st "unauthorized_face" (Some userId')
                (Some (User.name user))
                (Some [("reason", JStr "Invalid PIN")]) now in
            (Response.mk 401 (Response.Error "Invalid PIN"), st1)
          else (Response.mk 200 Response.Success, st)
    end.

End WithBcrypt.

(** [POST /api/events]. *)
Definition events_POST (st : Storage.t) (body : EventBody.t) (now : Z)
  : Response.t * Storage.t :=
  if negb (JS.truthy (EventBody.type body)) then
    (Response.mk 400 (Response.Error "Event type is required"), st)
  else
    let '(event, st1) :=
      Storage.createEvent st (default "" (EventBody.type body))
        (EventBody.userId body) (EventBody.userName body)
        (EventBody.metadata body) now in
    (Response.mk 200 (Response.Created event), st1).

End Routes.

(** *** The safe page (app/safe/page.tsx): the unlock flow of [SafePage] *)

Module SafePage.

Inductive SafeState : Type := locked | unlocking | unlocked | setup.

(** The React state of the component read or written by the unlock flow,
    the video element, and the timers it has pending. A voice timer is the
    closure of the 3000 ms callback, which holds the [userId] it was created
    with. *)
Record t : Type := mk
  { safeState : SafeState;
    cameraPermission : option bool;
    micPermission : option bool;
    pin : string;
    statusMessage : string;
    modelsLoaded : bool;
    videoOn : bool;
    isRecording : bool;
    faceTimers : nat;
    voiceTimers : list string }.

(** The component as first rendered. *)
Definition init : t :=
  mk locked None None "" "" false false false 0 [].

Definition setStatusMessage (p : t) (m : string) : t :=
  mk (safeState p) (cameraPermission p) (micPermission p) (pin p) m
     (modelsLoaded p) (videoOn p) (isRecording p) (faceTimers p) (voiceTimers p).

Definition setPin (p : t) (v : string) : t :=
  mk (safeState p) (cameraPermission p) (micPermission p) v (statusMessage p)
     (modelsLoaded p) (videoOn p) (isRecording p) (faceTimers p) (voiceTimers p).

Definition setSafeState (p : t) (s : SafeState) : t :=
  mk s (cameraPermission p) (micPermission p) (pin p) (statusMessage p)
     (modelsLoaded p) (videoOn p) (isRecording p) (faceTimers p) (voiceTimers p).

Definition setPermissions (p : t) (camera mic : bool) : t :=
  mk (safeState p) (Some camera) (Some mic) (pin p) (statusMessage p)
     (modelsLoaded p) (videoOn p) (isRecording p) (faceTimers p) (voiceTimers p).

Definition setModelsLoaded (p : t) (b : bool) : t :=
  mk (safeState p) (cameraPermission p) (micPermission p) (pin p) (statusMessage p)
     b (videoOn p) (isRecording p) (faceTimers p) (voiceTimers p).

Definition setVideo (p : t) (b : bool) : t :=
  mk (safeState p) (cameraPermission p) (micPermission p) (pin p) (statusMessage p)
     (modelsLoaded p) b (isRecording p) (faceTimers p) (voiceTimers p).

Definition setIsRecording (p : t) (b : bool) : t :=
  mk (safeState p) (cameraPermission p) (micPermission p) (pin p) (statusMessage p)
     (modelsLoaded p) (videoOn p) b (faceTimers p) (voiceTimers p).

Definition setFaceTimers (p : t) (n : nat) : t :=
  mk (safeState p) (cameraPermission p) (micPermission p) (pin p) (statusMessage p)
     (modelsLoaded p) (videoOn p) (isRecording p) n (voiceTimers p).

Definition setVoiceTimers (p : t) (l : list string) : t :=
  mk (safeState p) (cameraPermission p) (micPermission p) (pin p) (statusMessage p)
     (modelsLoaded p) (videoOn p) (isRecording p) (faceTimers p) l.

Definition startVideo (p : t) : t := setVideo p true.
Definition stopVideo (p : t) : t := setVideo p false.

(** Truthiness of a [boolean | null] state. *)
Definition granted (b : option bool) : bool := default false b.

(** What the browser did, in order: the requests sent with [fetch] together
    with the response received, the result of each voice check, and the
    page loads and unlock attempts that delimit sessions. *)
Inductive Obs : Type :=
| ObsPageLoad
| ObsUnlockStarted
| ObsRecognize (response : Response.t)
| ObsVerifyPin (userId pin : string) (response : Response.t)
| ObsVoice (hasAudio : bool)
| ObsEventPost (body : EventBody.t)
| ObsActuator (url : string).

(** The browser, the server it talks to and the requests observed. *)
Record World : Type := mkWorld
  { page : t;
    localStorage : gmap string string;
    server : Storage.t;
    trace : list Obs }.

Definition withPage (w : World) (p : t) : World :=
  mkWorld p (localStorage w) (server w) (trace w).

Definition observe (w : World) (o : Obs) : World :=
  mkWorld (page w) (localStorage w) (server w) (JS.push (trace w) o).

Definition setItem (w : World) (k v : string) : World :=
  mkWorld (page w) (<[k := v]> (localStorage w)) (server w) (trace w).

Definition removeItem (w : World) (k : string) : World :=
  mkWorld (page w) (delete k (localStorage w)) (server w) (trace w).

Definition withServer (w : World) (st : Storage.t) : World :=
  mkWorld (page w) (localStorage w) st (trace w).

(** The world after a fresh page load over the given server and browser
    storage. *)
Definition load (ls : gmap string string) (st : Storage.t) (tr : list Obs) : World :=
  mkWorld init ls st (JS.push tr ObsPageLoad).

(** Outcome of [requestPermissions]. *)
Inductive PermissionResult : Type :=
| PermGranted
| PermFailed (message : string).

(** What the 1000 ms callback of [handleUnlock] finds in front of the
    camera. *)
Inductive FaceScan : Type :=
| NoImage
| NoCamera
| NoDetection
| Detected (descriptor : list float)
| Thrown.

Section WithEnvironment.

Variable verifyPassword : string -> string -> bool.

(** [process.env.NEXT_PUBLIC_ESP32_URL]. *)
Variable esp32Url : option string.

Definition requestPermissions (p : t) (r : PermissionResult) : t :=
  match r with
  | PermGranted =>
      setStatusMessage (setPermissions p true true)
        "Permissions granted! You can now use the safe."
  | PermFailed message => setStatusMessage (setPermissions p false false) message
  end.

(** [handleUnlock] up to the point where it arms the 1000 ms timer. The
    permissions tested after [requestPermissions] are those of the render
    the handler was created in. *)
Definition handleUnlock (w : World) (r : PermissionResult) : World :=
  let p := page w in
  if negb (modelsLoaded p) then
    withPage w (setStatusMessage p "Face recognition models not loaded yet.")
  else if negb (granted (cameraPermission p)) || negb (granted (micPermission p)) then
    withPage w
      (requestPermissions
         (setStatusMessage p "Please grant camera and microphone permissions first.") r)
  else
    let p1 := setStatusMessage (setSafeState p unlocking) "Scanning face..." in
    let p2 := setFaceTimers (startVideo p1) (S (faceTimers p1)) in
    observe (withPage w p2) ObsUnlockStarted.

(** The failure exits of the face stage: a message, the camera stopped and
    the state set to locked. *)
Definition faceFailed (w : World) (message : string) : World :=
  withPage w (setSafeState (stopVideo (setStatusMessage (page w) message)) locked).

(** The body of the 1000 ms callback of [handleUnlock]. *)
Definition faceTimer (w : World) (scan : FaceScan) (now : Z) : World :=
  match scan with
  | NoImage => faceFailed w "Failed to capture image."
  | NoCamera => faceFailed w "Camera not available."
  | NoDetection =>
      faceFailed w "No face detected. Please position your face in the camera."
  | Thrown => faceFailed w "Error during unlock process."
  | Detected descriptor =>
      let '(response, st) := Routes.recognize_POST (server w) (Some descriptor) now in
      let w1 := observe (withServer w st) (ObsRecognize response) in
      match Response.ok response, Response.body response with
      | true, Response.Recognized userId _ _ =>
          let w2 := setItem w1 "recognizedUserId" userId in
          withPage w2
            (setPin
               (setStatusMessage (page w2)
                  "Face recognized. Please enter your PIN below.") "")
      | _, _ => faceFailed w1 "Face not recognized. Access denied."
      end
  end.

(** The failure exits of the PIN and voice stages. *)
Definition sessionFailed (w : World) (message : string) : World :=
  let p := setSafeState (stopVideo (setPin (setStatusMessage (page w) message) "")) locked in
  removeItem (withPage w p) "recognizedUserId".

(** The [onClick] handler of "Verify PIN & Voice" up to the point where it
    arms the 3000 ms timer. *)
Definition verify_onClick (w : World) (now : Z) : World :=
  let p := page w in
  if String.eqb (pin p) "" || (String.length (pin p) <? 4) then
    withPage w (setStatusMessage p "Please enter a valid PIN (at least 4 digits).")
  else
    let userId := localStorage w !! "recognizedUserId" in
    if negb (JS.truthy userId) then
      withPage w (setStatusMessage p "Face recognition required first.")
    else
      let userId' := default "" userId in
      let '(pinResponse, st) :=
        Routes.verify_pin_POST verifyPassword (server w) (Some userId') (Some (pin p)) now in
      let w1 := observe (withServer w st) (ObsVerifyPin userId' (pin p) pinResponse) in
      if negb (Response.ok pinResponse) then
        let error :=
          match Response.body pinResponse with
          | Response.Error e => if String.eqb e "" then "Access denied." else e
          | _ => "Access denied."
          end in
        sessionFailed w1 ("Invalid PIN. " +:+ error)
      else
        let p1 := setStatusMessage (page w1) "PIN verified. Please speak your phrase now." in
        let p2 := setVoiceTimers (setIsRecording p1 true) (JS.push (voiceTimers p1) userId') in
        withPage w1 p2.

Definition unlock_body (userId : string) : EventBody.t :=
  EventBody.mk (Some "unlock") (Some userId) None
    (Some [("verified", JStr "face+pin+voice")]).

(** The body of the 3000 ms callback of the verify handler created for
    [userId], when [stopRecording] resolves to [hasAudio]. Both requests of
    the success branch are sent without waiting for them. *)
Definition voiceTimer (w : World) (userId : string) (hasAudio : bool) (now : Z) : World :=
  let w0 := observe (withPage w (setIsRecording (page w) false)) (ObsVoice hasAudio) in
  if hasAudio then
    let '(_, st) := Routes.events_POST (server w0) (unlock_body userId) now in
    let w1 := observe (withServer w0 st) (ObsEventPost (unlock_body userId)) in
    let w2 :=
      match esp32Url with
      | Some url => if String.eqb url "" then w1 else observe w1 (ObsActuator (url +:+ "90"))
      | None => w1
      end in
    let p :=
      setPin
        (setStatusMessage (setSafeState (stopVideo (page w2)) unlocked) "Safe unlocked") "" in
    removeItem (withPage w2 p) "recognizedUserId"
  else sessionFailed w0 "No audio detected. Please speak your phrase.".

Definition lock_body : EventBody.t := EventBody.mk (Some "lock") None None None.

(** [handleLock]. *)
Definition handleLock (w : World) (now : Z) : World :=
  let p := setStatusMessage (setSafeState (stopVideo (page w)) locked) "Safe locked" in
  let w1 := observe (withPage w p) (ObsActuator (default "undefined" esp32Url +:+ "-90")) in
  let '(_, st) := Routes.events_POST (server w1) lock_body now in
  observe (withServer w1 st) (ObsEventPost lock_body).

(** What can happen to the page: the effects run on mount, the clicks and
    key strokes the rendered controls accept, the timers firing, and a
    reload of the page. *)
Inductive Input : Type :=
| ModelsLoaded
| PermissionsChecked (camera mic : bool)
| ClickUnlock (r : PermissionResult)
| FaceTimer (scan : FaceScan) (now : Z)
| ChangePin (value : string)
| ClickVerify (now : Z)
| VoiceTimer (hasAudio : bool) (now : Z)
| ClickLock (now : Z)
| Reload.

Definition is_locked (s : SafeState) : bool :=
  match s with locked => true | _ => false end.
Definition is_unlocking (s : SafeState) : bool :=
  match s with unlocking => true | _ => false end.
Definition is_unlocked (s : SafeState) : bool :=
  match s with unlocked => true | _ => false end.

(** One input handled by the page. A control reacts only while it is
    rendered and not disabled; a timer fires only if it is pending. *)
Definition step (w : World) (i : Input) : World :=
  let p := page w in
  match i with
  | ModelsLoaded =>
      withPage w (setStatusMessage (setModelsLoaded p true) "Models loaded. Ready to scan.")
  | PermissionsChecked camera mic => withPage w (setPermissions p camera mic)
  | ClickUnlock r =>
      if is_locked (safeState p) && modelsLoaded p && granted (cameraPermission p)
      then handleUnlock w r else w
  | FaceTimer scan now =>
      match faceTimers p with
      | O => w
      | S n => faceTimer (withPage w (setFaceTimers p n)) scan now
      end
  | ChangePin value =>
      if is_unlocking (safeState p) then withPage w (setPin p (JS.digits_only value)) else w
  | ClickVerify now =>
      if is_unlocking (safeState p) &&
         negb (String.eqb (pin p) "" || (String.length (pin p) <? 4))
      then verify_onClick w now else w
  | VoiceTimer hasAudio now =>
      match voiceTimers p with
      | [] => w
      | userId :: rest => voiceTimer (withPage w (setVoiceTimers p rest)) userId hasAudio now
      end
  | ClickLock now => if is_unlocked (safeState p) then handleLock w now else w
  | Reload => load (localStorage w) (server w) (trace w)
  end.

Definition run (w : World) (inputs : list Input) : World :=
  fold_left step inputs w.

End WithEnvironment.

End SafePage.

(** *** User accounts (lib/storage.ts, the operations on [users.json]) *)

Module Accounts.

(** [Omit<User, "id" | "createdAt">], the argument of [createUser]. *)
Record NewUser : Type := mkNew
  { name : string;
    email : string;
    passwordHash : string;
    isAdmin : bool;
    faceDescriptor : option (list float);
    voicePhrase : option string;
    pinHash : option string }.

Definition getUsers (st : Storage.t) : list User.t := Storage.users st.

Definition getUserByEmail (st : Storage.t) (email : string) : option User.t :=
  find (fun u => String.eqb (User.email u) email) (getUsers st).

(** [createUser(user)] called when the clock reads [now]: the id is
    [Date.now().toString()]. *)
Definition createUser (st : Storage.t) (user : NewUser) (now : Z)
  : User.t * Storage.t :=
  let users := getUsers st in
  let newUser :=
    User.mk (pretty now) (name user) (email user) (passwordHash user) (isAdmin user)
      (faceDescriptor user) (voicePhrase user) (pinHash user) now in
  (newUser, Storage.mk (JS.push users newUser) (Storage.events st) (Storage.faces st)).

(** [deleteUser(id)]. *)
Definition deleteUser (st : Storage.t) (id : string) : bool * Storage.t :=
  let users := getUsers st in
  let filtered := List.filter (fun u => negb (String.eqb (User.id u) id)) users in
  if length filtered =? length users then (false, st)
  else (true, Storage.mk filtered (Storage.events st) (Storage.faces st)).

End Accounts.

(** *** Sensor hub: the messages of a whole session (server.ts) *)

Module HubSession.

(** The ["sensor-data"] messages of all connected clients in the order the
    server handles them, each with the clock value at that moment: the
    shared history after them and what was emitted for each. *)
Fixpoint run (sensorDataStore : list SensorData.t) (messages : list (SensorData.t * Z))
  : list SensorData.t * list (list Hub.Emit) :=
  match messages with
  | [] => (sensorDataStore, [])
  | (data, now) :: rest =>
      let '(store1, emitted) := Hub.on_sensor_data sensorDataStore data now in
      let '(store2, more) := run store1 rest in
      (store2, emitted :: more)
  end.

End HubSession.

(** *** Tokens (lib/auth.ts) *)

Module Auth.

(** [interface AuthPayload]. *)
Record AuthPayload : Type := mkPayload
  { userId : string; email : string; isAdmin : bool }.

Section WithJwt.

(** [jwt.verify(token, JWT_SECRET)]: the payload of a token that verifies,
    nothing when the call throws. *)
Variable jwtVerify : string -> option AuthPayload.

(** [verifyToken(token)]. *)
Definition verifyToken (token : option string) : option AuthPayload :=
  if negb (JS.truthy token) then None
  else jwtVerify (default "" token).

End WithJwt.

End Auth.

(** *** The account routes (app/api/users, app/api/users/[id],
    app/api/events GET, app/api/auth/init) *)

Module Api.

(** [const { passwordHash: _, ...safeUser } = user]. *)
Record SafeUser : Type := mkSafe
  { id : string;
    name : string;
    email : string;
    isAdmin : bool;
    faceDescriptor : option (list float);
    voicePhrase : option string;
    pinHash : option string;
    createdAt : Z }.

Definition safe (u : User.t) : SafeUser :=
  mkSafe (User.id u) (User.name u) (User.email u) (User.isAdmin u)
    (User.faceDescriptor u) (User.voicePhrase u) (User.pinHash u) (User.createdAt u).

Inductive Body : Type :=
| Error (error : string)
| Events (events : list Event.t)
| Users (users : list SafeUser)
| UserSaved (user : SafeUser)
| AdminCreated (message : string) (admin : SafeUser)
| Success.

Record Response : Type := mkResponse { status : nat; body : Body }.

Definition unauthorized : Response := mkResponse 401 (Error "Unauthorized").

Section WithLibraries.

Variable jwtVerify : string -> option Auth.AuthPayload.

(** [hashPassword(password)] of lib/auth.ts, that is [bcrypt.hash]. *)
Variable hashPassword : string -> string.

(** [parseInt(text)]: nothing when the result is NaN. *)
Variable parseInt : string -> option Z.

(** [GET /api/events?limit=...] with the cookie [auth-token]. *)
Definition events_GET (st : Storage.t) (token limit : option string) : Response :=
  if negb (JS.truthy token) then unauthorized
  else
    match Auth.verifyToken jwtVerify token with
    | None => unauthorized
    | Some payload =>
        if negb (Auth.isAdmin payload) then unauthorized
        else
          let events :=
            Storage.getEvents st
              (if JS.truthy limit then parseInt (default "" limit) else None) in
          mkResponse 200 (Events events)
    end.

(** [GET /api/users]. *)
Definition users_GET (st : Storage.t) (token : option string) : Response :=
  if negb (JS.truthy token) then unauthorized
  else
    match Auth.verifyToken jwtVerify token with
    | None => unauthorized
    | Some payload =>
        if negb (Auth.isAdmin payload) then unauthorized
        else mkResponse 200 (Users (map safe (Accounts.getUsers st)))
    end.

(** [POST /api/users] with body [{ name, email, password, isAdmin }]. *)
Definition users_POST (st : Storage.t) (token : option string)
  (name email password : option string) (isAdmin : option bool) (now : Z)
  : Response * Storage.t :=
  if negb (JS.truthy token) then (unauthorized, st)
  else
    match Auth.verifyToken jwtVerify token with
    | None => (unauthorized, st)
    | Some payload =>
        if negb (Auth.isAdmin payload) then (unauthorized, st)
        else if negb (JS.truthy name) || negb (JS.truthy email) || negb (JS.truthy password)
        then (mkResponse 400 (Error "Name, email, and password are required"), st)
        else
          match Accounts.getUserByEmail st (default "" email) with
          | Some existingUser =>
              (mkResponse 400 (Error "User with this email already exists"), st)
          | None =>
              let passwordHash := hashPassword (default "" password) in
              let '(user, st1) :=
                Accounts.createUser st
                  (Accounts.mkNew (default "" name) (default "" email) passwordHash
                     (default false isAdmin) None None None) now in
              (mkResponse 200 (UserSaved (safe user)), st1)
          end
    end.

(** [DELETE /api/users/[id]]. *)
Definition users_id_DELETE (st : Storage.t) (token : option string) (id : string)
  : Response * Storage.t :=
  if negb (JS.truthy token) then (unauthorized, st)
  else
    match Auth.verifyToken jwtVerify token with
    | None => (unauthorized, st)
    | Some payload =>
        if negb (Auth.isAdmin payload) then (unauthorized, st)
        else
          let '(deleted, st1) := Accounts.deleteUser st id in
          if negb deleted then (mkResponse 404 (Error "User not found"), st1)
          else
            let '(_, st2) := Storage.deleteFaceData st1 id in
            (mkResponse 200 Success, st2)
    end.

(** [POST /api/auth/init] with body [{ name, email, password }]. *)
Definition init_POST (st : Storage.t) (name email password : option string) (now : Z)
  : Response * Storage.t :=
  if negb (JS.truthy name) || negb (JS.truthy email) || negb (JS.truthy password)
  then (mkResponse 400 (Error "Name, email, and password are required"), st)
  else
    match Accounts.getUserByEmail st (default "" email) with
    | Some existingAdmin => (mkResponse 400 (Error "Admin user already exists"), st)
    | None =>
        let passwordHash := hashPassword (default "" password) in
        let '(admin, st1) :=
          Accounts.createUser st
            (Accounts.mkNew (default "" name) (default "" email) passwordHash
               true None None None) now in
        (mkResponse 200 (AdminCreated "Admin user created successfully" (safe admin)), st1)
    end.

End WithLibraries.

End Api.

(** *** Enrolment (app/api/face/register) *)

Module Enrolment.

Section WithBcrypt.

Variable hashPassword : string -> string.

(** The account the route writes for an id that has none. Its [createdAt]
    is [new Date().toISOString()], the text of the instant [now]; the
    instant itself is kept here. *)
Definition newUser (userId : string) (pinHash voicePhrase : option string) (now : Z)
  : User.t :=
  User.mk userId ("User " +:+ userId) (userId +:+ "@safe.local") (hashPassword "")
    false None voicePhrase pinHash now.

(** [users.push(newUser)] followed by the direct write of [users.json]. *)
Definition writeUser (st : Storage.t) (u : User.t) : Storage.t :=
  Storage.mk (JS.push (Accounts.getUsers st) u) (Storage.events st) (Storage.faces st).

(** The block "Save face descriptor if provided": the storage after it, or
    nothing when the route answers "Invalid descriptor". An array is truthy
    even when it is empty. *)
Definition saveDescriptor (st : Storage.t) (userId : string)
  (descriptor : option (list float)) (now : Z) : option Storage.t :=
  match descriptor with
  | Some d =>
      match FaceMatcher.saveFaceData st userId (FaceMatcher.NumberArray d) now with
      | (Some savedDescriptor, st1) => Some st1
      | (None, _) => None
      end
  | None => Some st
  end.

(** The block "Ensure user exists before updating". *)
Definition ensureUser (st : Storage.t) (userId : string) (pin voicePhrase : option string)
  (now : Z) : Storage.t :=
  match Storage.getUserById st userId with
  | None =>
      if JS.truthy pin || JS.truthy voicePhrase
      then writeUser st (newUser userId None None now)
      else st
  | Some user => st
  end.

(** The block "Save PIN hash if provided". *)
Definition savePin (st : Storage.t) (userId : string) (pin : option string) (now : Z)
  : Storage.t :=
  if JS.truthy pin then
    let pinHash := hashPassword (default "" pin) in
    match Storage.getUserById st userId with
    | None => writeUser st (newUser userId (Some pinHash) None now)
    | Some user =>
        snd (Storage.updateUser st userId
               (UserUpdate.mk None None None None None None (Some pinHash)))
    end
  else st.

(** The block "Save voice phrase if provided". *)
Definition saveVoicePhrase (st : Storage.t) (userId : string)
  (voicePhrase : option string) (now : Z) : Storage.t :=
  if JS.truthy voicePhrase then
    match Storage.getUserById st userId with
    | None => writeUser st (newUser userId None voicePhrase now)
    | Some user =>
        snd (Storage.updateUser st userId
               (UserUpdate.mk None None None None None voicePhrase None))
    end
  else st.

(** The block "Log setup event only if this is completing setup". *)
Definition logSetup (st : Storage.t) (userId : string) (pin voicePhrase : option string)
  (now : Z) : Storage.t :=
  if JS.truthy pin || JS.truthy voicePhrase then
    let user := Storage.getUserById st userId in
    snd (Storage.createEvent st "setup" (Some userId) (User.name <$> user)
           (Some [("hasPin", JBool (JS.truthy pin));
                  ("hasVoicePhrase", JBool (JS.truthy voicePhrase))]) now)
  else st.

(** [POST /api/face/register] with body
    [{ userId, descriptor, pin, voicePhrase }]: the blocks above in the
    order of the source. The clock reads of one request are taken at the
    same instant [now]. *)
Definition register_POST (st : Storage.t) (userId : option string)
  (descriptor : option (list float)) (pin voicePhrase : option string) (now : Z)
  : Response.t * Storage.t :=
  if negb (JS.truthy userId)
  then (Response.mk 400 (Response.Error "UserId is required"), st)
  else
    let userId' := default "" userId in
    match saveDescriptor st userId' descriptor now with
    | None => (Response.mk 400 (Response.Error "Invalid descriptor"), st)
    | Some st1 =>
        let st2 := ensureUser st1 userId' pin voicePhrase now in
        let st3 := savePin st2 userId' pin now in
        let st4 := saveVoicePhrase st3 userId' voicePhrase now in
        let st5 := logSetup st4 userId' pin voicePhrase now in
        (Response.mk 200 Response.Success, st5)
    end.

End WithBcrypt.

End Enrolment.

(** *** The voice check (app/safe/page.tsx, [hasAudioContent] and
    [stopRecording]) *)

Module Audio.

(** What becomes of the recording when it is decoded: no [AudioContext]
    class in the browser, an exception while reading or decoding, or the
    samples of the first channel. *)
Inductive Decoding : Type :=
| NoAudioContext
| Failed
| Decoded (channelData : Float32Array.t).

(** The loop [sumSquares += channelData[i] * channelData[i]]. *)
Fixpoint sumSquares (channelData : list float) (sum : float) : float :=
  match channelData with
  | [] => sum
  | v :: rest => sumSquares rest (sum + v * v)%float
  end.

Definition threshold : float := 0.01.

(** [hasAudioContent(audioBlob)] for a blob of [size] bytes. *)
Definition hasAudioContent (size : nat) (decoding : Decoding) : bool :=
  match decoding with
  | NoAudioContext => Nat.ltb 1000 size
  | Failed => Nat.ltb 1000 size
  | Decoded channelData =>
      let samples := Float32Array.values channelData in
      let rms :=
        PrimFloat.sqrt (sumSquares samples 0 / JS.number_of_nat (length samples))%float in
      JS.gtb rms threshold
  end.

(** The [ondataavailable] handler: the sizes of the chunks kept. *)
Definition ondataavailable (audioChunks : list nat) (size : nat) : list nat :=
  if Nat.ltb 0 size then JS.push audioChunks size else audioChunks.

(** [stopRecording()]: [active] tells whether there is a recorder that is
    not inactive; the blob is the concatenation of the chunks. *)
Definition stopRecording (active : bool) (audioChunks : list nat) (decoding : Decoding)
  : bool :=
  if active then
    if length audioChunks =? 0 then false
    else hasAudioContent (list_sum audioChunks) decoding
  else false.

End Audio.

(** *** The safe page (app/safe/page.tsx): the setup flow of [SafePage] *)

Module SetupPage.

(** [type SetupMode = "face" | "pin" | "phrase"]. *)
Inductive SetupMode : Type := mode_face | mode_pin | mode_phrase.

(** What the 10000 ms callback of [completePhraseSetup] holds of the render
    it was created in. *)
Record Closure : Type := mkClosure
  { closureUserId : option string; closurePin : string; closurePhrase : string }.

(** The React state that only the setup flow reads or writes, and the
    timers it has pending. *)
Record t : Type := mk
  { setupMode : SetupMode;
    setupPin : string;
    confirmPin : string;
    phrase : string;
    setupUserId : option string;
    phraseTimers : list Closure }.

(** The component as first rendered. *)
Definition init : t := mk mode_face "" "" "" None [].

(** The whole component: the state of the unlock flow with the browser and
    the server, and the state of the setup flow. *)
Record World : Type := mkWorld { safe : SafePage.World; setup : t }.

Definition withSafe (w : World) (s : SafePage.World) : World := mkWorld s (setup w).
Definition withSetup (w : World) (s : t) : World := mkWorld (safe w) s.

(** [setStatusMessage], [setSafeState] and the camera, on the shared page. *)
Definition status (w : World) (message : string) : World :=
  withSafe w
    (SafePage.withPage (safe w)
       (SafePage.setStatusMessage (SafePage.page (safe w)) message)).

Definition onPage (w : World) (f : SafePage.t -> SafePage.t) : World :=
  withSafe w (SafePage.withPage (safe w) (f (SafePage.page (safe w)))).

(** What [completeFaceSetup] finds in front of the camera: no video
    element, no face, a face with its descriptor, or an exception with the
    message of the error if it is an [Error]. *)
Inductive SetupScan : Type :=
| NoVideo
| NoDetection
| Detected (descriptor : list float)
| Thrown (message : option string).

Definition is_face (m : SetupMode) : bool := match m with mode_face => true | _ => false end.
Definition is_pin (m : SetupMode) : bool := match m with mode_pin => true | _ => false end.
Definition is_phrase (m : SetupMode) : bool := match m with mode_phrase => true | _ => false end.
Definition is_setup (s : SafePage.SafeState) : bool :=
  match s with SafePage.setup => true | _ => false end.

(** [errorData.error || fallback]. *)
Definition error_or (r : Response.t) (fallback : string) : string :=
  match Response.body r with
  | Response.Error e => if String.eqb e "" then fallback else e
  | _ => fallback
  end.

Section WithEnvironment.

Variable hashPassword : string -> string.
Variable verifyPassword : string -> string -> bool.
Variable esp32Url : option string.

(** [handleSetup]. The permissions tested after [requestPermissions] are
    those of the render the handler was created in. *)
Definition handleSetup (w : World) (r : SafePage.PermissionResult) : World :=
  let p := SafePage.page (safe w) in
  if negb (SafePage.modelsLoaded p) then
    status w "Face recognition models not loaded yet."
  else if negb (SafePage.granted (SafePage.cameraPermission p)) ||
          negb (SafePage.granted (SafePage.micPermission p)) then
    onPage w (fun p =>
      SafePage.requestPermissions
        (SafePage.setStatusMessage p "Please grant camera and microphone permissions first.") r)
  else
    let w1 :=
      onPage w (fun p =>
        SafePage.startVideo
          (SafePage.setStatusMessage (SafePage.setSafeState p SafePage.setup)
             "Setup: Capture your face")) in
    let s := setup w1 in
    withSetup w1 (mk mode_face (setupPin s) (confirmPin s) (phrase s) None (phraseTimers s)).

(** [completeFaceSetup] when the clock reads [now]. *)
Definition completeFaceSetup (w : World) (scan : SetupScan) (now : Z) : World :=
  let p := SafePage.page (safe w) in
  match scan with
  | NoVideo => status w "Camera or models not ready"
  | _ =>
      if negb (SafePage.modelsLoaded p) then status w "Camera or models not ready"
      else
        match scan with
        | NoVideo => status w "Camera or models not ready"
        | NoDetection =>
            status w "No face detected. Please position your face in the camera."
        | Thrown message =>
            status w ("Error during setup: " +:+ default "Unknown error" message)
        | Detected descriptor =>
            let s := setup w in
            let stored := SafePage.localStorage (safe w) !! "userId" in
            let userId :=
              if JS.truthy (setupUserId s) then default "" (setupUserId s)
              else if JS.truthy stored then default "" stored
              else "user-" +:+ pretty now in
            let w1 := withSafe w (SafePage.setItem (safe w) "userId" userId) in
            let w2 :=
              withSetup w1
                (mk (setupMode s) (setupPin s) (confirmPin s) (phrase s) (Some userId)
                   (phraseTimers s)) in
            let '(response, st) :=
              Enrolment.register_POST hashPassword (SafePage.server (safe w2))
                (Some userId) (Some descriptor) None None now in
            let w3 := withSafe w2 (SafePage.withServer (safe w2) st) in
            if Response.ok response then
              let s3 := setup w3 in
              status
                (withSetup w3
                   (mk mode_pin (setupPin s3) (confirmPin s3) (phrase s3) (setupUserId s3)
                      (phraseTimers s3)))
                "Face registered. Now set your PIN."
            else status w3 (error_or response "Failed to register face.")
        end
  end.

(** [completePinSetup]. *)
Definition completePinSetup (w : World) : World :=
  let s := setup w in
  if String.eqb (setupPin s) "" || (String.length (setupPin s) <? 4) then
    status w "PIN must be at least 4 digits."
  else if negb (String.eqb (setupPin s) (confirmPin s)) then
    withSetup (status w "PINs do not match. Please try again.")
      (mk (setupMode s) "" "" (phrase s) (setupUserId s) (phraseTimers s))
  else
    withSetup (status w "PIN set. Now record your phrase.")
      (mk mode_phrase (setupPin s) (confirmPin s) (phrase s) (setupUserId s)
         (phraseTimers s)).

(** [completePhraseSetup] up to the point where it arms the 10000 ms
    timer. *)
Definition completePhraseSetup (w : World) : World :=
  let s := setup w in
  let w1 :=
    onPage w (fun p =>
      SafePage.setStatusMessage (SafePage.setIsRecording p true) "Recording phrase...") in
  withSetup w1
    (mk (setupMode s) (setupPin s) (confirmPin s) (phrase s) (setupUserId s)
       (JS.push (phraseTimers s) (mkClosure (setupUserId s) (setupPin s) (phrase s)))).

(** The body of the 10000 ms callback created with closure [c], when
    [stopRecording] resolves to [hasAudio] and the clock reads [now]. *)
Definition phraseTimer (w : World) (c : Closure) (hasAudio : bool) (now : Z) : World :=
  let w0 := onPage w (fun p => SafePage.setIsRecording p false) in
  if hasAudio then
    let stored := SafePage.localStorage (safe w0) !! "userId" in
    let userId := if JS.truthy (closureUserId c) then closureUserId c else stored in
    if JS.truthy userId then
      let '(response, st) :=
        Enrolment.register_POST hashPassword (SafePage.server (safe w0))
          userId None (Some (closurePin c)) (Some (closurePhrase c)) now in
      let w1 := withSafe w0 (SafePage.withServer (safe w0) st) in
      if Response.ok response then
        let w2 :=
          onPage w1 (fun p =>
            SafePage.setSafeState
              (SafePage.stopVideo
                 (SafePage.setStatusMessage p "Setup complete! You can now unlock the safe."))
              SafePage.locked) in
        withSetup w2 (mk mode_face "" "" "" None (phraseTimers (setup w2)))
      else status w1 (error_or response "Failed to complete setup. Please try again.")
    else status w0 "User ID not found. Please start setup again."
  else status w0 "No audio detected. Please speak your phrase.".

(** What can happen to the page: the inputs of the unlock flow, and the
    clicks, key strokes and timers of the setup flow. *)
Inductive Input : Type :=
| Safe (i : SafePage.Input)
| ClickSetup (r : SafePage.PermissionResult)
| ClickCaptureFace (scan : SetupScan) (now : Z)
| ChangeSetupPin (value : string)
| ChangeConfirmPin (value : string)
| ClickSetPin
| ChangePhrase (value : string)
| ClickRecordPhrase
| PhraseTimer (hasAudio : bool) (now : Z).

(** One input handled by the page. A control reacts only while it is
    rendered and not disabled; a timer fires only if it is pending; a
    reload starts the component afresh. *)
Definition step (w : World) (i : Input) : World :=
  let p := SafePage.page (safe w) in
  let s := setup w in
  let in_setup := is_setup (SafePage.safeState p) in
  match i with
  | Safe SafePage.Reload =>
      mkWorld (SafePage.step verifyPassword esp32Url (safe w) SafePage.Reload) init
  | Safe i => withSafe w (SafePage.step verifyPassword esp32Url (safe w) i)
  | ClickSetup r =>
      if SafePage.is_locked (SafePage.safeState p) && SafePage.modelsLoaded p &&
         SafePage.granted (SafePage.cameraPermission p)
      then handleSetup w r else w
  | ClickCaptureFace scan now =>
      if in_setup && is_face (setupMode s) then completeFaceSetup w scan now else w
  | ChangeSetupPin value =>
      if in_setup && is_pin (setupMode s)
      then withSetup w (mk (setupMode s) (JS.digits_only value) (confirmPin s) (phrase s)
                          (setupUserId s) (phraseTimers s))
      else w
  | ChangeConfirmPin value =>
      if in_setup && is_pin (setupMode s)
      then withSetup w (mk (setupMode s) (setupPin s) (JS.digits_only value) (phrase s)
                          (setupUserId s) (phraseTimers s))
      else w
  | ClickSetPin =>
      if in_setup && is_pin (setupMode s) &&
         negb (String.eqb (setupPin s) "" || (String.length (setupPin s) <? 4))
      then completePinSetup w else w
  | ChangePhrase value =>
      if in_setup && is_phrase (setupMode s)
      then withSetup w (mk (setupMode s) (setupPin s) (confirmPin s) value
                          (setupUserId s) (phraseTimers s))
      else w
  | ClickRecordPhrase =>
      if in_setup && is_phrase (setupMode s) then completePhraseSetup w else w
  | PhraseTimer hasAudio now =>
      match phraseTimers s with
      | [] => w
      | c :: rest =>
          phraseTimer
            (withSetup w (mk (setupMode s) (setupPin s) (confirmPin s) (phrase s)
                            (setupUserId s) rest))
            c hasAudio now
      end
  end.

Definition run (w : World) (inputs : list Input) : World :=
  fold_left step inputs w.

End WithEnvironment.

(** The component freshly loaded over a browser storage and a server. *)
Definition load (ls : gmap string string) (st : Storage.t) : World :=
  mkWorld (SafePage.load ls st []) init.

End SetupPage.


(** *** Vocabulary of the specification *)

Module Spec.

(** The body posts an event of the given type. *)
Definition is_event_type (ty : string) (body : EventBody.t) : bool :=
  match EventBody.type body with
  | Some t => String.eqb t ty
  | None => false
  end.

(** Number of events of a type among the posts of one call. *)
Definition count_type (ty : string) (posts : list EventBody.t) : nat :=
  length (List.filter (is_event_type ty) posts).

(** The metadata names every axis of the sample that exceeded its
    threshold, with the raw value of that axis. *)
Definition lists_every_exceeded_axis
  (data : SensorData.t) (md : list (string * json)) : Prop :=
  let a := SensorData.accelerometer data in
  let g := SensorData.gyroscope data in
  let e := Dashboard.exceeded data in
  (Dashboard.accelXExceeded e = true -> In ("accelX", JNum (Vec3.x a)) md) /\
  (Dashboard.accelYExceeded e = true -> In ("accelY", JNum (Vec3.y a)) md) /\
  (Dashboard.gyroXExceeded e = true -> In ("gyroX", JNum (Vec3.x g)) md) /\
  (Dashboard.gyroYExceeded e = true -> In ("gyroY", JNum (Vec3.y g)) md) /\
  (Dashboard.gyroZExceeded e = true -> In ("gyroZ", JNum (Vec3.z g)) md).

(** Every movement event among the posts made for a message carries
    metadata that names every exceeded axis of the sample the message was
    turned into. *)
Definition movement_posts_complete
  (m : Dashboard.Message) (now : Z) (posts : list EventBody.t) : Prop :=
  forall body, In body posts -> is_event_type "movement_detected" body = true ->
  exists data md,
    Dashboard.sample_of m now = Some data /\
    EventBody.metadata body = Some md /\
    lists_every_exceeded_axis data md.

(** The distance the matcher computes between a query and a stored
    template. *)
Definition distance_to (descriptor : FaceMatcher.Descriptor) (face : FaceData.t) : float :=
  FaceMatcher.euclidean (FaceMatcher.toFloat32Array descriptor)
    (Float32Array.of_array (FaceData.descriptor face)).

(** [result] is the template of [faces] nearest to the query among those
    strictly below the threshold, the first of them in store order when
    several are at that distance; it is [None] when no template is below the
    threshold. *)
Definition nearest_below_threshold (faces : list FaceData.t)
  (dist : FaceData.t -> float) (result : option FaceMatcher.Match) : Prop :=
  match result with
  | Some m =>
      exists i face,
        faces !! i = Some face /\
        m = FaceMatcher.mkMatch (FaceData.userId face) (dist face) /\
        PrimFloat.ltb (dist face) FaceMatcher.threshold = true /\
        (forall other, In other faces ->
           PrimFloat.ltb (dist other) FaceMatcher.threshold = true ->
           PrimFloat.ltb (dist other) (dist face) = false) /\
        (forall j other, j < i -> faces !! j = Some other ->
           PrimFloat.ltb (dist other) FaceMatcher.threshold = true ->
           PrimFloat.ltb (dist face) (dist other) = true)
  | None =>
      forall face, In face faces ->
        PrimFloat.ltb (dist face) FaceMatcher.threshold = false
  end.

(** Among the observations, position [i] is a successful face match, [j] a
    successful PIN verification for the user that was recognized, [l] a
    voice check that detected audio, in this order and all before [k]. *)
Definition staged_unlock (tr : list SafePage.Obs) (i j l k : nat) : Prop :=
  exists faceResponse userId userName distance pin pinResponse,
    i < j /\ j < l /\ l < k /\
    tr !! i = Some (SafePage.ObsRecognize faceResponse) /\
    Response.ok faceResponse = true /\
    Response.body faceResponse = Response.Recognized userId userName distance /\
    tr !! j = Some (SafePage.ObsVerifyPin userId pin pinResponse) /\
    Response.ok pinResponse = true /\
    tr !! l = Some (SafePage.ObsVoice true).

(** No page load and no new unlock attempt lies between [i] and [k]. *)
Definition same_session (tr : list SafePage.Obs) (i k : nat) : Prop :=
  forall b, i < b < k ->
    tr !! b <> Some SafePage.ObsPageLoad /\
    tr !! b <> Some SafePage.ObsUnlockStarted.

(** Every command that opens the lock (a request to [openUrl]) comes after
    a successful face match, then a successful PIN verification for the
    recognized user, then a voice check that detected audio, all in the
    session of that face match. *)
Definition unlock_in_order (openUrl : string) (tr : list SafePage.Obs) : Prop :=
  forall k, tr !! k = Some (SafePage.ObsActuator openUrl) ->
  exists i j l, staged_unlock tr i j l k /\ same_session tr i k.

(** The same order, with the face match possibly in an earlier session. *)
Definition unlock_follows_stages (openUrl : string) (tr : list SafePage.Obs) : Prop :=
  forall k, tr !! k = Some (SafePage.ObsActuator openUrl) ->
  exists i j l, staged_unlock tr i j l k.

(** Before position [n], a face match succeeded for [userId]; and a face
    match followed by a PIN verification succeeded for [userId]. *)
Definition recognized_before (tr : list SafePage.Obs) (userId : string) (n : nat) : Prop :=
  exists i faceResponse userName distance,
    i < n /\
    tr !! i = Some (SafePage.ObsRecognize faceResponse) /\
    Response.ok faceResponse = true /\
    Response.body faceResponse = Response.Recognized userId userName distance.

Definition verified_before (tr : list SafePage.Obs) (userId : string) (n : nat) : Prop :=
  exists j pin pinResponse,
    j < n /\
    recognized_before tr userId j /\
    tr !! j = Some (SafePage.ObsVerifyPin userId pin pinResponse) /\
    Response.ok pinResponse = true.

(** What the browser holds is backed by what was observed: the identity in
    [localStorage] was recognized, the user of every pending voice check was
    recognized and then verified, and every open command so far followed the
    three stages. *)
Definition consistent (openUrl : string) (w : SafePage.World) : Prop :=
  (forall userId, SafePage.localStorage w !! "recognizedUserId" = Some userId ->
     recognized_before (SafePage.trace w) userId (length (SafePage.trace w))) /\
  (forall userId, In userId (SafePage.voiceTimers (SafePage.page w)) ->
     verified_before (SafePage.trace w) userId (length (SafePage.trace w))) /\
  unlock_follows_stages openUrl (SafePage.trace w).


(** The operations of the storage that write the face store. *)
Inductive FaceOp : Type :=
| OpSave (userId : string) (descriptor : Float32Array.t) (image : option string) (now : Z)
| OpDelete (userId : string).

Definition apply_op (st : Storage.t) (op : FaceOp) : Storage.t :=
  match op with
  | OpSave userId descriptor image now =>
      Storage.saveFaceData st userId descriptor image now
  | OpDelete userId => snd (Storage.deleteFaceData st userId)
  end.

Definition apply_ops (st : Storage.t) (ops : list FaceOp) : Storage.t :=
  fold_left apply_op ops st.

(** Number of stored templates of a user. *)
Definition count_templates (userId : string) (faces : list FaceData.t) : nat :=
  length (List.filter (fun f => String.eqb (FaceData.userId f) userId) faces).

(** [a] is at least as recent as [b]. *)
Definition not_older (a b : Event.t) : Prop :=
  (Event.timestamp b <= Event.timestamp a)%Z.

End Spec.

(** *** Concrete data used in examples *)

Module Scenario.

(** A stand-in for bcrypt: the hash of a password is the password behind a
    fixed prefix. *)
Definition hashPassword (password : string) : string := "bcrypt:" +:+ password.
Definition verifyPassword (password hash : string) : bool :=
  String.eqb (hashPassword password) hash.

Definition esp32Url : option string := Some "http://esp32.local/servo?angle=".
Definition openUrl : string := "http://esp32.local/servo?angle=90".

(** An enrolled user: face template, PIN 4821 and a phrase. *)
Definition alice : User.t :=
  User.mk "user-1700000000000" "User user-1700000000000"
    "user-1700000000000@safe.local" (hashPassword "") false
    (Some [0.25; 0.5; -0.125]%float) (Some "open sesame")
    (Some (hashPassword "4821")) 1700000000000.

Definition alice_face : FaceData.t :=
  FaceData.mk "user-1700000000000" [0.25; 0.5; -0.125]%float None 1700000000000.

Definition server0 : Storage.t := Storage.mk [alice] [] [alice_face].

(** What the camera computes for Alice and for somebody else. *)
Definition alice_capture : list float := [0.25; 0.5; 0]%float.
Definition stranger_capture : list float := [2; 2; 2]%float.

(** The page just loaded in a browser with empty [localStorage]. *)
Definition fresh : SafePage.World := SafePage.load ∅ server0 [].

(** The same page once the models are loaded and the permissions granted. *)
Definition ready_page : SafePage.t :=
  SafePage.mk SafePage.locked (Some true) (Some true) "" "Models loaded. Ready to scan."
    true false false 0 [].

Definition ready : SafePage.World :=
  SafePage.mkWorld ready_page ∅ server0 [SafePage.ObsPageLoad].

(** Alice starts an unlock and is recognized; the page is then reloaded
    before any PIN is entered. Somebody else starts an unlock, enters
    Alice's PIN and clicks verify while the camera is still scanning, is not
    recognized, and speaks. *)
Definition stale_identity_inputs : list SafePage.Input :=
  [SafePage.ModelsLoaded;
   SafePage.PermissionsChecked true true;
   SafePage.ClickUnlock SafePage.PermGranted;
   SafePage.FaceTimer (SafePage.Detected alice_capture) 1700000100000;
   SafePage.Reload;
   SafePage.ModelsLoaded;
   SafePage.PermissionsChecked true true;
   SafePage.ClickUnlock SafePage.PermGranted;
   SafePage.ChangePin "4821";
   SafePage.ClickVerify 1700000200500;
   SafePage.FaceTimer (SafePage.Detected stranger_capture) 1700000201200;
   SafePage.VoiceTimer true 1700000203500].

(** Query descriptors of binary32 values at distance exactly 0.59, 0.6 and
    0.61 from the all-zero template. *)
Definition zero_face : FaceData.t := FaceData.mk "user-7" [0; 0; 0]%float None 0.
Definition at_0_59 : list float := [0x1.2e147ap-1; 0x1.70ec9ap-13; 0x1.1ddf64p-23]%float.
Definition at_0_60 : list float := [0x1.333332p-1; 0x1.b27242p-13; 0x1.0e61c6p-23]%float.
Definition at_0_61 : list float := [0x1.3851eap-1; 0x1.ed02cep-13; 0x1.4c134ep-23]%float.

(** Sensor traffic: a violent jolt on the Socket.io channel, a shake on the
    accelerometer socket and a spin on the gyroscope socket. *)
Definition jolt : SensorData.t :=
  SensorData.mk (Vec3.mk 0 0 60) (Vec3.mk 0 0 0) 1000.
Definition shake (now : Z) : Dashboard.Message * Z :=
  (Dashboard.AccelerometerValues (Some [6; 0; 9.8]%float), now).
Definition spin (now : Z) : Dashboard.Message * Z :=
  (Dashboard.GyroscopeValues (Some [0; 3; -4]%float), now).

(** An event log written out of time order. *)
Definition old_event : Event.t :=
  Event.mk "1700000000000" "lock" None None 1700000000000 None.
Definition new_event : Event.t :=
  Event.mk "1700000500000" "unlock" (Some "user-1700000000000") None 1700000500000 None.
Definition log2 : Storage.t := Storage.mk [] [old_event; new_event] [].

End Scenario.

(** *** Derived notions used to state further properties *)

Module Derived.

(** The samples [handleSensorData] was called with during a run of the
    dashboard, in order: one per message that passes its producer's test. *)
Fixpoint handled (inputs : list (Dashboard.Message * Z)) : list SensorData.t :=
  match inputs with
  | [] => []
  | (m, now) :: rest =>
      match Dashboard.sample_of m now with
      | Some data => data :: handled rest
      | None => handled rest
      end
  end.

(** The sample is one for which the dashboard reports a theft. *)
Definition is_theft (data : SensorData.t) : bool :=
  JS.gtb (Dashboard.accelMagnitude (SensorData.accelerometer data)) 50.

(** The sample has a gyroscope reading other than (0, 0, 0). *)
Definition is_turning (data : SensorData.t) : bool :=
  let g := SensorData.gyroscope data in
  JS.neqb (Vec3.x g) 0 || JS.neqb (Vec3.y g) 0 || JS.neqb (Vec3.z g) 0.

(** A chart holding the last 20 of a series of labelled points. *)
Definition chart_of (times : list Z) (points : list Vec3.t) : Dashboard.Chart :=
  {| Dashboard.labels := JS.lastn 20 times;
     Dashboard.data0 := JS.lastn 20 (map Vec3.x points);
     Dashboard.data1 := JS.lastn 20 (map Vec3.y points);
     Dashboard.data2 := JS.lastn 20 (map Vec3.z points) |}.

(** The cookie holds a token that verifies to the payload of an
    administrator. *)
Definition admin_token (jwtVerify : string -> option Auth.AuthPayload)
  (token : option string) : bool :=
  match token with
  | Some t =>
      negb (String.eqb t "") &&
      match jwtVerify t with
      | Some payload => Auth.isAdmin payload
      | None => false
      end
  | None => false
  end.

(** The requests the safe page sends to the actuator when a voice check
    succeeds: none when [NEXT_PUBLIC_ESP32_URL] is not set. *)
Definition open_commands (esp32Url : option string) : list SafePage.Obs :=
  match esp32Url with
  | Some url => if String.eqb url "" then [] else [SafePage.ObsActuator (url +:+ "90")]
  | None => []
  end.

(** The storage after one more event was logged with [createEvent], of a
    type the safe page logs. *)
Definition logs_one_event (before after : Storage.t) : Prop :=
  exists type userId userName metadata now,
    In type ["unauthorized_face"; "unlock"; "lock"] /\
    after = snd (Storage.createEvent before type userId userName metadata now).

End Derived.

(** *** More concrete data used in examples *)

Module Fixtures.

(** A stand-in for jsonwebtoken: two tokens verify, one of an administrator
    and one of an ordinary user. *)
Definition jwtVerify (token : string) : option Auth.AuthPayload :=
  if String.eqb token "admin-token"
  then Some (Auth.mkPayload "1699999999999" "admin@safe.local" true)
  else if String.eqb token "user-token"
  then Some (Auth.mkPayload "user-1700000000000" "user-1700000000000@safe.local" false)
  else None.

(** A stand-in for [parseInt] on the query strings used below. *)
Definition parseInt (text : string) : option Z :=
  if String.eqb text "100" then Some 100%Z
  else if String.eqb text "0" then Some 0%Z
  else None.

Definition admin : User.t :=
  User.mk "1699999999999" "Admin" "admin@safe.local" (Scenario.hashPassword "s3cret") true
    None None None 1699999999999.

(** A server with an administrator and an enrolled user. *)
Definition server1 : Storage.t :=
  Storage.mk [admin; Scenario.alice] [Scenario.old_event] [Scenario.alice_face].

End Fixtures.


(** ** Part II: properties *)

(** *** Arrays as queues *)

Section ArrayFacts.
Context {A : Type}.
Implicit Types (l : list A) (v : A).

Lemma length_lastn k l : length (JS.lastn k l) = Nat.min k (length l).
Proof. unfold JS.lastn. rewrite length_drop. lia. Qed.


Lemma tail_drop n l : tail (drop n l) = drop (S n) l.
Proof.
  revert n. induction l as [|a l IH]; intros [|n]; simpl; auto.
Qed.

(** Pushing onto the last [k] elements and evicting the head when the
    queue overflows keeps the last [k] elements. *)
Lemma lastn_push k l v :
  JS.lastn k (JS.push l v) =
  let q := JS.push (JS.lastn k l) v in
  if Nat.ltb k (length q) then JS.shift q else q.
Proof.
  unfold JS.push, JS.shift. cbv zeta.
  rewrite length_app, length_lastn. simpl length.
  unfold JS.lastn. rewrite length_app. simpl length.
  destruct (Nat.ltb_spec k (Nat.min k (length l) + 1)) as [Hlt|Hge].
  - replace (length l + 1 - k) with (S (length l - k)) by lia.
    rewrite <- tail_drop. rewrite drop_app_le by lia. reflexivity.
  - replace (length l + 1 - k) with 0 by lia.
    replace (length l - k) with 0 by lia. reflexivity.
Qed.

End ArrayFacts.

(** *** The smoother *)

Section SmootherFacts.
Import Smoother.

Lemma feed_app b l1 l2 :
  feed b (l1 ++ l2) =
  (fst (feed (fst (feed b l1)) l2), snd (feed b l1) ++ snd (feed (fst (feed b l1)) l2)).
Proof.
  revert b. induction l1 as [|s l1 IH]; intros b.
  - cbn [app feed fst snd]. now destruct (feed b l2).
  - cbn [app feed].
    destruct (smoothAccelerometer b (Vec3.x s) (Vec3.y s) (Vec3.z s)) as [b1 o].
    rewrite IH. destruct (feed b1 l1) as [b2 os]. cbn [fst snd].
    now destruct (feed b2 l2).
Qed.

Lemma length_feed b l : length (snd (feed b l)) = length l.
Proof.
  revert b. induction l as [|s l IH]; intros b; [reflexivity|].
  cbn [feed].
  destruct (smoothAccelerometer b (Vec3.x s) (Vec3.y s) (Vec3.z s)) as [b1 o].
  specialize (IH b1). destruct (feed b1 l). cbn [snd length] in *. now rewrite IH.
Qed.

Lemma smoothAccelerometer_window samples s :
  fst (smoothAccelerometer (window_of samples) (Vec3.x s) (Vec3.y s) (Vec3.z s)) =
  window_of (samples ++ [s]).
Proof.
  unfold smoothAccelerometer, window_of. cbn [fst buf_x buf_y buf_z].
  rewrite !map_app. cbn [map].
  change (map Vec3.x samples ++ [Vec3.x s]) with (JS.push (map Vec3.x samples) (Vec3.x s)).
  change (map Vec3.y samples ++ [Vec3.y s]) with (JS.push (map Vec3.y samples) (Vec3.y s)).
  change (map Vec3.z samples ++ [Vec3.z s]) with (JS.push (map Vec3.z samples) (Vec3.z s)).
  rewrite !lastn_push. cbv zeta.
  assert (Hy : length (JS.push (JS.lastn bufferSize (map Vec3.y samples)) (Vec3.y s)) =
               length (JS.push (JS.lastn bufferSize (map Vec3.x samples)) (Vec3.x s))).
  { unfold JS.push. rewrite !length_app, !length_lastn, !length_map. reflexivity. }
  assert (Hz : length (JS.push (JS.lastn bufferSize (map Vec3.z samples)) (Vec3.z s)) =
               length (JS.push (JS.lastn bufferSize (map Vec3.x samples)) (Vec3.x s))).
  { unfold JS.push. rewrite !length_app, !length_lastn, !length_map. reflexivity. }
  rewrite Hy, Hz.
  now destruct (Nat.ltb _ _).
Qed.

Lemma feed_window samples :
  fst (feed accelBufferRef_init samples) = window_of samples.
Proof.
  induction samples as [|s samples IH] using rev_ind.
  - reflexivity.
  - rewrite feed_app. cbn [fst]. rewrite IH. cbn [feed].
    pose proof (smoothAccelerometer_window samples s) as H.
    destruct (smoothAccelerometer _ _ _ _) as [b o]. exact H.
Qed.

Lemma smoothAccelerometer_output b x y z :
  snd (smoothAccelerometer b x y z) =
  let b' := fst (smoothAccelerometer b x y z) in
  Vec3.mk (JS.mean (buf_x b')) (JS.mean (buf_y b')) (JS.mean (buf_z b') - 5)%float.
Proof. reflexivity. Qed.

End SmootherFacts.

Section SmootherTheorem.
Import Smoother.

Lemma smoothed_snoc pre s :
  smoothed (pre ++ [s]) =
  smoothed pre ++
  [Vec3.mk (JS.mean (buf_x (window_of (pre ++ [s]))))
           (JS.mean (buf_y (window_of (pre ++ [s]))))
           (JS.mean (buf_z (window_of (pre ++ [s]))) - 5)%float].
Proof.
  unfold smoothed. rewrite feed_app. cbn [snd]. f_equal.
  rewrite feed_window. cbn [feed].
  pose proof (smoothAccelerometer_window pre s) as Hw.
  pose proof (smoothAccelerometer_output (window_of pre) (Vec3.x s) (Vec3.y s) (Vec3.z s)) as Ho.
  destruct (smoothAccelerometer (window_of pre) (Vec3.x s) (Vec3.y s) (Vec3.z s)) as [b o].
  cbn [fst snd] in *. subst b o. reflexivity.
Qed.




Example smoothed_example :
  Smoother.smoothed [Vec3.mk 1 2 3; Vec3.mk 2 3 4; Vec3.mk 3 4 5; Vec3.mk 4 5 6;
                     Vec3.mk 5 6 7; Vec3.mk 6 7 8; Vec3.mk 7 8 9] !! 6 =
  Some (Vec3.mk 5 6 2).
Proof. vm_compute. reflexivity. Qed.


End SmootherTheorem.

(** *** The anomaly detector *)

Section DashboardFacts.
Import Dashboard.

Lemma run_app st l1 l2 :
  run st (l1 ++ l2) =
  (fst (run (state_after st l1) l2), snd (run st l1) ++ snd (run (state_after st l1) l2)).
Proof.
  unfold state_after. revert st. induction l1 as [|[m now] l1 IH]; intros st.
  - cbn [app run fst snd]. now destruct (run st l2).
  - cbn [app run]. destruct (receive st m now) as [st1 posts].
    rewrite IH. destruct (run st1 l1) as [st2 more]. cbn [fst snd].
    now destruct (run st2 l2).
Qed.

Lemma length_run st l : length (snd (run st l)) = length l.
Proof.
  revert st. induction l as [|[m now] l IH]; intros st; [reflexivity|].
  cbn [run]. destruct (receive st m now) as [st1 posts].
  specialize (IH st1). destruct (run st1 l). cbn [snd length] in *. now rewrite IH.
Qed.

(** The posts made for the i-th message are those of [receive] in the state
    reached after the first i messages. *)
Lemma run_lookup st inputs i m now :
  inputs !! i = Some (m, now) ->
  snd (run st inputs) !! i = Some (snd (receive (state_after st (take i inputs)) m now)).
Proof.
  intros Hi.
  assert (Hlt : i < length inputs) by (eapply lookup_lt_Some; eauto).
  rewrite <- (take_drop i inputs) at 1.
  rewrite (drop_S _ _ _ Hi), run_app. cbn [snd].
  rewrite lookup_app_r by (rewrite length_run, length_take; lia).
  rewrite length_run, length_take.
  replace (i - i `min` length inputs) with 0 by lia.
  cbn [run]. destruct (receive _ m now) as [st1 posts].
  destruct (run st1 _). reflexivity.
Qed.

Lemma state_after_snoc st l m now :
  state_after st (l ++ [(m, now)]) = fst (receive (state_after st l) m now).
Proof.
  unfold state_after. rewrite run_app. cbn [fst run]. unfold state_after.
  now destruct (receive _ m now).
Qed.

(** The posts of one call and the cooldown reference after it. *)
Lemma handleSensorData_posts st data now :
  snd (handleSensorData st data now) =
  (if JS.gtb (accelMagnitude (SensorData.accelerometer data)) 50
   then [theft_body (accelMagnitude (SensorData.accelerometer data))] else []) ++
  (if any_exceeded (exceeded data) &&
      (MOVEMENT_EVENT_COOLDOWN <? now - lastMovementEventRef st)%Z
   then [movement_body data] else []).
Proof.
  unfold handleSensorData. now destruct (Smoother.smoothAccelerometer _ _ _ _).
Qed.

Lemma handleSensorData_ref st data now :
  lastMovementEventRef (fst (handleSensorData st data now)) =
  if any_exceeded (exceeded data) &&
     (MOVEMENT_EVENT_COOLDOWN <? now - lastMovementEventRef st)%Z
  then now else lastMovementEventRef st.
Proof.
  unfold handleSensorData. now destruct (Smoother.smoothAccelerometer _ _ _ _).
Qed.

Lemma count_movement_posts st data now :
  Spec.count_type "movement_detected" (snd (handleSensorData st data now)) =
  if any_exceeded (exceeded data) &&
     (MOVEMENT_EVENT_COOLDOWN <? now - lastMovementEventRef st)%Z
  then 1 else 0.
Proof.
  rewrite handleSensorData_posts. unfold Spec.count_type.
  rewrite List.filter_app, length_app.
  destruct (JS.gtb _ _), (any_exceeded _ && _); reflexivity.
Qed.

(** A movement event is posted only when the clock is more than the
    cooldown past the reference, and then the reference becomes the clock. *)
Lemma receive_movement st m now :
  Spec.count_type "movement_detected" (snd (receive st m now)) <= 1 /\
  (lastMovementEventRef st <= lastMovementEventRef (fst (receive st m now)))%Z /\
  (Spec.count_type "movement_detected" (snd (receive st m now)) = 1 ->
   (lastMovementEventRef st + MOVEMENT_EVENT_COOLDOWN < now)%Z /\
   lastMovementEventRef (fst (receive st m now)) = now).
Proof.
  unfold receive. destruct (sample_of m now) as [data|].
  - rewrite count_movement_posts, handleSensorData_ref.
    destruct (any_exceeded (exceeded data)); cbn [andb].
    + destruct (Z.ltb_spec MOVEMENT_EVENT_COOLDOWN (now - lastMovementEventRef st));
        unfold MOVEMENT_EVENT_COOLDOWN in *; repeat split; try lia; discriminate.
    + repeat split; try lia; discriminate.
  - cbn. repeat split; try lia; discriminate.
Qed.

(** The cooldown reference never decreases along a run. *)
Lemma ref_monotone st l :
  (lastMovementEventRef st <= lastMovementEventRef (state_after st l))%Z.
Proof.
  induction l as [|[m now] l IH] using rev_ind; [unfold state_after; simpl; lia|].
  rewrite state_after_snoc.
  pose proof (receive_movement (state_after st l) m now) as (_ & H & _). lia.
Qed.

Lemma state_after_app st l1 l2 :
  state_after st (l1 ++ l2) = state_after (state_after st l1) l2.
Proof. unfold state_after. now rewrite run_app. Qed.

Lemma movement_metadata_complete data :
  Spec.lists_every_exceeded_axis data (movement_metadata data).
Proof.
  unfold Spec.lists_every_exceeded_axis, movement_metadata. cbv zeta.
  repeat split; intros ->; rewrite !in_app_iff; simpl; tauto.
Qed.

End DashboardFacts.

Section DetectorTheorems.
Import Dashboard.

(** C3. Whatever the dashboard state (cooldown reference, earlier thefts)
    and whatever was handled before, a sample whose raw magnitude exceeds 50
    makes the dashboard post a [theft_detected] event while that very sample
    is handled, the event route stores it, and the hub emits a
    [theft-alert] for it. *)
Theorem theft_emitted_on_every_qualifying_sample
  (st : Dashboard.t) (inputs : list (Message * Z)) (i : nat)
  (m : Message) (now : Z) (data : SensorData.t) :
  inputs !! i = Some (m, now) ->
  sample_of m now = Some data ->
  JS.gtb (accelMagnitude (SensorData.accelerometer data)) 50 = true ->
  let magnitude := accelMagnitude (SensorData.accelerometer data) in
  (exists posts,
      snd (run st inputs) !! i = Some posts /\ In (theft_body magnitude) posts) /\
  (forall (server : Storage.t) (t : Z),
      exists e, In e (Storage.events (snd (Routes.events_POST server (theft_body magnitude) t))) /\
                Event.type e = "theft_detected" /\
                Event.metadata e = Some [("magnitude", JNum magnitude)]) /\
  (forall (store : list SensorData.t) (t : Z),
      In (Hub.EmitTheftAlert magnitude t) (snd (Hub.on_sensor_data store data t))).
Proof.
  intros Hi Hs Hm magnitude. subst magnitude. repeat split.
  - eexists. split; [apply (run_lookup _ _ _ _ _ Hi)|].
    unfold receive. rewrite Hs, handleSensorData_posts, Hm. apply in_app_iff. left. now left.
  - intros server t. unfold Routes.events_POST. cbn.
    eexists. split; [apply in_app_iff; right; now left|]. split; reflexivity.
  - intros store t. unfold Hub.on_sensor_data. cbn [snd].
    unfold accelMagnitude in *. rewrite Hm.
    apply in_app_iff. right. now left.
Qed.

Lemma theft_emitted_on_every_qualifying_sample_witness :
  (exists posts,
      snd (run Dashboard.init [(SocketSensorData Scenario.jolt, 7000%Z);
                               (SocketSensorData Scenario.jolt, 7001%Z)]) !! 1 = Some posts /\
      In (theft_body 60) posts) /\
  (forall (server : Storage.t) (t : Z),
      exists e, In e (Storage.events (snd (Routes.events_POST server (theft_body 60) t))) /\
                Event.type e = "theft_detected" /\
                Event.metadata e = Some [("magnitude", JNum 60)]) /\
  (forall (store : list SensorData.t) (t : Z),
      In (Hub.EmitTheftAlert 60 t) (snd (Hub.on_sensor_data store Scenario.jolt t))).
Proof.
  apply (theft_emitted_on_every_qualifying_sample Dashboard.init
           [(SocketSensorData Scenario.jolt, 7000%Z); (SocketSensorData Scenario.jolt, 7001%Z)]
           1 (SocketSensorData Scenario.jolt) 7001%Z Scenario.jolt);
    reflexivity.
Defined.

Lemma receive_movement_complete st m now :
  Spec.movement_posts_complete m now (snd (receive st m now)).
Proof.
  intros body Hb Hty. unfold receive in Hb.
  destruct (sample_of m now) as [data|]; [|destruct Hb].
  rewrite handleSensorData_posts in Hb.
  exists data, (movement_metadata data). split; [reflexivity|].
  split; [|apply movement_metadata_complete].
  apply in_app_iff in Hb. destruct Hb as [Hb|Hb].
  - destruct (JS.gtb _ _); [|destruct Hb].
    destruct Hb as [<-|[]]. discriminate Hty.
  - destruct (_ && _); [|destruct Hb].
    destruct Hb as [<-|[]]. reflexivity.
Qed.

(** C4. Of two messages handled less than 5000 ms apart, whatever their
    producers and whichever axes they exceed, at most one makes the
    dashboard post a [movement_detected] event: all producers and axes share
    the one cooldown reference. A posted movement event carries in its
    metadata every axis of its sample that exceeded its threshold. *)
Theorem movement_cooldown_is_shared
  (st : Dashboard.t) (inputs : list (Message * Z)) (i j : nat)
  (mi mj : Message) (ti tj : Z) :
  i < j ->
  inputs !! i = Some (mi, ti) ->
  inputs !! j = Some (mj, tj) ->
  (tj - ti < 5000)%Z ->
  exists pi pj,
    snd (run st inputs) !! i = Some pi /\
    snd (run st inputs) !! j = Some pj /\
    Spec.count_type "movement_detected" pi + Spec.count_type "movement_detected" pj <= 1 /\
    Spec.movement_posts_complete mi ti pi /\
    Spec.movement_posts_complete mj tj pj.
Proof.
  intros Hij Hi Hj Hclose.
  pose proof (run_lookup st _ _ _ _ Hi) as Hpi.
  pose proof (run_lookup st _ _ _ _ Hj) as Hpj.
  eexists _, _. split; [exact Hpi|]. split; [exact Hpj|].
  set (si := state_after st (take i inputs)) in *.
  set (sj := state_after st (take j inputs)) in *.
  split; [|split; apply receive_movement_complete].
  (* the state before j is reached from the state after i *)
  assert (Hsplit : take j inputs = take i inputs ++ (mi, ti) :: drop (S i) (take j inputs)).
  { rewrite <- (take_drop i (take j inputs)) at 1.
    rewrite take_take, Nat.min_l by lia. f_equal.
    apply drop_S. rewrite lookup_take_lt by lia. exact Hi. }
  assert (Hsj : sj = state_after (fst (receive si mi ti)) (drop (S i) (take j inputs))).
  { unfold sj. rewrite Hsplit at 1.
    change (take i inputs ++ (mi, ti) :: drop (S i) (take j inputs))
      with (take i inputs ++ [(mi, ti)] ++ drop (S i) (take j inputs)).
    rewrite app_assoc, state_after_app, state_after_snoc. reflexivity. }
  pose proof (receive_movement si mi ti) as (Hci & _ & Hfi).
  pose proof (receive_movement sj mj tj) as (Hcj & _ & Hfj).
  pose proof (ref_monotone (fst (receive si mi ti)) (drop (S i) (take j inputs))) as Hmono.
  rewrite <- Hsj in Hmono.
  destruct (Nat.eq_dec (Spec.count_type "movement_detected" (snd (receive si mi ti))) 1)
    as [E1|N1]; [|lia].
  destruct (Nat.eq_dec (Spec.count_type "movement_detected" (snd (receive sj mj tj))) 1)
    as [E2|N2]; [|lia].
  exfalso. destruct (Hfi E1) as [_ Hri]. destruct (Hfj E2) as [Hlt _].
  unfold MOVEMENT_EVENT_COOLDOWN in *. lia.
Qed.

(** A shake, a spin one second later, and a shake and a spin around the end
    of the five seconds: only the first and the last are reported. *)
Example movement_run :
  snd (run Dashboard.init
         [Scenario.shake 100000; Scenario.spin 101000;
          Scenario.shake 104999; Scenario.spin 105001]) =
  [[movement_body (SensorData.mk (Vec3.mk 6 0 9.8) zero3 100000)]; []; [];
   [movement_body (SensorData.mk zero3 (Vec3.mk 0 3 (-4)) 105001)]].
Proof. vm_compute. reflexivity. Qed.

Lemma movement_cooldown_is_shared_witness :
  exists pi pj,
    snd (run Dashboard.init
           [Scenario.shake 100000; Scenario.spin 101000; Scenario.shake 104999]) !! 0 = Some pi /\
    snd (run Dashboard.init
           [Scenario.shake 100000; Scenario.spin 101000; Scenario.shake 104999]) !! 1 = Some pj /\
    Spec.count_type "movement_detected" pi + Spec.count_type "movement_detected" pj <= 1 /\
    Spec.movement_posts_complete (fst (Scenario.shake 100000)) 100000 pi /\
    Spec.movement_posts_complete (fst (Scenario.spin 101000)) 101000 pj.
Proof.
  apply (movement_cooldown_is_shared Dashboard.init
           [Scenario.shake 100000; Scenario.spin 101000; Scenario.shake 104999] 0 1
           (fst (Scenario.shake 100000)) (fst (Scenario.spin 101000)) 100000 101000);
    [lia | reflexivity | reflexivity | lia].
Defined.

End DetectorTheorems.

(** *** Order of JavaScript numbers *)

Section FloatOrder.

Local Ltac cmp_cases :=
  repeat match goal with
  | |- context [Z.compare ?a ?b] => destruct (Z.compare_spec a b)
  | |- context [Pos.compare_cont Eq ?a ?b] =>
      change (Pos.compare_cont Eq a b) with (Pos.compare a b);
      destruct (Pos.compare_spec a b)
  end.

Lemma SFltb_irrefl a : SFltb a a = false.
Proof.
  unfold SFltb, SFcompare. destruct a as [[]|[]| |[] m e]; try reflexivity.
  - rewrite Z.compare_refl.
    change (Pos.compare_cont Eq m m) with (Pos.compare m m).
    now rewrite Pos.compare_refl.
  - rewrite Z.compare_refl.
    change (Pos.compare_cont Eq m m) with (Pos.compare m m).
    now rewrite Pos.compare_refl.
Qed.

Lemma SFltb_trans a b c :
  SFltb a b = true -> SFltb b c = true -> SFltb a c = true.
Proof.
  unfold SFltb, SFcompare.
  destruct a as [[]|[]| |[] m1 e1], b as [[]|[]| |[] m2 e2],
           c as [[]|[]| |[] m3 e3];
    try discriminate; try reflexivity;
    cmp_cases; simpl; try discriminate; try reflexivity; intros; lia.
Qed.

(** Two numbers that are both below some number are comparable. *)
Lemma SFltb_not_nan a t : SFltb a t = true -> a <> S754_nan.
Proof. intros H ->. discriminate H. Qed.

Lemma SFltb_below a b c :
  SFltb a b = true -> SFltb c b = false -> c <> S754_nan -> SFltb a c = true.
Proof.
  unfold SFltb, SFcompare.
  destruct a as [[]|[]| |[] m1 e1], b as [[]|[]| |[] m2 e2],
           c as [[]|[]| |[] m3 e3];
    try discriminate; try reflexivity; try congruence;
    cmp_cases; simpl; try discriminate; try reflexivity; try congruence; intros; lia.
Qed.

Lemma ltb_irrefl (a : float) : PrimFloat.ltb a a = false.
Proof. rewrite ltb_spec. apply SFltb_irrefl. Qed.

Lemma ltb_trans (a b c : float) :
  PrimFloat.ltb a b = true -> PrimFloat.ltb b c = true -> PrimFloat.ltb a c = true.
Proof. rewrite !ltb_spec. apply SFltb_trans. Qed.

Lemma ltb_below (a b c t : float) :
  PrimFloat.ltb a b = true -> PrimFloat.ltb c b = false ->
  PrimFloat.ltb c t = true -> PrimFloat.ltb a c = true.
Proof.
  rewrite !ltb_spec. intros Hab Hcb Hct.
  eapply SFltb_below; eauto using SFltb_not_nan.
Qed.

End FloatOrder.

(** *** The face matcher *)

Section FaceMatcherFacts.
Import FaceMatcher.

Variable dist : FaceData.t -> float.

Local Abbreviation scan faces :=
  (fold_left (fun bestMatch face => consider bestMatch (FaceData.userId face) (dist face))
     faces None).

Lemma scan_snoc faces face :
  scan (faces ++ [face]) = consider (scan faces) (FaceData.userId face) (dist face).
Proof. now rewrite fold_left_app. Qed.

(** The matching loop returns the nearest template below the threshold,
    the first one on ties. *)
Lemma matching_loop_nearest faces : Spec.nearest_below_threshold faces dist (scan faces).
Proof.
  induction faces as [|f faces IH] using rev_ind.
  - cbn. intros face [].
  - rewrite scan_snoc. unfold Spec.nearest_below_threshold in IH |- *.
    destruct (scan faces) as [b|]; unfold consider;
      destruct (PrimFloat.ltb (dist f) threshold) eqn:Hf.
    + destruct IH as (i & face & Hi & -> & Hlt & Hmin & Hfirst). cbn [distance].
      destruct (PrimFloat.ltb (dist f) (dist face)) eqn:Hcmp.
      * (* the new template is strictly nearer *)
        exists (length faces), f. repeat split; auto.
        -- rewrite lookup_app_r by lia. now rewrite Nat.sub_diag.
        -- intros other Hin Hother. apply in_app_iff in Hin.
           destruct Hin as [Hin|[<-|[]]]; [|apply ltb_irrefl].
           destruct (PrimFloat.ltb (dist other) (dist f)) eqn:E; [|reflexivity].
           rewrite <- (Hmin other Hin Hother). symmetry. eapply ltb_trans; eauto.
        -- intros j other Hj Hlook Hother.
           rewrite lookup_app_l in Hlook by lia.
           eapply ltb_below; eauto.
           apply Hmin; [|assumption].
           eapply list_elem_of_In, list_elem_of_lookup_2; eauto.
      * (* the best match so far stays *)
        exists i, face. repeat split; auto.
        -- rewrite lookup_app_l; [assumption|]. eapply lookup_lt_Some; eauto.
        -- intros other Hin Hother. apply in_app_iff in Hin.
           destruct Hin as [Hin|[<-|[]]]; auto.
        -- intros j other Hj Hlook Hother. apply (Hfirst j); auto.
           rewrite lookup_app_l in Hlook; [assumption|].
           apply lookup_lt_Some in Hi. lia.
    + (* not below the threshold: the best match so far stays *)
      destruct IH as (i & face & Hi & -> & Hlt & Hmin & Hfirst).
      exists i, face. repeat split; auto.
      * rewrite lookup_app_l; [assumption|]. eapply lookup_lt_Some; eauto.
      * intros other Hin Hother. apply in_app_iff in Hin.
        destruct Hin as [Hin|[<-|[]]]; auto. congruence.
      * intros j other Hj Hlook Hother. apply (Hfirst j); auto.
        rewrite lookup_app_l in Hlook; [assumption|].
        apply lookup_lt_Some in Hi. lia.
    + (* the first template below the threshold *)
      exists (length faces), f. repeat split; auto.
      * rewrite lookup_app_r by lia. now rewrite Nat.sub_diag.
      * intros other Hin Hother. apply in_app_iff in Hin.
        destruct Hin as [Hin|[<-|[]]]; [|apply ltb_irrefl].
        rewrite (IH other Hin) in Hother. discriminate.
      * intros j other Hj Hlook Hother.
        rewrite lookup_app_l in Hlook by lia.
        rewrite IH in Hother; [discriminate|].
        eapply list_elem_of_In, list_elem_of_lookup_2; eauto.
    + intros face Hin. apply in_app_iff in Hin.
      destruct Hin as [Hin|[<-|[]]]; auto.
Qed.

End FaceMatcherFacts.

Section FaceMatcherTheorem.
Import FaceMatcher.


(** Queries of binary32 values at distance exactly 0.59, 0.6 and 0.61 from
    a lone template: the first matches, the other two do not. *)
Example lone_template_distances :
  map (fun q => Spec.distance_to (NumberArray q) Scenario.zero_face)
      [Scenario.at_0_59; Scenario.at_0_60; Scenario.at_0_61] =
  [0.59; 0.6; 0.61]%float /\
  map (fun q => recognizeFaceFromDescriptor (Storage.mk [] [] [Scenario.zero_face])
                  (NumberArray q))
      [Scenario.at_0_59; Scenario.at_0_60; Scenario.at_0_61] =
  [Some (mkMatch "user-7" 0.59); None; None].
Proof. split; vm_compute; reflexivity. Qed.

(** Two templates at the same distance: the first in store order wins. *)
Example tie_goes_to_first :
  recognizeFaceFromDescriptor
    (Storage.mk [] []
       [FaceData.mk "far" [1; 0]%float None 0;
        FaceData.mk "first" [0.25; 0]%float None 0;
        FaceData.mk "second" [-0.25; 0]%float None 0])
    (NumberArray [0; 0]%float) =
  Some (mkMatch "first" 0.25).
Proof. vm_compute. reflexivity. Qed.

End FaceMatcherTheorem.

(** *** The unlock flow *)

Section SafePageFacts.
Import SafePage.

Variable verifyPassword : string -> string -> bool.
Variable esp32Url : option string.

Local Abbreviation step := (SafePage.step verifyPassword esp32Url).
Local Abbreviation run := (SafePage.run verifyPassword esp32Url).

Lemma run_snoc w inputs i : run w (inputs ++ [i]) = step (run w inputs) i.
Proof. unfold SafePage.run. now rewrite fold_left_app. Qed.








End SafePageFacts.

Section RouteTheorems.

Variable verifyPassword : string -> string -> bool.

(** C8. A recognition request without a descriptor and a PIN verification
    request without a user id or without a PIN are answered 400 with a
    validation error, and the storage (users, events, face data) after the
    request is the storage before it: nothing is mutated and no event is
    logged. *)
Theorem missing_fields_are_rejected (st : Storage.t) (now : Z) :
  Routes.recognize_POST st None now =
    (Response.mk 400 (Response.Error "descriptor is required"), st) /\
  (forall userId pin : option string,
      userId = None \/ pin = None ->
      Routes.verify_pin_POST verifyPassword st userId pin now =
        (Response.mk 400 (Response.Error "UserId and PIN are required"), st)) /\
  (forall userId pin : option string,
      userId = None \/ pin = None ->
      Storage.events (snd (Routes.verify_pin_POST verifyPassword st userId pin now)) =
        Storage.events st /\
      Response.ok (fst (Routes.verify_pin_POST verifyPassword st userId pin now)) = false).
Proof.
  assert (H400 : forall userId pin : option string,
             userId = None \/ pin = None ->
             Routes.verify_pin_POST verifyPassword st userId pin now =
               (Response.mk 400 (Response.Error "UserId and PIN are required"), st)).
  { intros userId pin Hmissing. unfold Routes.verify_pin_POST.
    assert (Hfalsy : negb (JS.truthy userId) || negb (JS.truthy pin) = true).
    { destruct Hmissing as [-> | ->]; cbn [JS.truthy negb orb]; [reflexivity|].
      apply orb_true_r. }
    now rewrite Hfalsy. }
  split; [reflexivity|]. split; [exact H400|].
  intros userId pin Hmissing. rewrite (H400 userId pin Hmissing). split; reflexivity.
Qed.

(** The route itself checks that the PIN is present, not how long it is: a
    three-digit PIN is compared with the stored hash. The length rule is
    that of the page (C7). *)
Example verify_pin_route_checks_presence_only :
  let short_pin_user :=
    User.mk "user-9" "User user-9" "user-9@safe.local" (Scenario.hashPassword "") false
      None None (Some (Scenario.hashPassword "123")) 0 in
  let st := Storage.mk [short_pin_user] [] [] in
  Routes.verify_pin_POST Scenario.verifyPassword st (Some "user-9") (Some "123") 1000 =
    (Response.mk 200 Response.Success, st) /\
  Routes.verify_pin_POST Scenario.verifyPassword st (Some "user-9") (Some "") 1000 =
    (Response.mk 400 (Response.Error "UserId and PIN are required"), st).
Proof. split; vm_compute; reflexivity. Qed.

End RouteTheorems.

Section UnlockTheorems.
Import SafePage.

Variable verifyPassword : string -> string -> bool.
Variable esp32Url : option string.


End UnlockTheorems.

Section WrongPin.
Import SafePage.

Variable verifyPassword : string -> string -> bool.
Variable esp32Url : option string.

Local Arguments FaceMatcher.recognizeFaceFromDescriptor : simpl never.
Local Arguments Storage.getUserById : simpl never.
Local Arguments JS.digits_only : simpl never.
Local Arguments JS.sort : simpl never.
Local Arguments String.length : simpl never.
Local Arguments String.eqb : simpl never.
Local Arguments Nat.ltb : simpl never.
Local Arguments pretty : simpl never.

(** C6. An unlock attempt started on a locked page, in which the captured
    face matches a user whose stored PIN hash rejects the PIN submitted,
    ends locked with the recognized identity removed, logs exactly one event
    (the sorted log with an [unauthorized_face] event of reason "Invalid
    PIN" appended), arms no voice check and sends no actuator request. *)
Theorem wrong_pin_locks_and_logs_once
  (w : World) (r : PermissionResult) (descriptor : list float) (value : string)
  (t1 t2 : Z) (m : FaceMatcher.Match) (user : User.t) (hash : string) :
  safeState (page w) = locked ->
  modelsLoaded (page w) = true ->
  cameraPermission (page w) = Some true ->
  micPermission (page w) = Some true ->
  FaceMatcher.recognizeFaceFromDescriptor (server w) (FaceMatcher.NumberArray descriptor) = Some m ->
  FaceMatcher.userId m <> "" ->
  Storage.getUserById (server w) (FaceMatcher.userId m) = Some user ->
  User.pinHash user = Some hash ->
  hash <> "" ->
  4 <= String.length (JS.digits_only value) ->
  verifyPassword (JS.digits_only value) hash = false ->
  let w' := run verifyPassword esp32Url w
              [ClickUnlock r; FaceTimer (Detected descriptor) t1;
               ChangePin value; ClickVerify t2] in
  safeState (page w') = locked /\
  localStorage w' !! "recognizedUserId" = None /\
  Storage.events (server w') =
    JS.sort Storage.newest_first (Storage.events (server w)) ++
    [Event.mk (pretty t2) "unauthorized_face" (Some (FaceMatcher.userId m))
       (Some (User.name user)) t2 (Some [("reason", JStr "Invalid PIN")])] /\
  voiceTimers (page w') = voiceTimers (page w) /\
  trace w' =
    trace w ++
    [ObsUnlockStarted;
     ObsRecognize (Response.mk 200
        (Response.Recognized (FaceMatcher.userId m) (Some (User.name user))
           (FaceMatcher.distance m)));
     ObsVerifyPin (FaceMatcher.userId m) (JS.digits_only value)
       (Response.mk 401 (Response.Error "Invalid PIN"))].
Proof.
  intros Hlocked Hmodels Hcam Hmic Hmatch Hid Huser Hpin Hhash Hlen Hwrong.
  destruct w as [p ls st tr]. destruct p as [ss cam mic pn msg ml vid rec ft vt].
  cbn in Hlocked, Hmodels, Hcam, Hmic, Hmatch, Huser. subst ss ml cam mic.
  assert (Hnonempty : String.eqb (JS.digits_only value) "" = false).
  { destruct (JS.digits_only value); [cbv in Hlen; lia | reflexivity]. }
  assert (Hlong : Nat.ltb (String.length (JS.digits_only value)) 4 = false)
    by now apply Nat.ltb_ge.
  assert (Hidb : String.eqb (FaceMatcher.userId m) "" = false) by now apply String.eqb_neq.
  assert (Hhashb : String.eqb hash "" = false) by now apply String.eqb_neq.
  set (uid := FaceMatcher.userId m) in *.
  set (recognized := Response.mk 200
         (Response.Recognized uid (Some (User.name user)) (FaceMatcher.distance m))).
  set (w1 := mkWorld
         (mk unlocking (Some true) (Some true) pn "Scanning face..." true true rec (S ft) vt)
         ls st (tr ++ [ObsUnlockStarted])).
  set (w2 := mkWorld
         (mk unlocking (Some true) (Some true) ""
            "Face recognized. Please enter your PIN below." true true rec ft vt)
         (<["recognizedUserId" := uid]> ls) st
         ((tr ++ [ObsUnlockStarted]) ++ [ObsRecognize recognized])).
  set (w3 := withPage w2 (setPin (page w2) (JS.digits_only value))).
  (* the unlock click arms the face timer *)
  assert (H1 : step verifyPassword esp32Url
                 (mkWorld (mk locked (Some true) (Some true) pn msg true vid rec ft vt) ls st tr)
                 (ClickUnlock r) = w1) by reflexivity.
  (* the face is recognized and the identity is stored *)
  assert (H2 : step verifyPassword esp32Url w1 (FaceTimer (Detected descriptor) t1) = w2).
  { unfold step, w1. cbn [page faceTimers]. unfold faceTimer, Routes.recognize_POST.
    cbn [server withPage]. rewrite Hmatch. cbv zeta. fold uid. rewrite Huser. reflexivity. }
  assert (H3 : step verifyPassword esp32Url w2 (ChangePin value) = w3) by reflexivity.
  (* the PIN is refused: the server logs, the page locks *)
  assert (Hpost : Routes.verify_pin_POST verifyPassword st (Some uid)
                    (Some (JS.digits_only value)) t2 =
                  (Response.mk 401 (Response.Error "Invalid PIN"),
                   snd (Storage.createEvent st "unauthorized_face" (Some uid)
                          (Some (User.name user))
                          (Some [("reason", JStr "Invalid PIN")]) t2))).
  { unfold Routes.verify_pin_POST. cbn [JS.truthy from_option id].
    rewrite Hidb, Hnonempty. cbn [negb orb]. cbv zeta. cbn [from_option id].
    rewrite Huser, Hpin.
    cbn [JS.truthy from_option id]. rewrite Hhashb. cbn [negb]. rewrite Hwrong. reflexivity. }
  assert (H4 : step verifyPassword esp32Url w3 (ClickVerify t2) =
               sessionFailed
                 (observe
                    (withServer w3
                       (snd (Storage.createEvent st "unauthorized_face" (Some uid)
                               (Some (User.name user))
                               (Some [("reason", JStr "Invalid PIN")]) t2)))
                    (ObsVerifyPin uid (JS.digits_only value)
                       (Response.mk 401 (Response.Error "Invalid PIN"))))
                 "Invalid PIN. Invalid PIN").
  { unfold step, w3, w2. cbn [page withPage setPin pin safeState is_unlocking].
    rewrite Hnonempty, Hlong. cbn [orb negb andb].
    unfold verify_onClick. cbn [page withPage setPin pin localStorage server].
    rewrite Hnonempty, Hlong. cbn [orb].
    rewrite lookup_insert_eq. cbn [JS.truthy from_option id]. rewrite Hidb. cbn [negb].
    rewrite Hpost. reflexivity. }
  unfold run. cbn [fold_left]. rewrite H1, H2, H3, H4.
  repeat split.
  - apply lookup_delete_eq.
  - cbn. unfold JS.push. now rewrite <- !app_assoc.
Qed.

End WrongPin.

Section UnlockExamples.
Import SafePage.

Example ready_is_reached :
  run Scenario.verifyPassword Scenario.esp32Url Scenario.fresh
    [ModelsLoaded; PermissionsChecked true true] = Scenario.ready.
Proof. reflexivity. Qed.


Lemma wrong_pin_locks_and_logs_once_witness :
  let w' := run Scenario.verifyPassword Scenario.esp32Url Scenario.ready
              [ClickUnlock PermGranted;
               FaceTimer (Detected Scenario.alice_capture) 1700000100000;
               ChangePin "0000"; ClickVerify 1700000105000] in
  safeState (page w') = locked /\
  localStorage w' !! "recognizedUserId" = None /\
  Storage.events (server w') =
    JS.sort Storage.newest_first (Storage.events (server Scenario.ready)) ++
    [Event.mk (pretty 1700000105000%Z) "unauthorized_face" (Some "user-1700000000000")
       (Some "User user-1700000000000") 1700000105000
       (Some [("reason", JStr "Invalid PIN")])] /\
  voiceTimers (page w') = voiceTimers (page Scenario.ready) /\
  trace w' =
    trace Scenario.ready ++
    [ObsUnlockStarted;
     ObsRecognize (Response.mk 200
        (Response.Recognized "user-1700000000000" (Some "User user-1700000000000") 0.125));
     ObsVerifyPin "user-1700000000000" (JS.digits_only "0000")
       (Response.mk 401 (Response.Error "Invalid PIN"))].
Proof.
  apply (wrong_pin_locks_and_logs_once Scenario.verifyPassword Scenario.esp32Url
           Scenario.ready PermGranted Scenario.alice_capture "0000"
           1700000100000 1700000105000
           (FaceMatcher.mkMatch "user-1700000000000" 0.125) Scenario.alice
           (Scenario.hashPassword "4821"));
    first [reflexivity | discriminate | vm_compute; lia].
Defined.

(** The ordinary flow: face, PIN, voice. *)
Example unlock_happy_path :
  let w := run Scenario.verifyPassword Scenario.esp32Url Scenario.ready
             [ClickUnlock PermGranted;
              FaceTimer (Detected Scenario.alice_capture) 1700000100000;
              ChangePin "4821"; ClickVerify 1700000105000;
              VoiceTimer true 1700000108000] in
  safeState (page w) = unlocked /\
  drop 1 (trace w) =
    [ObsUnlockStarted;
     ObsRecognize (Response.mk 200
        (Response.Recognized "user-1700000000000" (Some "User user-1700000000000") 0.125));
     ObsVerifyPin "user-1700000000000" "4821" (Response.mk 200 Response.Success);
     ObsVoice true;
     ObsEventPost (unlock_body "user-1700000000000");
     ObsActuator Scenario.openUrl].
Proof. vm_compute. split; reflexivity. Qed.

End UnlockExamples.

(** *** What the unlock flow does guarantee *)

Section UnlockOrder.
Import SafePage.

Variable verifyPassword : string -> string -> bool.
Variable url : string.

Local Abbreviation openUrl := (url +:+ "90").
Local Abbreviation step := (SafePage.step verifyPassword (Some url)).
Local Abbreviation run := (SafePage.run verifyPassword (Some url)).

Lemma append_inj_l (a b c : string) : a +:+ b = a +:+ c -> b = c.
Proof. induction a as [|ch a IH]; cbn; [auto|]. intros H. inversion H. auto. Qed.

Lemma lock_is_not_open : ObsActuator (url +:+ "-90") <> ObsActuator openUrl.
Proof. intros H. inversion H as [E]. apply append_inj_l in E. discriminate E. Qed.

(** Observations are only ever appended, so what held of a trace holds of
    its extensions. *)
Lemma recognized_before_mono tr added userId n m :
  n <= m -> Spec.recognized_before tr userId n ->
  Spec.recognized_before (tr ++ added) userId m.
Proof.
  intros Hnm (i & r & name & d & Hi & Hlook & Hok & Hbody).
  exists i, r, name, d. repeat split; auto; [lia|].
  apply lookup_app_l_Some. exact Hlook.
Qed.

Lemma verified_before_mono tr added userId n m :
  n <= m -> Spec.verified_before tr userId n ->
  Spec.verified_before (tr ++ added) userId m.
Proof.
  intros Hnm (j & pin & r & Hj & Hrec & Hlook & Hok).
  exists j, pin, r. repeat split; auto; [lia| |].
  - eapply recognized_before_mono; eauto.
  - apply lookup_app_l_Some. exact Hlook.
Qed.

Lemma staged_unlock_mono tr added i j l k :
  Spec.staged_unlock tr i j l k -> Spec.staged_unlock (tr ++ added) i j l k.
Proof.
  intros (fr & u & n & d & p & pr & Hij & Hjl & Hlk & Hi & Hok & Hbody & Hj & Hpok & Hl).
  exists fr, u, n, d, p, pr. repeat split; auto; now apply lookup_app_l_Some.
Qed.

Lemma follows_stages_app tr added :
  Spec.unlock_follows_stages openUrl tr ->
  ~ In (ObsActuator openUrl) added ->
  Spec.unlock_follows_stages openUrl (tr ++ added).
Proof.
  intros Hold Hnone k Hk.
  destruct (Nat.lt_ge_cases k (length tr)) as [Hlt|Hge].
  - rewrite lookup_app_l in Hk by exact Hlt.
    destruct (Hold k Hk) as (i & j & l & Hst). exists i, j, l.
    now apply staged_unlock_mono.
  - rewrite lookup_app_r in Hk by exact Hge. exfalso. apply Hnone.
    eapply list_elem_of_In, list_elem_of_lookup_2; eauto.
Qed.

(** The three facts carried along a run, for a world described by its
    observations, its stored identity and its pending voice checks. *)
Lemma consistent_extend w w' added :
  Spec.consistent openUrl w ->
  trace w' = trace w ++ added ->
  ~ In (ObsActuator openUrl) added ->
  (forall userId, localStorage w' !! "recognizedUserId" = Some userId ->
     localStorage w !! "recognizedUserId" = Some userId \/
     Spec.recognized_before (trace w') userId (length (trace w'))) ->
  (forall userId, In userId (voiceTimers (page w')) ->
     In userId (voiceTimers (page w)) \/
     Spec.verified_before (trace w') userId (length (trace w'))) ->
  Spec.consistent openUrl w'.
Proof.
  intros (Hid & Htimers & Hfollows) Htr Hnone Hid' Htimers'.
  assert (Hlen : length (trace w) <= length (trace w'))
    by (rewrite Htr, length_app; lia).
  split; [|split].
  - intros u Hu. destruct (Hid' u Hu) as [Hold|Hnew]; [|exact Hnew].
    rewrite Htr. eapply recognized_before_mono; [|eauto]. now rewrite <- Htr.
  - intros u Hu. destruct (Htimers' u Hu) as [Hold|Hnew]; [|exact Hnew].
    rewrite Htr. eapply verified_before_mono; [|eauto]. now rewrite <- Htr.
  - rewrite Htr. now apply follows_stages_app.
Qed.

Local Ltac no_open :=
  let H := fresh in
  intros H; cbn in H;
  repeat (destruct H as [H|H]; [try discriminate H; try (now apply lock_is_not_open in H)|]);
  try contradiction.

Local Ltac same_identity := intros ? ?; left; assumption.

(** A change of the page that leaves the observations, the stored identity
    and the pending voice checks alone. *)
Lemma consistent_withPage w p :
  Spec.consistent openUrl w ->
  voiceTimers p = voiceTimers (page w) ->
  Spec.consistent openUrl (withPage w p).
Proof.
  intros Hc Hvt.
  apply (consistent_extend w _ []); [exact Hc | | no_open | same_identity | ].
  - cbn. now rewrite app_nil_r.
  - cbn. rewrite Hvt. same_identity.
Qed.

Lemma consistent_handleUnlock w r :
  Spec.consistent openUrl w -> Spec.consistent openUrl (handleUnlock w r).
Proof.
  intros Hc. unfold handleUnlock. repeat case_match.
  - now apply consistent_withPage.
  - apply consistent_withPage; [assumption|]. now destruct r.
  - apply (consistent_extend w _ [ObsUnlockStarted]);
      [exact Hc | reflexivity | no_open | same_identity | same_identity].
Qed.

Lemma consistent_faceFailed w message :
  Spec.consistent openUrl w -> Spec.consistent openUrl (faceFailed w message).
Proof. intros Hc. unfold faceFailed. now apply consistent_withPage. Qed.

Lemma consistent_faceTimer w scan now :
  Spec.consistent openUrl w -> Spec.consistent openUrl (faceTimer w scan now).
Proof.
  intros Hc. unfold faceTimer.
  destruct scan as [| | |descriptor|]; try now apply consistent_faceFailed.
  destruct (Routes.recognize_POST (server w) (Some descriptor) now) as [response st] eqn:Hpost.
  set (w1 := observe (withServer w st) (ObsRecognize response)).
  assert (Hw1 : Spec.consistent openUrl w1).
  { apply (consistent_extend w _ [ObsRecognize response]);
      [exact Hc | reflexivity | no_open | same_identity | same_identity]. }
  destruct (Response.ok response) eqn:Hok; [|now apply consistent_faceFailed].
  destruct (Response.body response) as [e|userId name d| |ev] eqn:Hbody;
    try now apply consistent_faceFailed.
  (* recognized: the identity stored is the one just observed *)
  apply (consistent_extend w1 _ []); [exact Hw1 | | no_open | | same_identity].
  - cbn. now rewrite app_nil_r.
  - cbn [localStorage setItem withPage]. intros u Hu.
    rewrite lookup_insert_eq in Hu. inversion Hu; subst u. right.
    cbn [trace setItem withPage w1 observe withServer]. unfold JS.push.
    exists (length (trace w)), response, name, d. rewrite length_app. cbn [length].
    repeat split; auto; [lia|].
    rewrite lookup_app_r by lia. now rewrite Nat.sub_diag.
Qed.

Lemma consistent_sessionFailed w message :
  Spec.consistent openUrl w -> Spec.consistent openUrl (sessionFailed w message).
Proof.
  intros Hc. unfold sessionFailed.
  apply (consistent_extend w _ []); [exact Hc | | no_open | | same_identity].
  - cbn. now rewrite app_nil_r.
  - cbn [localStorage removeItem withPage]. intros u Hu.
    rewrite lookup_delete_eq in Hu. discriminate Hu.
Qed.

Lemma consistent_verify_onClick w now :
  Spec.consistent openUrl w ->
  Spec.consistent openUrl (verify_onClick verifyPassword w now).
Proof.
  intros Hc. unfold verify_onClick.
  destruct (String.eqb (pin (page w)) "" || (String.length (pin (page w)) <? 4));
    [now apply consistent_withPage|].
  destruct (localStorage w !! "recognizedUserId") as [userId|] eqn:Hid;
    cbn [JS.truthy negb from_option id]; [|now apply consistent_withPage].
  destruct (negb (negb (String.eqb userId ""))); [now apply consistent_withPage|].
  destruct (Routes.verify_pin_POST verifyPassword (server w) (Some userId)
              (Some (pin (page w))) now) as [pinResponse st].
  set (w1 := observe (withServer w st) (ObsVerifyPin userId (pin (page w)) pinResponse)).
  assert (Hw1 : Spec.consistent openUrl w1).
  { apply (consistent_extend w _ [ObsVerifyPin userId (pin (page w)) pinResponse]);
      [exact Hc | reflexivity | no_open | same_identity | same_identity]. }
  destruct (Response.ok pinResponse) eqn:Hok; cbn [negb];
    [|now apply consistent_sessionFailed].
  (* verified: the voice check armed is for the identity just verified *)
  apply (consistent_extend w1 _ []); [exact Hw1 | | no_open | same_identity | ].
  - cbn. now rewrite app_nil_r.
  - cbn [voiceTimers page withPage setVoiceTimers setIsRecording setStatusMessage].
    unfold JS.push. intros u Hu. apply in_app_iff in Hu.
    destruct Hu as [Hu|[<-|[]]]; [now left|]. right.
    cbn [trace withPage w1 observe withServer]. unfold JS.push.
    exists (length (trace w)), (pin (page w)), pinResponse.
    rewrite length_app. cbn [length]. repeat split; auto; [lia| |].
    + destruct Hc as (Hrec & _ & _).
      apply (recognized_before_mono _ _ _ (length (trace w))); [lia|]. now apply Hrec.
    + rewrite lookup_app_r by lia. now rewrite Nat.sub_diag.
Qed.

Lemma consistent_voiceTimer w userId hasAudio now :
  Spec.consistent openUrl w ->
  Spec.verified_before (trace w) userId (length (trace w)) ->
  Spec.consistent openUrl (voiceTimer (Some url) w userId hasAudio now).
Proof.
  intros Hc Hverified. unfold voiceTimer.
  set (w0 := observe (withPage w (setIsRecording (page w) false)) (ObsVoice hasAudio)).
  assert (Hw0 : Spec.consistent openUrl w0).
  { apply (consistent_extend w _ [ObsVoice hasAudio]);
      [exact Hc | reflexivity | no_open | same_identity | same_identity]. }
  destruct hasAudio; [|now apply consistent_sessionFailed].
  destruct (Routes.events_POST (server w0) (unlock_body userId) now) as [response st].
  set (w1 := observe (withServer w0 st) (ObsEventPost (unlock_body userId))).
  assert (Hw1 : Spec.consistent openUrl w1).
  { apply (consistent_extend w0 _ [ObsEventPost (unlock_body userId)]);
      [exact Hw0 | reflexivity | no_open | same_identity | same_identity]. }
  assert (Htr1 : trace w1 = trace w ++ [ObsVoice true; ObsEventPost (unlock_body userId)]).
  { cbn. unfold JS.push. now rewrite <- app_assoc. }
  destruct (String.eqb url "").
  - apply (consistent_extend w1 _ []); [exact Hw1 | | no_open | | same_identity].
    + cbn. now rewrite app_nil_r.
    + cbn [localStorage removeItem withPage]. intros u Hu.
      rewrite lookup_delete_eq in Hu. discriminate Hu.
  - (* the open command: the three stages are in the trace *)
    set (w2 := observe w1 (ObsActuator openUrl)).
    destruct Hw1 as (Hid1 & Htimers1 & Hfollows1).
    split; [|split].
    + cbn [localStorage removeItem withPage]. intros u Hu.
      rewrite lookup_delete_eq in Hu. discriminate Hu.
    + cbn [voiceTimers page removeItem withPage setPin setStatusMessage setSafeState
             stopVideo setVideo w2 observe trace].
      intros u Hu. unfold JS.push. apply (verified_before_mono _ _ _ (length (trace w1))).
      * rewrite length_app. lia.
      * now apply Htimers1.
    + cbn [trace removeItem withPage w2 observe]. unfold JS.push.
      intros k Hk.
      destruct (Nat.lt_ge_cases k (length (trace w1))) as [Hlt|Hge].
      * rewrite lookup_app_l in Hk by exact Hlt.
        destruct (Hfollows1 k Hk) as (i & j & l & Hst). exists i, j, l.
        now apply staged_unlock_mono.
      * assert (Hk' : k = length (trace w1)).
        { apply lookup_lt_Some in Hk. rewrite length_app in Hk. cbn [length] in Hk. lia. }
        destruct Hverified as (j & pin & pr & Hj & (i & fr & name & d & Hi & Hfr & Hok & Hbody)
                               & Hpr & Hpok).
        exists i, j, (length (trace w)).
        exists fr, userId, name, d, pin, pr.
        rewrite Hk', Htr1, !length_app. cbn [length].
        repeat split; auto; try lia.
        -- rewrite <- app_assoc. now apply lookup_app_l_Some.
        -- rewrite <- app_assoc. now apply lookup_app_l_Some.
        -- rewrite <- app_assoc, lookup_app_r by lia. now rewrite Nat.sub_diag.
Qed.

Lemma consistent_handleLock w now :
  Spec.consistent openUrl w -> Spec.consistent openUrl (handleLock (Some url) w now).
Proof.
  intros Hc. unfold handleLock. cbn [from_option id].
  set (w1 := observe _ (ObsActuator (url +:+ "-90"))).
  assert (Hw1 : Spec.consistent openUrl w1).
  { apply (consistent_extend w _ [ObsActuator (url +:+ "-90")]);
      [exact Hc | reflexivity | no_open | same_identity | same_identity]. }
  destruct (Routes.events_POST (server w1) lock_body now) as [response st].
  apply (consistent_extend w1 _ [ObsEventPost lock_body]);
    [exact Hw1 | reflexivity | no_open | same_identity | same_identity].
Qed.

(** Every input keeps the world consistent. *)
Lemma consistent_step w i :
  Spec.consistent openUrl w -> Spec.consistent openUrl (step w i).
Proof.
  intros Hc.
  destruct i as [|camera mic|r|scan now|value|now|hasAudio now|now|];
    unfold SafePage.step; cbv zeta.
  - now apply consistent_withPage.
  - now apply consistent_withPage.
  - case_match; [now apply consistent_handleUnlock | exact Hc].
  - destruct (faceTimers (page w)) as [|n]; [exact Hc|].
    apply consistent_faceTimer. now apply consistent_withPage.
  - case_match; [now apply consistent_withPage | exact Hc].
  - case_match; [now apply consistent_verify_onClick | exact Hc].
  - destruct (voiceTimers (page w)) as [|userId rest] eqn:Hvt; [exact Hc|].
    assert (Hverified : Spec.verified_before (trace w) userId (length (trace w))).
    { destruct Hc as (_ & Htimers & _). apply Htimers. rewrite Hvt. now left. }
    apply consistent_voiceTimer; [|exact Hverified].
    destruct Hc as (Hid & Htimers & Hfollows). split; [|split]; auto.
    cbn [voiceTimers page withPage setVoiceTimers]. intros u Hu.
    apply Htimers. rewrite Hvt. now right.
  - case_match; [now apply consistent_handleLock | exact Hc].
  - destruct Hc as (Hid & Htimers & Hfollows). unfold load, JS.push.
    split; [|split]; cbn [localStorage trace page voiceTimers init].
    + intros u Hu. apply (recognized_before_mono _ _ _ (length (trace w)));
        [rewrite length_app; lia | now apply Hid].
    + intros u [].
    + apply follows_stages_app; [exact Hfollows | no_open].
Qed.

Lemma consistent_run w inputs :
  Spec.consistent openUrl w -> Spec.consistent openUrl (run w inputs).
Proof.
  unfold SafePage.run. revert w.
  induction inputs as [|i inputs IH]; intros w Hc; [exact Hc|].
  cbn [fold_left]. apply IH. now apply consistent_step.
Qed.

(** What holds of every run of the page in a browser that starts without a
    stored identity: each command that opens the lock comes after a face
    match for some user, then a PIN verification for that user, then a
    voice check that detected audio. The face match need not belong to the
    unlock attempt that opens the lock. *)
Lemma open_command_follows_three_stages (st : Storage.t) (inputs : list Input) :
  Spec.unlock_follows_stages openUrl
    (trace (run (load ∅ st []) inputs)).
Proof.
  apply consistent_run. unfold load, JS.push. split; [|split]; cbn.
  - intros u Hu. rewrite lookup_empty in Hu. discriminate Hu.
  - intros u [].
  - intros k Hk. destruct k as [|k]; cbn in Hk; discriminate Hk.
Qed.

End UnlockOrder.

Section UnlockCounterexample.
Import SafePage.

(** C1 fails on the code. The identity of a recognized user is kept in
    [localStorage], which outlives the page and is cleared by the PIN and
    voice exits only: after a reload, an unlock attempt in which the face is
    not recognized still verifies the PIN against the stale identity, and
    the voice check then opens the lock. The run ends unlocked with the open
    command sent; the three stages are in the observations, but the face
    match is that of the earlier session. *)
Theorem stale_identity_opens_the_lock :
  let w := run Scenario.verifyPassword Scenario.esp32Url Scenario.fresh
             Scenario.stale_identity_inputs in
  safeState (page w) = unlocked /\
  trace w !! 9 = Some (ObsActuator Scenario.openUrl) /\
  trace w !! 6 = Some (ObsRecognize (Response.mk 401 (Response.Error "Face not recognized"))) /\
  Spec.unlock_follows_stages Scenario.openUrl (trace w) /\
  ~ Spec.unlock_in_order Scenario.openUrl (trace w).
Proof.
  cbv zeta.
  pose proof (open_command_follows_three_stages Scenario.verifyPassword
                "http://esp32.local/servo?angle=" Scenario.server0
                Scenario.stale_identity_inputs) as Hstages.
  change (Spec.unlock_follows_stages Scenario.openUrl
            (trace (run Scenario.verifyPassword Scenario.esp32Url Scenario.fresh
                      Scenario.stale_identity_inputs))) in Hstages.
  revert Hstages.
  set (tr := trace _).
  assert (Htr : tr =
    [ObsPageLoad; ObsUnlockStarted;
     ObsRecognize (Response.mk 200
        (Response.Recognized "user-1700000000000" (Some "User user-1700000000000") 0.125));
     ObsPageLoad; ObsUnlockStarted;
     ObsVerifyPin "user-1700000000000" "4821" (Response.mk 200 Response.Success);
     ObsRecognize (Response.mk 401 (Response.Error "Face not recognized"));
     ObsVoice true;
     ObsEventPost (unlock_body "user-1700000000000");
     ObsActuator Scenario.openUrl]) by (vm_compute; reflexivity).
  intros Hstages.
  split; [vm_compute; reflexivity|].
  rewrite Htr in *. split; [reflexivity|]. split; [reflexivity|]. split; [exact Hstages|].
  intros Horder.
  destruct (Horder 9 eq_refl)
    as (i & j & l & (fr & u & n & d & p & pr & Hij & Hjl & Hlk & Hi & Hok & _) & Hsession).
  (* the only successful face match is at position 2, before the reload *)
  assert (Hi2 : i = 2).
  { destruct i as [|[|[|[|[|[|[|[|[|i]]]]]]]]];
      cbn in Hi; try discriminate Hi; try lia.
    inversion Hi; subst fr. discriminate Hok. }
  subst i. destruct (Hsession 3 ltac:(lia)) as [Hload _]. now apply Hload.
Qed.

End UnlockCounterexample.

(** *** The face store *)

Section FaceStoreFacts.

Implicit Types (faces : list FaceData.t) (st : Storage.t).

Lemma faces_updateUser st id updates :
  Storage.faces (snd (Storage.updateUser st id updates)) = Storage.faces st.
Proof. unfold Storage.updateUser. now repeat case_match. Qed.

(** The face store after [saveFaceData]: the first template of the user is
    replaced where it is, or the new template is pushed at the end. *)
Lemma faces_saveFaceData st userId descriptor image now :
  Storage.faces (Storage.saveFaceData st userId descriptor image now) =
  let faceData := FaceData.mk userId (Float32Array.to_array descriptor) image now in
  match list_find (fun f => FaceData.userId f = userId) (Storage.faces st) with
  | Some (existingIndex, _) => <[existingIndex := faceData]> (Storage.faces st)
  | None => Storage.faces st ++ [faceData]
  end.
Proof.
  unfold Storage.saveFaceData. cbv zeta. rewrite faces_updateUser.
  reflexivity.
Qed.

Local Abbreviation ids faces := (FaceData.userId <$> faces).

Lemma count_templates_absent userId faces :
  userId ∉ ids faces -> Spec.count_templates userId faces = 0.
Proof.
  unfold Spec.count_templates. induction faces as [|f faces IH]; [reflexivity|].
  rewrite fmap_cons, not_elem_of_cons. intros [Hne Hnot]. cbn [List.filter].
  destruct (String.eqb_spec (FaceData.userId f) userId) as [E|N]; [congruence|].
  now apply IH.
Qed.

Lemma count_templates_unique userId faces :
  NoDup (ids faces) -> userId ∈ ids faces -> Spec.count_templates userId faces = 1.
Proof.
  unfold Spec.count_templates. induction faces as [|f faces IH].
  - intros _ Hin. now apply elem_of_nil in Hin.
  - rewrite fmap_cons, NoDup_cons, elem_of_cons. intros [Hnotin Hnd] Hin.
    cbn [List.filter].
    destruct (String.eqb_spec (FaceData.userId f) userId) as [E|N].
    + cbn [length]. f_equal. apply count_templates_absent. now rewrite <- E.
    + destruct Hin as [Hin|Hin]; [congruence|]. now apply IH.
Qed.

Lemma ids_saveFaceData st userId descriptor image now :
  NoDup (ids (Storage.faces st)) ->
  NoDup (ids (Storage.faces (Storage.saveFaceData st userId descriptor image now))) /\
  userId ∈ ids (Storage.faces (Storage.saveFaceData st userId descriptor image now)).
Proof.
  intros Hnd. rewrite faces_saveFaceData. cbv zeta.
  destruct (list_find _ _) as [[i f]|] eqn:Hfind.
  - apply list_find_Some in Hfind. destruct Hfind as (Hi & Hf & _).
    rewrite list_fmap_insert. cbn [FaceData.userId].
    assert (Hid : ids (Storage.faces st) !! i = Some userId)
      by now rewrite list_lookup_fmap, Hi; cbn; rewrite Hf.
    rewrite (list_insert_id _ _ _ Hid).
    split; [assumption|]. apply list_elem_of_lookup. eauto.
  - apply list_find_None in Hfind. rewrite fmap_app. cbn [fmap list_fmap FaceData.userId].
    split.
    + apply NoDup_app. split; [assumption|]. split; [|apply NoDup_singleton].
      intros u Hu Hu'. apply list_elem_of_singleton in Hu'. subst u.
      apply list_elem_of_fmap in Hu. destruct Hu as (f & Hf & Hin).
      rewrite Forall_forall in Hfind. now apply (Hfind f Hin).
    + apply elem_of_app. right. now apply list_elem_of_singleton.
Qed.

Lemma ids_deleteFaceData st userId :
  NoDup (ids (Storage.faces st)) ->
  NoDup (ids (Storage.faces (snd (Storage.deleteFaceData st userId)))).
Proof.
  intros Hnd. unfold Storage.deleteFaceData. cbv zeta.
  case_match; [assumption|]. cbn [snd Storage.faces].
  clear H. revert Hnd. induction (Storage.faces st) as [|f faces IH]; [auto|].
  rewrite fmap_cons, NoDup_cons. intros [Hnot Hnd]. cbn [List.filter].
  destruct (negb _); [|auto].
  rewrite fmap_cons, NoDup_cons. split; [|auto].
  intros Hin. apply Hnot. apply list_elem_of_fmap in Hin. destruct Hin as (g & -> & Hg).
  apply list_elem_of_fmap. exists g. split; [reflexivity|].
  apply list_elem_of_In in Hg. apply filter_In in Hg. now apply list_elem_of_In.
Qed.

Lemma count_templates_insert userId faces i (old new : FaceData.t) :
  faces !! i = Some old ->
  FaceData.userId new = FaceData.userId old ->
  Spec.count_templates userId (<[i := new]> faces) = Spec.count_templates userId faces.
Proof.
  unfold Spec.count_templates. revert i.
  induction faces as [|f faces IH]; intros [|i] Hi Hsame; try discriminate Hi.
  - cbn in Hi. inversion Hi; subst f. cbn [list_insert insert List.filter].
    rewrite Hsame. now destruct (String.eqb _ _).
  - cbn in Hi. change (<[S i := new]> (f :: faces)) with (f :: <[i := new]> faces).
    cbn [List.filter]. destruct (String.eqb _ _); cbn [length]; rewrite (IH i); auto.
Qed.

(** A face store built by the storage operations from an empty one holds at
    most one template per user. *)
Lemma ids_apply_ops st ops :
  NoDup (ids (Storage.faces st)) -> NoDup (ids (Storage.faces (Spec.apply_ops st ops))).
Proof.
  unfold Spec.apply_ops. revert st. induction ops as [|op ops IH]; intros st Hnd; [assumption|].
  cbn [fold_left]. apply IH. destruct op as [u d img now|u]; cbn [Spec.apply_op].
  - now apply ids_saveFaceData.
  - now apply ids_deleteFaceData.
Qed.

End FaceStoreFacts.

Section FaceStoreTheorem.

(** C9. Registering a face for a user and registering again for the same
    user writes the new template at the index of the old one: the number of
    stored templates and the number of templates of that user are unchanged.
    In a face store built by the storage operations from an empty one, the
    user then has exactly one template. *)
Theorem reregistration_overwrites_in_place
  (st0 : Storage.t) (userId : string) (d1 d2 : Float32Array.t)
  (image1 image2 : option string) (t1 t2 : Z) :
  let st1 := Storage.saveFaceData st0 userId d1 image1 t1 in
  let st2 := Storage.saveFaceData st1 userId d2 image2 t2 in
  length (Storage.getFaceData st2) = length (Storage.getFaceData st1) /\
  Spec.count_templates userId (Storage.getFaceData st2) =
    Spec.count_templates userId (Storage.getFaceData st1) /\
  (exists i,
      Storage.getFaceData st1 !! i =
        Some (FaceData.mk userId (Float32Array.to_array d1) image1 t1) /\
      Storage.getFaceData st2 =
        <[i := FaceData.mk userId (Float32Array.to_array d2) image2 t2]>
          (Storage.getFaceData st1)) /\
  (forall users events ops,
      st0 = Spec.apply_ops (Storage.mk users events []) ops ->
      Spec.count_templates userId (Storage.getFaceData st1) = 1 /\
      Spec.count_templates userId (Storage.getFaceData st2) = 1).
Proof.
  intros st1 st2. unfold Storage.getFaceData.
  (* the second registration finds the template written by the first *)
  assert (Hfound : exists i,
             Storage.faces st1 !! i =
               Some (FaceData.mk userId (Float32Array.to_array d1) image1 t1) /\
             list_find (fun f => FaceData.userId f = userId) (Storage.faces st1) =
               Some (i, FaceData.mk userId (Float32Array.to_array d1) image1 t1)).
  { unfold st1 at 1 2. rewrite !faces_saveFaceData. cbv zeta.
    destruct (list_find _ (Storage.faces st0)) as [[i f]|] eqn:Hfind.
    - apply list_find_Some in Hfind. destruct Hfind as (Hi & Hf & Hfirst).
      assert (Hlt : i < length (Storage.faces st0)) by (eapply lookup_lt_Some; eauto).
      exists i. split; [now apply list_lookup_insert_eq|].
      apply list_find_Some. split; [now apply list_lookup_insert_eq|]. split; [reflexivity|].
      intros j y Hj Hji. rewrite list_lookup_insert_ne in Hj by lia. eauto.
    - apply list_find_None in Hfind.
      exists (length (Storage.faces st0)).
      assert (Hlast : (Storage.faces st0 ++
                        [FaceData.mk userId (Float32Array.to_array d1) image1 t1])
                      !! length (Storage.faces st0) =
                      Some (FaceData.mk userId (Float32Array.to_array d1) image1 t1)).
      { rewrite lookup_app_r by lia. now rewrite Nat.sub_diag. }
      split; [exact Hlast|].
      apply list_find_Some. split; [exact Hlast|]. split; [reflexivity|].
      intros j y Hj Hji. rewrite lookup_app_l in Hj by lia.
      rewrite Forall_forall in Hfind. apply Hfind.
      eapply list_elem_of_lookup_2; eauto. }
  destruct Hfound as (i & Hi & Hfind).
  assert (Hst2 : Storage.faces st2 =
                 <[i := FaceData.mk userId (Float32Array.to_array d2) image2 t2]>
                   (Storage.faces st1)).
  { unfold st2. rewrite faces_saveFaceData. cbv zeta. now rewrite Hfind. }
  split; [now rewrite Hst2, length_insert|].
  split; [rewrite Hst2; now apply (count_templates_insert _ _ _ _ _ Hi)|].
  split; [exists i; split; assumption|].
  intros users events ops Hbuilt.
  assert (Hnd0 : NoDup (FaceData.userId <$> Storage.faces st0)).
  { rewrite Hbuilt. apply ids_apply_ops. cbn. apply NoDup_nil_2. }
  destruct (ids_saveFaceData st0 userId d1 image1 t1 Hnd0) as [Hnd1 Hin1].
  destruct (ids_saveFaceData st1 userId d2 image2 t2 Hnd1) as [Hnd2 Hin2].
  split; now apply count_templates_unique.
Qed.

(** Three registrations for two users, the first user twice: two templates
    are stored and the first user's is the later one, still in first
    place. *)
Example reregistration_example :
  Storage.getFaceData
    (Spec.apply_ops Storage.empty
       [Spec.OpSave "user-1" (Float32Array.mk [0.25; 0.5]%float) None 10;
        Spec.OpSave "user-2" (Float32Array.mk [1; 1]%float) None 20;
        Spec.OpSave "user-1" (Float32Array.mk [0.75; 0]%float) None 30]) =
  [FaceData.mk "user-1" [0.75; 0]%float None 30;
   FaceData.mk "user-2" [1; 1]%float None 20].
Proof. vm_compute. reflexivity. Qed.

End FaceStoreTheorem.

(** *** The event log *)

Section SortFacts.
Context {A : Type} (cmp : A -> A -> Z).

Lemma sort_insert_perm a l : JS.sort_insert cmp a l ≡ₚ a :: l.
Proof.
  induction l as [|b l IH]; [reflexivity|]. cbn [JS.sort_insert].
  destruct (0 <? cmp a b)%Z; [|reflexivity].
  rewrite IH. apply Permutation_swap.
Qed.

Lemma sort_perm l : JS.sort cmp l ≡ₚ l.
Proof.
  unfold JS.sort. induction l as [|a l IH]; [reflexivity|].
  cbn [foldr]. now rewrite sort_insert_perm, IH.
Qed.

End SortFacts.

Section EventLogFacts.

Local Instance not_older_trans : Transitive Spec.not_older.
Proof. unfold Spec.not_older. intros a b c Hab Hbc. lia. Qed.

Lemma sort_insert_sorted e l :
  StronglySorted Spec.not_older l ->
  StronglySorted Spec.not_older (JS.sort_insert Storage.newest_first e l).
Proof.
  induction l as [|b l IH]; intros Hl.
  - cbn. repeat constructor.
  - cbn [JS.sort_insert]. apply StronglySorted_cons in Hl. destruct Hl as [Hb Hl].
    unfold Storage.newest_first at 1.
    destruct (Z.ltb_spec 0 (Event.timestamp b - Event.timestamp e)) as [Hlt|Hge].
    + apply StronglySorted_cons. split; [|auto].
      rewrite sort_insert_perm. constructor; [|assumption].
      unfold Spec.not_older. lia.
    + apply StronglySorted_cons. split; [|now apply StronglySorted_cons].
      assert (Heb : Spec.not_older e b) by (unfold Spec.not_older; lia).
      constructor; [assumption|].
      eapply Forall_impl; [exact Hb|]. intros c Hbc. now transitivity b.
Qed.

Lemma sort_sorted l : StronglySorted Spec.not_older (JS.sort Storage.newest_first l).
Proof.
  unfold JS.sort. induction l as [|e l IH]; [constructor|].
  cbn [foldr]. now apply sort_insert_sorted.
Qed.

Lemma take_sorted (l : list Event.t) k :
  StronglySorted Spec.not_older l -> StronglySorted Spec.not_older (take k l).
Proof.
  intros Hl. rewrite <- (take_drop k l) in Hl. now apply StronglySorted_app_1_l in Hl.
Qed.

End EventLogFacts.

Section EventLogTheorem.

(** C10 as the code has it. [getEvents] sorts the stored events newest
    first whatever their order in the file; every result is a prefix of that
    order; for a positive limit it is the first min(limit, total) events of
    it, each at least as recent as every event left out; the limit 0 is
    falsy and returns all events. *)
Theorem getEvents_newest_first (st : Storage.t) :
  let all := Storage.getEvents st None in
  all ≡ₚ Storage.events st /\
  StronglySorted Spec.not_older all /\
  (forall limit, StronglySorted Spec.not_older (Storage.getEvents st limit)) /\
  (forall n : Z, (0 < n)%Z ->
     let result := Storage.getEvents st (Some n) in
     result = take (Z.to_nat n) all /\
     length result = Nat.min (Z.to_nat n) (length (Storage.events st)) /\
     forall e e', e ∈ result -> e' ∈ drop (Z.to_nat n) all -> Spec.not_older e e') /\
  Storage.getEvents st (Some 0%Z) = all.
Proof.
  cbv zeta. unfold Storage.getEvents. cbv zeta.
  set (all := JS.sort Storage.newest_first (Storage.events st)).
  assert (Hperm : all ≡ₚ Storage.events st) by apply sort_perm.
  assert (Hsorted : StronglySorted Spec.not_older all) by apply sort_sorted.
  split; [exact Hperm|]. split; [exact Hsorted|]. split; [|split; [|reflexivity]].
  - intros [n|]; [|exact Hsorted].
    destruct (n =? 0)%Z; [exact Hsorted|].
    unfold JS.slice0. destruct (n <? 0)%Z; now apply take_sorted.
  - intros n Hn.
    assert (Hn0 : (n =? 0)%Z = false) by (apply Z.eqb_neq; lia).
    assert (Hneg : (n <? 0)%Z = false) by (apply Z.ltb_ge; lia).
    rewrite Hn0. unfold JS.slice0. rewrite Hneg.
    split; [reflexivity|]. split.
    + rewrite length_take. now rewrite Hperm.
    + intros e e' He He'. rewrite <- (take_drop (Z.to_nat n) all) in Hsorted.
      eapply StronglySorted_app_1_elem_of; eauto.
Qed.

(** C10 as stated fails at limit 0: the two stored events are both
    returned, not min(0, 2) = 0 of them. *)
Lemma getEvents_limit_zero_returns_all :
  Storage.getEvents Scenario.log2 (Some 0%Z) = [Scenario.new_event; Scenario.old_event] /\
  length (Storage.getEvents Scenario.log2 (Some 0%Z)) <>
    Nat.min (Z.to_nat 0) (length (Storage.events Scenario.log2)).
Proof. split; [reflexivity|]. vm_compute. discriminate. Qed.

End EventLogTheorem.

(** ** Part III: further properties of the program *)

(** *** Searching arrays *)

Section FindFacts.
Context {A : Type}.

Lemma find_app (f : A -> bool) l1 l2 :
  find f (l1 ++ l2) =
  match find f l1 with Some x => Some x | None => find f l2 end.
Proof.
  induction l1 as [|a l1 IH]; [reflexivity|].
  cbn. destruct (f a); [reflexivity | exact IH].
Qed.

Lemma find_none_iff (f : A -> bool) l :
  find f l = None <-> forall x, In x l -> f x = false.
Proof.
  split; [apply find_none|].
  induction l as [|a l IH]; intros H; [reflexivity|].
  cbn. rewrite (H a (or_introl eq_refl)). apply IH.
  intros x Hx. apply H. now right.
Qed.

Lemma filter_length_iff (g : A -> bool) l :
  length (List.filter g l) = length l <-> forall x, In x l -> g x = true.
Proof.
  induction l as [|a l IH]; [cbn; tauto|].
  cbn. pose proof (List.filter_length_le g l) as Hle.
  destruct (g a) eqn:Ha; cbn.
  - split.
    + intros H x [<-|Hx]; [exact Ha|]. apply IH; [lia | exact Hx].
    + intros H. f_equal. apply IH. intros x Hx. apply H. now right.
  - split; [lia|]. intros H. specialize (H a (or_introl eq_refl)). congruence.
Qed.

Lemma find_filter (f g : A -> bool) l :
  (forall x, f x = true -> g x = true) ->
  find f (List.filter g l) = find f l.
Proof.
  intros H. induction l as [|a l IH]; [reflexivity|].
  cbn. destruct (g a) eqn:Hg; cbn.
  - destruct (f a); [reflexivity | exact IH].
  - destruct (f a) eqn:Hf; [|exact IH].
    apply H in Hf. congruence.
Qed.

Lemma find_filter_none (f : A -> bool) l :
  find f (List.filter (fun x => negb (f x)) l) = None.
Proof.
  apply find_none_iff. intros x Hx. apply List.filter_In in Hx.
  destruct Hx as [_ Hx]. now apply negb_true_iff in Hx.
Qed.

(** [findIndex] and [find] stop at the same element. *)
Lemma find_list_find (P : A -> Prop) `{!forall x, Decision (P x)} (f : A -> bool) l :
  (forall x, f x = true <-> P x) ->
  find f l = snd <$> list_find P l.
Proof.
  intros Hr. induction l as [|a l IH]; [reflexivity|].
  cbn. destruct (decide (P a)) as [Hp|Hn].
  - apply Hr in Hp. rewrite Hp. reflexivity.
  - destruct (f a) eqn:Hf; [apply Hr in Hf; contradiction|].
    rewrite IH. destruct (list_find P l) as [[i x]|]; reflexivity.
Qed.

Lemma find_insert_first (P : A -> Prop) `{!forall x, Decision (P x)} (f : A -> bool)
  l i old new :
  (forall x, f x = true <-> P x) ->
  list_find P l = Some (i, old) -> f new = true ->
  find f (<[i := new]> l) = Some new.
Proof.
  intros Hr. revert i. induction l as [|a l IH]; intros i Hfind Hnew; [discriminate|].
  cbn in Hfind. destruct (decide (P a)) as [Hp|Hn].
  - injection Hfind as <- <-. cbn. now rewrite Hnew.
  - destruct (list_find P l) as [[k x]|] eqn:Hl; [|discriminate].
    cbn in Hfind. injection Hfind as <- <-. cbn.
    destruct (f a) eqn:Hf; [apply Hr in Hf; contradiction|].
    now apply IH.
Qed.


End FindFacts.

(** *** User accounts *)

Section AccountTheorems.
Import Accounts.

Lemma getUserById_list_find st id :
  Storage.getUserById st id =
  snd <$> list_find (fun u => User.id u = id) (Storage.users st).
Proof.
  apply find_list_find. intros u. apply String.eqb_eq.
Qed.

(** X1. [createUser] appends the account under the id [Date.now().toString()],
    and an older account keeps what it resolves to: after the call an id or
    an email resolves to the account it resolved to before, and only an id
    or an email that was free resolves to the new account. *)
Theorem createUser_then_lookup (st : Storage.t) (user : NewUser) (now : Z) :
  let newUser := fst (createUser st user now) in
  let st' := snd (createUser st user now) in
  User.id newUser = pretty now /\
  User.createdAt newUser = now /\
  getUsers st' = getUsers st ++ [newUser] /\
  Storage.events st' = Storage.events st /\
  Storage.faces st' = Storage.faces st /\
  (forall id,
      Storage.getUserById st' id =
      match Storage.getUserById st id with
      | Some older => Some older
      | None => if String.eqb (pretty now) id then Some newUser else None
      end) /\
  (forall address,
      getUserByEmail st' address =
      match getUserByEmail st address with
      | Some older => Some older
      | None => if String.eqb (email user) address then Some newUser else None
      end).
Proof.
  cbv zeta. repeat split.
  - intros id. unfold Storage.getUserById, createUser, getUsers, JS.push. cbn [snd fst Storage.users].
    rewrite find_app. destruct (find _ (Storage.users st)); reflexivity.
  - intros address. unfold getUserByEmail, createUser, getUsers, JS.push.
    cbn [snd fst Storage.users].
    rewrite find_app. destruct (find _ (Storage.users st)); reflexivity.
Qed.

Lemma deleteUser_spec (st : Storage.t) (id : string) :
  let deleted := fst (deleteUser st id) in
  let st' := snd (deleteUser st id) in
  (deleted = false <-> Storage.getUserById st id = None) /\
  (deleted = false -> st' = st) /\
  getUsers st' = List.filter (fun u => negb (String.eqb (User.id u) id)) (getUsers st) /\
  Storage.getUserById st' id = None /\
  (forall other, other <> id ->
     Storage.getUserById st' other = Storage.getUserById st other) /\
  Storage.events st' = Storage.events st /\
  Storage.faces st' = Storage.faces st.
Proof.
  cbv zeta. unfold deleteUser, getUsers.
  set (keep := fun u => negb (String.eqb (User.id u) id)).
  assert (Hnone : length (List.filter keep (Storage.users st)) = length (Storage.users st) <->
                  Storage.getUserById st id = None).
  { rewrite filter_length_iff. unfold Storage.getUserById. rewrite find_none_iff.
    split; intros H u Hu; specialize (H u Hu); unfold keep in *.
    - now apply negb_true_iff in H.
    - now apply negb_true_iff. }
  assert (Hsame : length (List.filter keep (Storage.users st)) = length (Storage.users st) ->
                  List.filter keep (Storage.users st) = Storage.users st).
  { intros H. apply forallb_filter_id, forallb_forall.
    exact (proj1 (filter_length_iff keep _) H). }
  assert (Hother : forall other, other <> id ->
            find (fun u => String.eqb (User.id u) other) (List.filter keep (Storage.users st)) =
            find (fun u => String.eqb (User.id u) other) (Storage.users st)).
  { intros other Hne. apply find_filter. intros u Hu. unfold keep.
    apply String.eqb_eq in Hu. apply negb_true_iff. apply String.eqb_neq. congruence. }
  destruct (length (List.filter keep (Storage.users st)) =? length (Storage.users st)) eqn:E;
    cbn [fst snd].
  - apply Nat.eqb_eq in E. repeat split; auto.
    + intros _. now apply Hnone.
    + symmetry. now apply Hsame.
    + now apply Hnone.
  - apply Nat.eqb_neq in E. repeat split; try discriminate.
    + intros H. apply Hnone in H. contradiction.
    + unfold Storage.getUserById. cbn [Storage.users]. apply find_filter_none.
    + intros other Hne. unfold Storage.getUserById. cbn [Storage.users]. now apply Hother.
Qed.

(** X2. [deleteUser] answers [false] exactly when no account has the id, and
    then writes nothing. Otherwise every account with the id is removed, the
    other accounts keep their order and what they resolve to, and the face
    templates and the events are not touched. *)
Theorem deleteUser_removes_the_account (st : Storage.t) (id : string) :
  let deleted := fst (deleteUser st id) in
  let st' := snd (deleteUser st id) in
  (deleted = false <-> Storage.getUserById st id = None) /\
  (deleted = false -> st' = st) /\
  getUsers st' = List.filter (fun u => negb (String.eqb (User.id u) id)) (getUsers st) /\
  Storage.getUserById st' id = None /\
  (forall other, other <> id ->
     Storage.getUserById st' other = Storage.getUserById st other) /\
  Storage.events st' = Storage.events st /\
  Storage.faces st' = Storage.faces st.
Proof.
  pose proof (deleteUser_spec st id) as H. cbv zeta in H |- *.
  repeat (split; [apply H|]). apply H.
Qed.

Lemma updateUser_missing st id updates :
  Storage.getUserById st id = None -> Storage.updateUser st id updates = (None, st).
Proof.
  rewrite getUserById_list_find. unfold Storage.updateUser.
  destruct (list_find _ _) as [[index u]|]; [discriminate | reflexivity].
Qed.

Lemma updateUser_found st id updates u :
  Storage.getUserById st id = Some u ->
  fst (Storage.updateUser st id updates) = Some (UserUpdate.apply u updates) /\
  Storage.getUserById (snd (Storage.updateUser st id updates)) id =
    Some (UserUpdate.apply u updates).
Proof.
  rewrite getUserById_list_find. unfold Storage.updateUser.
  destruct (list_find _ _) as [[index u0]|] eqn:Hfind; [|discriminate].
  intros [= <-]. cbn [fst snd]. split; [reflexivity|].
  pose proof Hfind as Hspec. apply list_find_Some in Hspec.
  destruct Hspec as (Hlook & Hid & _).
  unfold Storage.getUserById. cbn [Storage.users].
  apply (find_insert_first (fun u => User.id u = id) _ _ _ u0); auto.
  - intros x. apply String.eqb_eq.
  - apply String.eqb_eq. exact Hid.
Qed.


Lemma updateUser_frame st id updates :
  length (Storage.users (snd (Storage.updateUser st id updates))) = length (Storage.users st) /\
  Storage.events (snd (Storage.updateUser st id updates)) = Storage.events st /\
  Storage.faces (snd (Storage.updateUser st id updates)) = Storage.faces st.
Proof.
  unfold Storage.updateUser.
  destruct (list_find _ _) as [[index u]|]; cbn [snd Storage.users Storage.events Storage.faces];
    [rewrite length_insert|]; auto.
Qed.


End AccountTheorems.

(** *** More on JavaScript numbers *)

Section FloatFacts.

Lemma SFeqb_refl_finite s m e : SFeqb (S754_finite s m e) (S754_finite s m e) = true.
Proof.
  unfold SFeqb, SFcompare.
  destruct s; rewrite Z.compare_refl, Pos.compare_cont_refl; reflexivity.
Qed.

Lemma is_nan_Prim2SF (x : float) : PrimFloat.is_nan x = true <-> Prim2SF x = S754_nan.
Proof.
  unfold PrimFloat.is_nan. rewrite FloatAxioms.eqb_spec.
  destruct (Prim2SF x) as [s|s| |s m e].
  - destruct s; split; discriminate.
  - destruct s; split; discriminate.
  - split; reflexivity.
  - rewrite SFeqb_refl_finite. split; discriminate.
Qed.

(** A finite number is a zero or has a mantissa and an exponent. *)
Lemma is_finite_Prim2SF (x : float) :
  PrimFloat.is_finite x = true ->
  (exists s, Prim2SF x = S754_zero s) \/ (exists s m e, Prim2SF x = S754_finite s m e).
Proof.
  unfold PrimFloat.is_finite, PrimFloat.is_infinity. intros H.
  apply negb_true_iff, orb_false_iff in H. destruct H as [Hnan Hinf].
  rewrite FloatAxioms.eqb_spec, FloatAxioms.abs_spec in Hinf.
  destruct (Prim2SF x) as [s|s| |s m e] eqn:E.
  - left. eauto.
  - destruct s; vm_compute in Hinf; discriminate Hinf.
  - apply is_nan_Prim2SF in E. congruence.
  - right. eauto.
Qed.

(** [x - x] is 0 for every finite [x]. *)
Lemma sub_diag_finite (x : float) : PrimFloat.is_finite x = true -> (x - x)%float = 0%float.
Proof.
  intros H. apply Prim2SF_inj. rewrite FloatAxioms.sub_spec.
  destruct (is_finite_Prim2SF x H) as [[s E]|(s & m & e & E)]; rewrite E.
  - destruct s; reflexivity.
  - unfold SF64sub, SFsub. rewrite Z.min_id, Z.sub_diag. reflexivity.
Qed.

(** The square of a zero is 0. *)
Lemma square_zero (x : float) : PrimFloat.eqb x 0 = true -> (x * x)%float = 0%float.
Proof.
  intros H. apply Prim2SF_inj. rewrite FloatAxioms.mul_spec.
  rewrite FloatAxioms.eqb_spec in H.
  change (Prim2SF 0) with (S754_zero false) in H.
  destruct (Prim2SF x) as [s|s| |s m e].
  - destruct s; reflexivity.
  - destruct s; discriminate H.
  - discriminate H.
  - destruct s; discriminate H.
Qed.

(** Whatever 0 is divided by, the root of the result is not above any
    positive bound: it is a zero or not a number. *)
Lemma root_of_zero_over (n bound : float) :
  PrimFloat.ltb 0 bound = true ->
  PrimFloat.ltb bound (PrimFloat.sqrt (0 / n)) = false.
Proof.
  intros Hb. rewrite FloatAxioms.ltb_spec in *.
  rewrite FloatAxioms.sqrt_spec, FloatAxioms.div_spec.
  change (Prim2SF 0) with (S754_zero false) in *.
  assert (Hz : forall s, SFltb (Prim2SF bound) (S754_zero s) = false).
  { intros s. destruct (Prim2SF bound) as [sb|sb| |sb mb eb]; try destruct sb;
      cbn in Hb |- *; try discriminate Hb; reflexivity. }
  assert (Hn : SFltb (Prim2SF bound) S754_nan = false).
  { destruct (Prim2SF bound) as [sb|sb| |sb mb eb]; try destruct sb; reflexivity. }
  destruct (Prim2SF n) as [s|s| |s m e]; cbn; auto.
Qed.

End FloatFacts.

(** *** The event log: writing, then reading *)

Section EventLogRoundTrip.

Local Abbreviation ins := (JS.sort_insert Storage.newest_first).

Lemma sort_insert_front (e : Event.t) l :
  Forall (Spec.not_older e) l -> ins e l = e :: l.
Proof.
  intros H. destruct l as [|b l]; [reflexivity|].
  cbn. apply Forall_cons_1 in H. destruct H as [Hb _].
  unfold Spec.not_older in Hb. unfold Storage.newest_first.
  destruct (0 <? Event.timestamp b - Event.timestamp e)%Z eqn:E; [|reflexivity].
  apply Z.ltb_lt in E. lia.
Qed.

(** Sorting a list that is already newest-first changes nothing. *)
Lemma sort_sorted_id l :
  StronglySorted Spec.not_older l -> JS.sort Storage.newest_first l = l.
Proof.
  induction 1 as [|a l Hs IH Ha]; [reflexivity|].
  unfold JS.sort in *. cbn. rewrite IH. now apply sort_insert_front.
Qed.

(** Where a new last element lands when the rest is newest-first: behind
    the events that are at least as recent, before the older ones. *)
Lemma sort_snoc_sorted (e : Event.t) l :
  StronglySorted Spec.not_older l ->
  JS.sort Storage.newest_first (l ++ [e]) =
  List.filter (fun x => (Event.timestamp e <=? Event.timestamp x)%Z) l ++ [e] ++
  List.filter (fun x => (Event.timestamp x <? Event.timestamp e)%Z) l.
Proof.
  induction 1 as [|a l Hs IH Ha]; [reflexivity|].
  unfold JS.sort in *. cbn [app foldr]. rewrite IH. cbn [List.filter].
  destruct (Event.timestamp e <=? Event.timestamp a)%Z eqn:E1.
  - apply Z.leb_le in E1.
    replace (Event.timestamp a <? Event.timestamp e)%Z with false
      by (symmetry; apply Z.ltb_ge; lia).
    cbn [app]. apply sort_insert_front.
    apply Forall_app. split; [|apply Forall_cons; split].
    + apply Forall_forall. intros x Hx. apply list_elem_of_In, List.filter_In in Hx.
      destruct Hx as [Hx _]. rewrite Forall_forall in Ha. apply Ha.
      now apply list_elem_of_In.
    + exact E1.
    + apply Forall_forall. intros x Hx. apply list_elem_of_In, List.filter_In in Hx.
      destruct Hx as [Hx _]. rewrite Forall_forall in Ha. apply Ha.
      now apply list_elem_of_In.
  - apply Z.leb_gt in E1.
    replace (Event.timestamp a <? Event.timestamp e)%Z with true
      by (symmetry; apply Z.ltb_lt; lia).
    assert (Hold : Forall (fun x => (Event.timestamp x < Event.timestamp e)%Z) l).
    { eapply Forall_impl; [exact Ha|]. intros x Hx. unfold Spec.not_older in Hx. lia. }
    assert (H1 : List.filter (fun x => (Event.timestamp e <=? Event.timestamp x)%Z) l = []).
    { clear -Hold. induction l as [|b l IH]; [reflexivity|].
      apply Forall_cons_1 in Hold. destruct Hold as [Hb Hl]. cbn.
      replace (Event.timestamp e <=? Event.timestamp b)%Z with false
        by (symmetry; apply Z.leb_gt; lia).
      now apply IH. }
    assert (H2 : List.filter (fun x => (Event.timestamp x <? Event.timestamp e)%Z) l = l).
    { clear -Hold. induction l as [|b l IH]; [reflexivity|].
      apply Forall_cons_1 in Hold. destruct Hold as [Hb Hl]. cbn.
      replace (Event.timestamp b <? Event.timestamp e)%Z with true
        by (symmetry; apply Z.ltb_lt; lia).
      f_equal. now apply IH. }
    rewrite H1, H2. cbn [app JS.sort_insert]. unfold Storage.newest_first at 1.
    replace (0 <? Event.timestamp e - Event.timestamp a)%Z with true
      by (symmetry; apply Z.ltb_lt; lia).
    f_equal. now apply sort_insert_front.
Qed.

(** X4. [createEvent] loses no stored event: the file afterwards holds the
    events that were stored, newest first, followed by the new one. When
    the log is read back, the new event comes behind the stored events that
    are at least as recent as it and before all older ones; so when the
    clock has passed every stored timestamp it is the first event listed. *)
Theorem createEvent_then_getEvents
  (st : Storage.t) (type : string) (userId userName : option string)
  (metadata : option (list (string * json))) (now : Z) :
  let e := fst (Storage.createEvent st type userId userName metadata now) in
  let st' := snd (Storage.createEvent st type userId userName metadata now) in
  let before := Storage.getEvents st None in
  e = Event.mk (pretty now) type userId userName now metadata /\
  Storage.events st' = before ++ [e] /\
  Storage.events st' ≡ₚ e :: Storage.events st /\
  Storage.users st' = Storage.users st /\
  Storage.faces st' = Storage.faces st /\
  Storage.getEvents st' None =
    List.filter (fun x => (now <=? Event.timestamp x)%Z) before ++ [e] ++
    List.filter (fun x => (Event.timestamp x <? now)%Z) before /\
  ((forall old, In old (Storage.events st) -> (Event.timestamp old < now)%Z) ->
   Storage.getEvents st' None = e :: before /\
   forall n, (0 < n)%Z -> head (Storage.getEvents st' (Some n)) = Some e).
Proof.
  cbv zeta. unfold Storage.createEvent. cbn [fst snd Storage.events Storage.users Storage.faces].
  set (e := Event.mk (pretty now) type userId userName now metadata).
  set (before := Storage.getEvents st None).
  assert (Hsorted : StronglySorted Spec.not_older before) by apply sort_sorted.
  assert (Hread : Storage.getEvents (Storage.mk (Storage.users st) (JS.push before e)
                                       (Storage.faces st)) None =
                  List.filter (fun x => (now <=? Event.timestamp x)%Z) before ++ [e] ++
                  List.filter (fun x => (Event.timestamp x <? now)%Z) before).
  { unfold Storage.getEvents at 1. cbn [Storage.events]. unfold JS.push.
    now rewrite sort_snoc_sorted. }
  split; [reflexivity|]. split; [reflexivity|].
  split.
  { unfold JS.push. rewrite <- Permutation_cons_append. constructor.
    unfold before, Storage.getEvents. apply sort_perm. }
  split; [reflexivity|]. split; [reflexivity|].
  split; [exact Hread|].
  intros Hpast.
  assert (Hall : forall x, In x before -> (Event.timestamp x < now)%Z).
  { intros x Hx. apply Hpast. apply list_elem_of_In.
    rewrite <- (sort_perm Storage.newest_first (Storage.events st)).
    now apply list_elem_of_In. }
  assert (H1 : List.filter (fun x => (now <=? Event.timestamp x)%Z) before = []).
  { clear -Hall. induction before as [|b l IH]; [reflexivity|]. cbn.
    replace (now <=? Event.timestamp b)%Z with false
      by (symmetry; apply Z.leb_gt; apply Hall; now left).
    apply IH. intros x Hx. apply Hall. now right. }
  assert (H2 : List.filter (fun x => (Event.timestamp x <? now)%Z) before = before).
  { clear -Hall. induction before as [|b l IH]; [reflexivity|]. cbn.
    replace (Event.timestamp b <? now)%Z with true
      by (symmetry; apply Z.ltb_lt; apply Hall; now left).
    f_equal. apply IH. intros x Hx. apply Hall. now right. }
  assert (Hfirst : Storage.getEvents (Storage.mk (Storage.users st) (JS.push before e)
                                        (Storage.faces st)) None = e :: before).
  { rewrite Hread, H1, H2. reflexivity. }
  split; [exact Hfirst|].
  intros n Hn. unfold Storage.getEvents in *. cbn [Storage.events] in *.
  rewrite Hfirst.
  replace (n =? 0)%Z with false by (symmetry; apply Z.eqb_neq; lia).
  unfold JS.slice0. replace (n <? 0)%Z with false by (symmetry; apply Z.ltb_ge; lia).
  destruct (Z.to_nat n) eqn:E; [lia|]. reflexivity.
Qed.

End EventLogRoundTrip.

(** *** The sensor hub over a session *)

Section HubTheorems.
Import Hub.

Lemma hub_run_snoc store messages data now :
  HubSession.run store (messages ++ [(data, now)]) =
  (fst (on_sensor_data (fst (HubSession.run store messages)) data now),
   snd (HubSession.run store messages) ++
   [snd (on_sensor_data (fst (HubSession.run store messages)) data now)]).
Proof.
  revert store. induction messages as [|[d t] rest IH]; intros store.
  - cbn [app HubSession.run fst snd].
    destruct (on_sensor_data store data now). reflexivity.
  - cbn [app HubSession.run].
    destruct (on_sensor_data store d t) as [store1 emitted].
    rewrite IH. destruct (HubSession.run store1 rest) as [store2 more]. reflexivity.
Qed.

Lemma hub_run_lookup store messages k data now :
  messages !! k = Some (data, now) ->
  exists before,
    snd (HubSession.run store messages) !! k = Some (snd (on_sensor_data before data now)).
Proof.
  revert store k. induction messages as [|[d t] rest IH]; intros store k Hk; [discriminate|].
  cbn [HubSession.run].
  destruct (on_sensor_data store d t) as [store1 emitted] eqn:E1.
  destruct (HubSession.run store1 rest) as [store2 more] eqn:E2.
  destruct k as [|k]; cbn in Hk.
  - injection Hk as -> ->. exists store. rewrite E1. reflexivity.
  - destruct (IH store1 k Hk) as [before Hb]. exists before.
    rewrite E2 in Hb. exact Hb.
Qed.

(** X5. The history the hub keeps is shared by all clients and holds the
    last 100 samples received, in order of arrival: never more than 100,
    and all of them while fewer have arrived. Every sample is broadcast
    back to the clients before any alert for it. *)
Theorem hub_keeps_last_100_samples (messages : list (SensorData.t * Z)) :
  let store := fst (HubSession.run [] messages) in
  store = JS.lastn 100 (map fst messages) /\
  length store = Nat.min 100 (length messages) /\
  length (snd (HubSession.run [] messages)) = length messages /\
  (forall k data now,
      messages !! k = Some (data, now) ->
      exists alerts,
        snd (HubSession.run [] messages) !! k = Some (EmitSensorData data :: alerts)).
Proof.
  cbv zeta.
  assert (Hstore : fst (HubSession.run [] messages) = JS.lastn 100 (map fst messages)).
  { induction messages as [|[data now] messages IH] using rev_ind; [reflexivity|].
    rewrite hub_run_snoc. cbn [fst]. rewrite IH, map_app. cbn [map fst].
    change (map fst messages ++ [data]) with (JS.push (map fst messages) data).
    rewrite lastn_push. reflexivity. }
  split; [exact Hstore|]. split; [|split].
  - rewrite Hstore, length_lastn, length_map. reflexivity.
  - clear Hstore.
    induction messages as [|[data now] messages IH] using rev_ind; [reflexivity|].
    rewrite hub_run_snoc. cbn [snd]. rewrite !length_app, IH. reflexivity.
  - intros k data now Hk. destruct (hub_run_lookup [] _ _ _ _ Hk) as [before Hb].
    rewrite Hb. eexists. reflexivity.
Qed.

(** X6. For one sample the hub emits the broadcast and at most one alert: a
    theft alert when the magnitude is above 50, a ghost-mode alert when the
    magnitude and the three gyroscope axes are all below 0.1 in absolute
    value, and never both. A ghost-mode alert is never raised for a sample
    whose acceleration is not a number. *)
Theorem hub_raises_at_most_one_alert
  (store : list SensorData.t) (data : SensorData.t) (now : Z) :
  let magnitude := Dashboard.accelMagnitude (SensorData.accelerometer data) in
  let g := SensorData.gyroscope data in
  let still :=
    PrimFloat.ltb magnitude 0.1 &&
    PrimFloat.ltb (PrimFloat.abs (Vec3.x g)) 0.1 &&
    PrimFloat.ltb (PrimFloat.abs (Vec3.y g)) 0.1 &&
    PrimFloat.ltb (PrimFloat.abs (Vec3.z g)) 0.1 in
  JS.gtb magnitude 50 && still = false /\
  snd (on_sensor_data store data now) =
    EmitSensorData data ::
    (if JS.gtb magnitude 50 then [EmitTheftAlert magnitude now]
     else if still then [EmitGhostModeAlert now] else []) /\
  (PrimFloat.is_nan magnitude = true ->
   snd (on_sensor_data store data now) = [EmitSensorData data]).
Proof.
  cbv zeta. unfold Dashboard.accelMagnitude.
  set (magnitude := PrimFloat.sqrt _).
  assert (Hex : JS.gtb magnitude 50 = true -> PrimFloat.ltb magnitude 0.1 = false).
  { intros H. destruct (PrimFloat.ltb magnitude 0.1) eqn:E; [|reflexivity].
    unfold JS.gtb in H. pose proof (ltb_trans _ _ _ H E) as Hc.
    vm_compute in Hc. discriminate Hc. }
  assert (Hnan : PrimFloat.is_nan magnitude = true ->
                 JS.gtb magnitude 50 = false /\ PrimFloat.ltb magnitude 0.1 = false).
  { intros H. apply is_nan_Prim2SF in H. unfold JS.gtb.
    rewrite !FloatAxioms.ltb_spec, H. split; reflexivity. }
  split; [|split].
  - destruct (JS.gtb magnitude 50) eqn:E; [|reflexivity].
    rewrite (Hex eq_refl). reflexivity.
  - unfold on_sensor_data. cbn [snd]. fold magnitude.
    destruct (JS.gtb magnitude 50) eqn:E.
    + rewrite (Hex eq_refl). reflexivity.
    + cbn [app]. destruct (_ && _); reflexivity.
  - intros H. destruct (Hnan H) as [H1 H2].
    unfold on_sensor_data. cbn [snd]. fold magnitude. rewrite H1, H2. reflexivity.
Qed.

End HubTheorems.

(** *** The dashboard over a run of messages *)

Section DashboardRunFacts.
Import Dashboard.

Lemma handleSensorData_state st data now :
  let a := SensorData.accelerometer data in
  let g := SensorData.gyroscope data in
  let r := Smoother.smoothAccelerometer (accelBufferRef st) (Vec3.x a) (Vec3.y a) (Vec3.z a) in
  let theft := Derived.is_theft data in
  let moved :=
    any_exceeded (exceeded data) &&
    (MOVEMENT_EVENT_COOLDOWN <? now - lastMovementEventRef st)%Z in
  fst (handleSensorData st data now) =
  {| accelBufferRef := fst r;
     lastMovementEventRef := if moved then now else lastMovementEventRef st;
     accidentCount := if theft then S (accidentCount st) else accidentCount st;
     theftDetected := if theft then true else theftDetected st;
     accelData := chart_add (accelData st) (SensorData.timestamp data) (snd r);
     gyroData := if Derived.is_turning data
                 then chart_add (gyroData st) (SensorData.timestamp data) g
                 else gyroData st |}.
Proof.
  cbv zeta. unfold handleSensorData.
  destruct (Smoother.smoothAccelerometer _ _ _ _) as [buf smoothed]. reflexivity.
Qed.

Lemma handled_app l1 l2 :
  Derived.handled (l1 ++ l2) = Derived.handled l1 ++ Derived.handled l2.
Proof.
  induction l1 as [|[m now] l1 IH]; [reflexivity|].
  cbn [app Derived.handled]. destruct (sample_of m now); rewrite IH; reflexivity.
Qed.

Lemma chart_add_chart_of times points time v :
  length times = length points ->
  chart_add (Derived.chart_of times points) time v =
  Derived.chart_of (times ++ [time]) (points ++ [v]).
Proof.
  intros Hlen. unfold chart_add, Derived.chart_of.
  cbn [labels data0 data1 data2]. rewrite !map_app. cbn [map].
  change (times ++ [time]) with (JS.push times time).
  change (map Vec3.x points ++ [Vec3.x v]) with (JS.push (map Vec3.x points) (Vec3.x v)).
  change (map Vec3.y points ++ [Vec3.y v]) with (JS.push (map Vec3.y points) (Vec3.y v)).
  change (map Vec3.z points ++ [Vec3.z v]) with (JS.push (map Vec3.z points) (Vec3.z v)).
  rewrite !lastn_push. cbv zeta.
  assert (Hl : forall (axis : Vec3.t -> float),
             length (JS.push (JS.lastn 20 (map axis points)) (axis v)) =
             length (JS.push (JS.lastn 20 times) time)).
  { intros axis. unfold JS.push. rewrite !length_app, !length_lastn, length_map, Hlen.
    reflexivity. }
  rewrite !Hl. destruct (Nat.ltb 20 _); reflexivity.
Qed.

Lemma smoothed_snoc_call pre s :
  Smoother.smoothed (pre ++ [s]) =
  Smoother.smoothed pre ++
  [snd (Smoother.smoothAccelerometer (Smoother.window_of pre)
          (Vec3.x s) (Vec3.y s) (Vec3.z s))].
Proof.
  rewrite smoothed_snoc, smoothAccelerometer_output. cbv zeta.
  rewrite smoothAccelerometer_window. reflexivity.
Qed.

Lemma length_smoothed l : length (Smoother.smoothed l) = length l.
Proof. apply length_feed. Qed.

End DashboardRunFacts.

Section DashboardRunTheorems.
Import Dashboard.

(** X7. After any run of messages from the three producers, the smoothing
    buffers hold the last 5 accelerometer readings the handler was called
    with, the accelerometer chart shows the last 20 smoothed readings, and
    the gyroscope chart the last 20 readings that were not (0, 0, 0), each
    under the time stamp of its sample. A gyroscope message counts as an
    accelerometer reading of (0, 0, 0), and an accelerometer message adds
    nothing to the gyroscope chart. *)
Theorem charts_show_the_last_20_samples (inputs : list (Message * Z)) :
  let st := state_after Dashboard.init inputs in
  let samples := Derived.handled inputs in
  let turning := List.filter Derived.is_turning samples in
  accelBufferRef st = Smoother.window_of (map SensorData.accelerometer samples) /\
  accelData st =
    Derived.chart_of (map SensorData.timestamp samples)
      (Smoother.smoothed (map SensorData.accelerometer samples)) /\
  gyroData st =
    Derived.chart_of (map SensorData.timestamp turning)
      (map SensorData.gyroscope turning) /\
  (forall values now,
      Derived.handled [(GyroscopeValues (Some values), now)] = [] \/
      exists g, Derived.handled [(GyroscopeValues (Some values), now)] =
                [SensorData.mk zero3 g now]) /\
  (forall values now,
      List.filter Derived.is_turning
        (Derived.handled [(AccelerometerValues (Some values), now)]) = []).
Proof.
  cbv zeta. split; [|split; [|split; [|split]]].
  - induction inputs as [|[m now] inputs IH] using rev_ind; [reflexivity|].
    rewrite state_after_snoc, handled_app. unfold receive.
    cbn [Derived.handled]. destruct (sample_of m now) as [data|].
    + rewrite handleSensorData_state. cbv zeta. cbn [accelBufferRef].
      rewrite IH, map_app. cbn [map]. apply smoothAccelerometer_window.
    + rewrite app_nil_r. exact IH.
  - assert (Hbuf : forall l, accelBufferRef (state_after Dashboard.init l) =
                     Smoother.window_of (map SensorData.accelerometer (Derived.handled l))).
    { intros l. induction l as [|[m now] l IH] using rev_ind; [reflexivity|].
      rewrite state_after_snoc, handled_app. unfold receive.
      cbn [Derived.handled]. destruct (sample_of m now) as [data|].
      - rewrite handleSensorData_state. cbv zeta. cbn [accelBufferRef].
        rewrite IH, map_app. cbn [map]. apply smoothAccelerometer_window.
      - rewrite app_nil_r. exact IH. }
    induction inputs as [|[m now] inputs IH] using rev_ind; [reflexivity|].
    rewrite state_after_snoc, handled_app. unfold receive.
    cbn [Derived.handled]. destruct (sample_of m now) as [data|].
    + rewrite handleSensorData_state. cbv zeta. cbn [accelData].
      rewrite IH, Hbuf, !map_app. cbn [map].
      rewrite chart_add_chart_of by (rewrite length_smoothed, !length_map; reflexivity).
      now rewrite smoothed_snoc_call.
    + rewrite app_nil_r. exact IH.
  - induction inputs as [|[m now] inputs IH] using rev_ind; [reflexivity|].
    rewrite state_after_snoc, handled_app, List.filter_app. unfold receive.
    cbn [Derived.handled]. destruct (sample_of m now) as [data|].
    + rewrite handleSensorData_state. cbv zeta. cbn [gyroData List.filter].
      destruct (Derived.is_turning data).
      * rewrite IH, !map_app. cbn [map].
        apply chart_add_chart_of. now rewrite !length_map.
      * rewrite app_nil_r. exact IH.
    + cbn [List.filter]. rewrite app_nil_r. exact IH.
  - intros values now. cbn [Derived.handled sample_of].
    destruct values as [|v0 [|v1 [|v2 rest]]]; auto.
    right. eexists. reflexivity.
  - intros values now. cbn [Derived.handled sample_of].
    destruct values as [|v0 [|v1 [|v2 rest]]]; reflexivity.
Qed.

Local Abbreviation thefts inputs :=
  (length (List.filter Derived.is_theft (Derived.handled inputs))).

(** X8. Every sample whose magnitude is above 50 is counted once and posted
    once as a [theft_detected] event, whatever else the run holds, and the
    handler never clears the theft banner once it is raised. *)
Theorem thefts_are_counted_and_posted_once (st : Dashboard.t) (inputs : list (Message * Z)) :
  let st' := state_after st inputs in
  accidentCount st' = accidentCount st + thefts inputs /\
  theftDetected st' = theftDetected st || (0 <? thefts inputs) /\
  Spec.count_type "theft_detected" (concat (snd (run st inputs))) = thefts inputs.
Proof.
  cbv zeta. unfold state_after. revert st.
  induction inputs as [|[m now] inputs IH]; intros st.
  - cbn. rewrite Nat.add_0_r, orb_false_r. auto.
  - cbn [run Derived.handled]. unfold receive.
    destruct (sample_of m now) as [data|].
    + pose proof (handleSensorData_state st data now) as Hst. cbv zeta in Hst.
      pose proof (handleSensorData_posts st data now) as Hposts.
      destruct (handleSensorData st data now) as [st1 posts]. cbn [fst snd] in Hst, Hposts.
      specialize (IH st1). destruct (run st1 inputs) as [st2 more]. cbn [fst snd] in IH |- *.
      destruct IH as (Hc & Ht & Hp). rewrite Hc, Ht. cbn [concat].
      unfold Spec.count_type in *. rewrite List.filter_app, length_app, Hp.
      subst st1 posts. cbn [accidentCount theftDetected List.filter].
      change (JS.gtb (accelMagnitude (SensorData.accelerometer data)) 50)
        with (Derived.is_theft data).
      destruct (Derived.is_theft data); cbn [length].
      * rewrite List.filter_app, length_app.
        destruct (any_exceeded (exceeded data) && _); cbn; repeat split; try lia.
        all: now rewrite orb_true_r.
      * rewrite List.filter_app, length_app.
        destruct (any_exceeded (exceeded data) && _); cbn; repeat split; lia.
    + specialize (IH st). destruct (run st inputs) as [st2 more]. cbn [fst snd] in IH |- *.
      exact IH.
Qed.

Lemma ref_origin st l :
  lastMovementEventRef (state_after st l) = lastMovementEventRef st \/
  exists k m t data,
    l !! k = Some (m, t) /\
    sample_of m t = Some data /\
    In (movement_body data) (snd (receive (state_after st (take k l)) m t)) /\
    lastMovementEventRef (state_after st l) = t.
Proof.
  induction l as [|[m now] l IH] using rev_ind; [now left|].
  assert (Hr : lastMovementEventRef (state_after st (l ++ [(m, now)])) =
               match sample_of m now with
               | Some data =>
                   if any_exceeded (exceeded data) &&
                      (MOVEMENT_EVENT_COOLDOWN <? now - lastMovementEventRef (state_after st l))%Z
                   then now else lastMovementEventRef (state_after st l)
               | None => lastMovementEventRef (state_after st l)
               end).
  { rewrite state_after_snoc. unfold receive.
    destruct (sample_of m now); [apply handleSensorData_ref | reflexivity]. }
  rewrite Hr. clear Hr.
  assert (Hkeep : forall (k : nat) (mk : Message) (tk : Z) (dk : SensorData.t),
            l !! k = Some (mk, tk) ->
            In (movement_body dk) (snd (receive (state_after st (take k l)) mk tk)) ->
            (l ++ [(m, now)]) !! k = Some (mk, tk) /\
            In (movement_body dk)
              (snd (receive (state_after st (take k (l ++ [(m, now)]))) mk tk))).
  { intros k mk tk dk Hk Hin.
    assert (Hlt : k < length l) by (eapply lookup_lt_Some; eauto).
    split; [rewrite lookup_app_l by exact Hlt; exact Hk|].
    rewrite take_app_le by lia. exact Hin. }
  destruct (sample_of m now) as [data|] eqn:Hs.
  - destruct (any_exceeded (exceeded data) && _) eqn:Hmoved.
    + right. exists (length l), m, now, data.
      split; [apply list_lookup_middle; reflexivity|]. split; [exact Hs|].
      split; [|reflexivity].
      rewrite take_app_length. unfold receive. rewrite Hs, handleSensorData_posts, Hmoved.
      apply in_app_iff. right. now left.
    + destruct IH as [IH|(k & mk & tk & dk & Hk & Hsk & Hin & Href)]; [now left|].
      right. exists k, mk, tk, dk.
      destruct (Hkeep _ _ _ _ Hk Hin) as [H1 H2]. auto.
  - destruct IH as [IH|(k & mk & tk & dk & Hk & Hsk & Hin & Href)]; [now left|].
    right. exists k, mk, tk, dk.
    destruct (Hkeep _ _ _ _ Hk Hin) as [H1 H2]. auto.
Qed.

(** X9. No movement goes unreported for longer than the cooldown: when a
    handled sample exceeds a threshold, either a [movement_detected] event
    is posted for it, or one was posted for an earlier message of the run
    no more than 5000 ms before, or the reference the run started with is
    no more than 5000 ms old. *)
Theorem movement_is_reported_or_recent
  (st : Dashboard.t) (inputs : list (Message * Z)) (i : nat)
  (m : Message) (ti : Z) (data : SensorData.t) :
  inputs !! i = Some (m, ti) ->
  sample_of m ti = Some data ->
  any_exceeded (exceeded data) = true ->
  exists posts,
    snd (run st inputs) !! i = Some posts /\
    (In (movement_body data) posts \/
     (ti - lastMovementEventRef st <= 5000)%Z \/
     exists k mk tk dk earlier,
       k < i /\
       inputs !! k = Some (mk, tk) /\
       sample_of mk tk = Some dk /\
       snd (run st inputs) !! k = Some earlier /\
       In (movement_body dk) earlier /\
       (ti - tk <= 5000)%Z).
Proof.
  intros Hi Hs Hex. eexists. split; [apply (run_lookup _ _ _ _ _ Hi)|].
  unfold receive at 1. rewrite Hs, handleSensorData_posts, Hex. cbn [andb].
  set (before := state_after st (take i inputs)).
  destruct (MOVEMENT_EVENT_COOLDOWN <? ti - lastMovementEventRef before)%Z eqn:Hcool.
  - left. apply in_app_iff. right. now left.
  - right. apply Z.ltb_ge in Hcool. unfold MOVEMENT_EVENT_COOLDOWN in Hcool.
    destruct (ref_origin st (take i inputs)) as [Href|(k & mk & tk & dk & Hk & Hsk & Hin & Href)];
      fold before in Href.
    + left. lia.
    + right. assert (Hlt : k < i).
      { apply lookup_lt_Some in Hk. rewrite length_take in Hk. lia. }
      rewrite lookup_take_lt in Hk by exact Hlt.
      rewrite take_take, Nat.min_l in Hin by lia.
      exists k, mk, tk, dk. eexists.
      split; [exact Hlt|]. split; [exact Hk|]. split; [exact Hsk|].
      split; [apply (run_lookup _ _ _ _ _ Hk)|]. split; [exact Hin|]. lia.
Qed.

Lemma movement_is_reported_or_recent_witness :
  exists posts,
    snd (run Dashboard.init
           [Scenario.shake 100000; Scenario.spin 101000; Scenario.shake 104999]) !! 2 =
      Some posts /\
    (In (movement_body (SensorData.mk (Vec3.mk 6 0 9.8) zero3 104999)) posts \/
     (104999 - lastMovementEventRef Dashboard.init <= 5000)%Z \/
     exists k mk tk dk earlier,
       k < 2 /\
       [Scenario.shake 100000; Scenario.spin 101000; Scenario.shake 104999] !! k =
         Some (mk, tk) /\
       sample_of mk tk = Some dk /\
       snd (run Dashboard.init
              [Scenario.shake 100000; Scenario.spin 101000; Scenario.shake 104999]) !! k =
         Some earlier /\
       In (movement_body dk) earlier /\
       (104999 - tk <= 5000)%Z).
Proof.
  apply (movement_is_reported_or_recent Dashboard.init
           [Scenario.shake 100000; Scenario.spin 101000; Scenario.shake 104999] 2
           (fst (Scenario.shake 104999)) 104999);
    reflexivity.
Defined.

End DashboardRunTheorems.

(** *** The account routes *)

Section ApiFacts.

Variable jwtVerify : string -> option Auth.AuthPayload.

Lemma admin_token_spec token :
  Derived.admin_token jwtVerify token =
  JS.truthy token &&
  match Auth.verifyToken jwtVerify token with
  | Some payload => Auth.isAdmin payload
  | None => false
  end.
Proof.
  unfold Derived.admin_token, Auth.verifyToken.
  destruct token as [t|]; [|reflexivity]. cbn [JS.truthy default from_option id].
  destruct (String.eqb t ""); reflexivity.
Qed.


End ApiFacts.

Section ApiTheorems.
Import Api.

Variable jwtVerify : string -> option Auth.AuthPayload.
Variable hashPassword : string -> string.
Variable parseInt : string -> option Z.

Local Ltac gate Hadmin token :=
  rewrite admin_token_spec in Hadmin;
  destruct (JS.truthy token) eqn:?; cbn [negb andb] in Hadmin |- *;
  [destruct (Auth.verifyToken jwtVerify token) as [payload|] eqn:?;
   [rewrite Hadmin; cbn [negb] | try discriminate Hadmin]
  | try discriminate Hadmin].

(** X10. The four routes that read or write accounts and events for the
    dashboard answer 401 and write nothing unless the cookie holds a token
    that verifies to an administrator's payload: a missing or empty token, a
    token that does not verify and the token of an ordinary user are all
    refused before the storage is read. *)
Theorem account_routes_refuse_without_admin_token
  (st : Storage.t) (token limit name email password : option string)
  (isAdmin : option bool) (id : string) (now : Z) :
  Derived.admin_token jwtVerify token = false ->
  events_GET jwtVerify parseInt st token limit = unauthorized /\
  users_GET jwtVerify st token = unauthorized /\
  users_POST jwtVerify hashPassword st token name email password isAdmin now =
    (unauthorized, st) /\
  users_id_DELETE jwtVerify st token id = (unauthorized, st).
Proof.
  intros Hadmin. unfold events_GET, users_GET, users_POST, users_id_DELETE.
  gate Hadmin token; repeat split; reflexivity.
Qed.

Local Abbreviation emails st := (User.email <$> Storage.users st).

(** X11. For an administrator, [POST /api/users] stores a new account only
    when name, email and password are all given and no stored account has
    the email; otherwise it answers 400 and writes nothing. The stored
    account carries the hash of the password, is an administrator only if
    the body says so, is what the email resolves to afterwards, and its
    password hash is left out of the response. Accounts with distinct
    emails stay distinct. *)
Theorem users_POST_keeps_emails_unique
  (st : Storage.t) (token name email password : option string)
  (isAdmin : option bool) (now : Z) :
  Derived.admin_token jwtVerify token = true ->
  let r := users_POST jwtVerify hashPassword st token name email password isAdmin now in
  let complete := JS.truthy name && JS.truthy email && JS.truthy password in
  (complete = false ->
   r = (mkResponse 400 (Error "Name, email, and password are required"), st)) /\
  (forall existingUser,
      complete = true ->
      Accounts.getUserByEmail st (default "" email) = Some existingUser ->
      r = (mkResponse 400 (Error "User with this email already exists"), st)) /\
  (complete = true ->
   Accounts.getUserByEmail st (default "" email) = None ->
   let user :=
     User.mk (pretty now) (default "" name) (default "" email)
       (hashPassword (default "" password)) (default false isAdmin) None None None now in
   r = (mkResponse 200 (UserSaved (safe user)),
        Storage.mk (Storage.users st ++ [user]) (Storage.events st) (Storage.faces st)) /\
   Accounts.getUserByEmail (snd r) (default "" email) = Some user) /\
  (NoDup (emails st) -> NoDup (emails (snd r))).
Proof.
  intros Hadmin. cbv zeta. unfold users_POST. gate Hadmin token.
  destruct (JS.truthy name), (JS.truthy email), (JS.truthy password);
    cbn [negb orb andb];
    try (split; [reflexivity|]; split; [discriminate|]; split; [discriminate|]; auto).
  split; [discriminate|].
  destruct (Accounts.getUserByEmail st (default "" email)) as [existingUser|] eqn:Hfind.
  - split; [reflexivity|]. split; [discriminate|]. auto.
  - split; [discriminate|]. split.
    + intros _ _. unfold Accounts.createUser, Accounts.getUsers, JS.push. cbn [snd].
      split; [reflexivity|].
      unfold Accounts.getUserByEmail, Accounts.getUsers in *. cbn [Storage.users].
      rewrite find_app, Hfind. cbn. now rewrite String.eqb_refl.
    + intros Hnodup. unfold Accounts.createUser, Accounts.getUsers, JS.push.
      cbn [snd Storage.users]. rewrite fmap_app. cbn [fmap list_fmap User.email].
      apply NoDup_app. split; [exact Hnodup|]. split; [|apply NoDup_singleton].
      intros e He Hin. apply list_elem_of_singleton in Hin. subst e.
      apply list_elem_of_fmap in He. destruct He as (u & Heq & Hu).
      unfold Accounts.getUserByEmail, Accounts.getUsers in Hfind.
      apply list_elem_of_In in Hu.
      pose proof (proj1 (find_none_iff _ _) Hfind u Hu) as Hno. cbn in Hno.
      apply String.eqb_neq in Hno. cbn in Heq. congruence.
Qed.

(** X12. [POST /api/auth/init] asks for no token. Given name, email and
    password it creates an administrator whenever no stored account has the
    email, however many accounts and administrators there already are; a
    second call with the same email answers 400 and writes nothing. *)
Theorem init_POST_creates_an_admin_once
  (st : Storage.t) (name email password name2 password2 : option string) (t1 t2 : Z) :
  JS.truthy name = true -> JS.truthy email = true -> JS.truthy password = true ->
  let r1 := init_POST hashPassword st name email password t1 in
  let r2 := init_POST hashPassword (snd r1) name2 email password2 t2 in
  let admin :=
    User.mk (pretty t1) (default "" name) (default "" email)
      (hashPassword (default "" password)) true None None None t1 in
  (Accounts.getUserByEmail st (default "" email) = None ->
   r1 = (mkResponse 200 (AdminCreated "Admin user created successfully" (safe admin)),
         Storage.mk (Storage.users st ++ [admin]) (Storage.events st) (Storage.faces st)) /\
   Accounts.getUserByEmail (snd r1) (default "" email) = Some admin) /\
  (forall existingAdmin,
      Accounts.getUserByEmail st (default "" email) = Some existingAdmin ->
      r1 = (mkResponse 400 (Error "Admin user already exists"), st)) /\
  status (fst r2) = 400 /\
  snd r2 = snd r1.
Proof.
  intros Hn He Hp. cbv zeta.
  assert (Hlookup : forall st0 n p t,
            Accounts.getUserByEmail (snd (init_POST hashPassword st0 n email p t))
              (default "" email) <> None ->
            status (fst (init_POST hashPassword (snd (init_POST hashPassword st0 n email p t))
                           name2 email password2 t2)) = 400 /\
            snd (init_POST hashPassword (snd (init_POST hashPassword st0 n email p t))
                   name2 email password2 t2) =
            snd (init_POST hashPassword st0 n email p t)).
  { intros st0 n p t. set (st1 := snd (init_POST hashPassword st0 n email p t)).
    intros Hfound. unfold init_POST.
    destruct (negb (JS.truthy name2) || negb (JS.truthy email) || negb (JS.truthy password2));
      [split; reflexivity|].
    destruct (Accounts.getUserByEmail st1 (default "" email)); [split; reflexivity|].
    contradiction. }
  assert (Hcreated : Accounts.getUserByEmail st (default "" email) = None ->
            Accounts.getUserByEmail
              (Storage.mk (Storage.users st ++
                 [User.mk (pretty t1) (default "" name) (default "" email)
                    (hashPassword (default "" password)) true None None None t1])
                 (Storage.events st) (Storage.faces st)) (default "" email) =
            Some (User.mk (pretty t1) (default "" name) (default "" email)
                    (hashPassword (default "" password)) true None None None t1)).
  { intros Hfind. unfold Accounts.getUserByEmail, Accounts.getUsers in *. cbn [Storage.users].
    rewrite find_app, Hfind. cbn. now rewrite String.eqb_refl. }
  split; [|split].
  - intros Hfind. unfold init_POST. rewrite Hn, He, Hp, Hfind. cbn [negb orb].
    unfold Accounts.createUser, Accounts.getUsers, JS.push. cbn [snd].
    split; [reflexivity | now apply Hcreated].
  - intros existingAdmin Hfind. unfold init_POST. rewrite Hn, He, Hp, Hfind. reflexivity.
  - apply Hlookup. unfold init_POST. rewrite Hn, He, Hp. cbn [negb orb].
    destruct (Accounts.getUserByEmail st (default "" email)) as [u|] eqn:Hfind.
    + cbn [snd]. rewrite Hfind. discriminate.
    + unfold Accounts.createUser, Accounts.getUsers, JS.push. cbn [snd].
      match goal with
      | |- ?lookup <> None =>
          enough (exists a, lookup = Some a) as [a Ha] by (rewrite Ha; discriminate)
      end.
      eexists. apply Hcreated. reflexivity.
Qed.


End ApiTheorems.

(** *** Enrolment *)

Section EnrolmentFacts.
Import Enrolment.

Variable hashPassword : string -> string.

Local Abbreviation ids st := (User.id <$> Storage.users st).

Lemma ids_updateUser st id updates :
  ids (snd (Storage.updateUser st id updates)) = ids st.
Proof.
  unfold Storage.updateUser.
  destruct (list_find _ _) as [[index u]|] eqn:Hfind; [|reflexivity].
  apply list_find_Some in Hfind. destruct Hfind as (Hlook & _ & _).
  cbn [snd Storage.users]. rewrite list_fmap_insert.
  apply list_insert_id. rewrite list_lookup_fmap, Hlook. reflexivity.
Qed.

Lemma getUserById_id st id u : Storage.getUserById st id = Some u -> User.id u = id.
Proof.
  unfold Storage.getUserById. intros H. apply find_some in H.
  destruct H as [_ H]. now apply String.eqb_eq in H.
Qed.

Lemma getUserById_absent st id : Storage.getUserById st id = None -> id ∉ ids st.
Proof.
  unfold Storage.getUserById. intros H Hin.
  apply list_elem_of_fmap in Hin. destruct Hin as (u & -> & Hu).
  apply list_elem_of_In in Hu.
  pose proof (proj1 (find_none_iff _ _) H u Hu) as Hno. cbn in Hno.
  now rewrite String.eqb_refl in Hno.
Qed.

Lemma getUserById_writeUser st u id :
  Storage.getUserById (writeUser st u) id =
  match Storage.getUserById st id with
  | Some older => Some older
  | None => if String.eqb (User.id u) id then Some u else None
  end.
Proof.
  unfold Storage.getUserById, writeUser, Accounts.getUsers, JS.push. cbn [Storage.users].
  rewrite find_app. destruct (find _ (Storage.users st)); reflexivity.
Qed.

(** What saving a template leaves of the accounts: the same ids, and the
    same account under an id except for its reference to the descriptor. *)
Lemma saveFaceData_accounts st userId descriptor image now :
  let st1 := Storage.saveFaceData st userId descriptor image now in
  ids st1 = ids st /\
  Storage.events st1 = Storage.events st /\
  (Storage.getUserById st userId = None -> Storage.getUserById st1 userId = None) /\
  (forall u, Storage.getUserById st userId = Some u ->
     exists u1, Storage.getUserById st1 userId = Some u1 /\
                User.name u1 = User.name u /\ User.pinHash u1 = User.pinHash u /\
                User.voicePhrase u1 = User.voicePhrase u).
Proof.
  cbv zeta. unfold Storage.saveFaceData.
  set (st0 := Storage.mk _ _ _).
  set (up := UserUpdate.mk _ _ _ _ _ _ _).
  assert (Hlook : forall id, Storage.getUserById st0 id = Storage.getUserById st id)
    by reflexivity.
  split; [apply (ids_updateUser st0)|]. split; [apply (updateUser_frame st0)|]. split.
  - intros Hnone. rewrite <- Hlook in Hnone.
    rewrite (updateUser_missing _ _ up Hnone). exact Hnone.
  - intros u Hu. rewrite <- Hlook in Hu.
    destruct (updateUser_found _ _ up _ Hu) as [_ Hfound].
    eexists. split; [exact Hfound|]. repeat split; reflexivity.
Qed.

Lemma saveDescriptor_accounts st userId descriptor now st1 :
  saveDescriptor st userId descriptor now = Some st1 ->
  ids st1 = ids st /\
  Storage.events st1 = Storage.events st /\
  (Storage.getUserById st userId = None -> Storage.getUserById st1 userId = None) /\
  (forall u, Storage.getUserById st userId = Some u ->
     exists u1, Storage.getUserById st1 userId = Some u1 /\
                User.name u1 = User.name u /\ User.pinHash u1 = User.pinHash u /\
                User.voicePhrase u1 = User.voicePhrase u).
Proof.
  unfold saveDescriptor, FaceMatcher.saveFaceData.
  destruct descriptor as [d|].
  - destruct (length _ =? 0); [discriminate|]. intros [= <-].
    apply saveFaceData_accounts.
  - intros [= <-]. repeat split; auto. intros u Hu. exists u. auto.
Qed.

Lemma saveDescriptor_refuses st userId descriptor now :
  saveDescriptor st userId descriptor now = None <-> descriptor = Some [].
Proof.
  unfold saveDescriptor, FaceMatcher.saveFaceData.
  destruct descriptor as [[|v d]|]; cbn; split; congruence.
Qed.

Lemma ensureUser_spec st userId pin voicePhrase now :
  let st' := ensureUser hashPassword st userId pin voicePhrase now in
  Storage.events st' = Storage.events st /\
  Storage.faces st' = Storage.faces st /\
  (forall u, Storage.getUserById st userId = Some u -> st' = st) /\
  (JS.truthy pin || JS.truthy voicePhrase = false -> st' = st) /\
  (Storage.getUserById st userId = None ->
   JS.truthy pin || JS.truthy voicePhrase = true ->
   Storage.users st' = Storage.users st ++ [newUser hashPassword userId None None now] /\
   Storage.getUserById st' userId = Some (newUser hashPassword userId None None now)).
Proof.
  cbv zeta. unfold ensureUser.
  destruct (Storage.getUserById st userId) as [u|] eqn:Hu.
  - repeat split; auto; discriminate.
  - destruct (JS.truthy pin || JS.truthy voicePhrase).
    + split; [reflexivity|]. split; [reflexivity|]. split; [discriminate|].
      split; [discriminate|]. intros _ _. split; [reflexivity|].
      rewrite getUserById_writeUser, Hu. cbn. now rewrite String.eqb_refl.
    + repeat split; auto; discriminate.
Qed.

Lemma savePin_spec st userId pin now u :
  Storage.getUserById st userId = Some u ->
  let st' := savePin hashPassword st userId pin now in
  ids st' = ids st /\
  Storage.events st' = Storage.events st /\
  Storage.faces st' = Storage.faces st /\
  exists u', Storage.getUserById st' userId = Some u' /\
             User.name u' = User.name u /\
             User.voicePhrase u' = User.voicePhrase u /\
             User.pinHash u' =
               if JS.truthy pin then Some (hashPassword (default "" pin)) else User.pinHash u.
Proof.
  intros Hu. cbv zeta. unfold savePin. destruct (JS.truthy pin).
  - rewrite Hu. split; [apply ids_updateUser|].
    split; [apply updateUser_frame|]. split; [apply updateUser_frame|].
    eexists. split; [apply (updateUser_found _ _ _ _ Hu)|]. repeat split; reflexivity.
  - repeat split; auto. exists u. auto.
Qed.

Lemma saveVoicePhrase_spec st userId voicePhrase now u :
  Storage.getUserById st userId = Some u ->
  let st' := saveVoicePhrase hashPassword st userId voicePhrase now in
  ids st' = ids st /\
  Storage.events st' = Storage.events st /\
  Storage.faces st' = Storage.faces st /\
  exists u', Storage.getUserById st' userId = Some u' /\
             User.name u' = User.name u /\
             User.pinHash u' = User.pinHash u /\
             User.voicePhrase u' =
               if JS.truthy voicePhrase then voicePhrase else User.voicePhrase u.
Proof.
  intros Hu. cbv zeta. unfold saveVoicePhrase. destruct (JS.truthy voicePhrase) eqn:Ht.
  - rewrite Hu. split; [apply ids_updateUser|].
    split; [apply updateUser_frame|]. split; [apply updateUser_frame|].
    eexists. split; [apply (updateUser_found _ _ _ _ Hu)|].
    destruct voicePhrase as [v|]; [|discriminate Ht]. repeat split; reflexivity.
  - repeat split; auto. exists u. auto.
Qed.

Lemma logSetup_spec st userId pin voicePhrase now :
  let st' := logSetup st userId pin voicePhrase now in
  Storage.users st' = Storage.users st /\
  Storage.faces st' = Storage.faces st /\
  Storage.events st' =
    if JS.truthy pin || JS.truthy voicePhrase
    then Storage.getEvents st None ++
         [Event.mk (pretty now) "setup" (Some userId)
            (User.name <$> Storage.getUserById st userId) now
            (Some [("hasPin", JBool (JS.truthy pin));
                   ("hasVoicePhrase", JBool (JS.truthy voicePhrase))])]
    else Storage.events st.
Proof.
  cbv zeta. unfold logSetup. destruct (JS.truthy pin || JS.truthy voicePhrase);
    repeat split; reflexivity.
Qed.

(** The account an accepted request leaves under the id when it carries a
    PIN or a phrase, and what it does to the ids and the events. *)
Lemma register_accepted st userId descriptor pin voicePhrase now st1 :
  saveDescriptor st userId descriptor now = Some st1 ->
  let given := JS.truthy pin || JS.truthy voicePhrase in
  let st' :=
    logSetup
      (saveVoicePhrase hashPassword
         (savePin hashPassword (ensureUser hashPassword st1 userId pin voicePhrase now)
            userId pin now)
         userId voicePhrase now)
      userId pin voicePhrase now in
  Storage.faces st' = Storage.faces st1 /\
  (given = false -> st' = st1) /\
  (ids st' = ids st \/
   Storage.getUserById st userId = None /\ given = true /\ ids st' = ids st ++ [userId]) /\
  (given = true ->
   exists u name,
     Storage.getUserById st' userId = Some u /\
     User.name u = name /\
     (forall old, Storage.getUserById st userId = Some old -> name = User.name old) /\
     (Storage.getUserById st userId = None -> name = "User " +:+ userId) /\
     (JS.truthy pin = true -> User.pinHash u = Some (hashPassword (default "" pin))) /\
     (JS.truthy voicePhrase = true -> User.voicePhrase u = voicePhrase) /\
     Storage.events st' =
       Storage.getEvents st None ++
       [Event.mk (pretty now) "setup" (Some userId) (Some name) now
          (Some [("hasPin", JBool (JS.truthy pin));
                 ("hasVoicePhrase", JBool (JS.truthy voicePhrase))])]).
Proof.
  intros Hsaved. cbv zeta.
  destruct (saveDescriptor_accounts _ _ _ _ _ Hsaved) as (Hids1 & Hev1 & Hnone1 & Hsome1).
  pose proof (ensureUser_spec st1 userId pin voicePhrase now) as He. cbv zeta in He.
  destruct He as (Hev2 & Hf2 & Hkeep2 & Hidle2 & Hnew2).
  set (st2 := ensureUser hashPassword st1 userId pin voicePhrase now) in *.
  destruct (JS.truthy pin || JS.truthy voicePhrase) eqn:Hgiven.
  - (* an account exists after the second block *)
    assert (Hu2 : exists u2,
               Storage.getUserById st2 userId = Some u2 /\
               User.pinHash u2 = User.pinHash u2 /\
               (forall old, Storage.getUserById st userId = Some old ->
                  User.name u2 = User.name old /\ ids st2 = ids st) /\
               (Storage.getUserById st userId = None ->
                  User.name u2 = "User " +:+ userId /\ ids st2 = ids st ++ [userId])).
    { destruct (Storage.getUserById st userId) as [old|] eqn:Hold.
      - destruct (Hsome1 old eq_refl) as (u1 & Hu1 & Hn1 & _).
        rewrite (Hkeep2 u1 Hu1). exists u1. split; [exact Hu1|]. split; [reflexivity|].
        split; [|discriminate]. intros old' [= <-]. auto.
      - destruct (Hnew2 (Hnone1 eq_refl) eq_refl) as [Husers Hlook].
        eexists. split; [exact Hlook|]. split; [reflexivity|].
        split; [discriminate|]. intros _. split; [reflexivity|].
        rewrite Husers, fmap_app, Hids1. reflexivity. }
    destruct Hu2 as (u2 & Hu2 & _ & Hold2 & Hfresh2).
    pose proof (savePin_spec st2 userId pin now u2 Hu2) as Hp. cbv zeta in Hp.
    destruct Hp as (Hids3 & Hev3 & Hf3 & u3 & Hu3 & Hn3 & Hv3 & Hp3).
    set (st3 := savePin hashPassword st2 userId pin now) in *.
    pose proof (saveVoicePhrase_spec st3 userId voicePhrase now u3 Hu3) as Hv. cbv zeta in Hv.
    destruct Hv as (Hids4 & Hev4 & Hf4 & u4 & Hu4 & Hn4 & Hp4 & Hv4).
    set (st4 := saveVoicePhrase hashPassword st3 userId voicePhrase now) in *.
    pose proof (logSetup_spec st4 userId pin voicePhrase now) as Hl. cbv zeta in Hl.
    rewrite Hgiven in Hl. destruct Hl as (Hus5 & Hf5 & Hev5).
    set (st5 := logSetup st4 userId pin voicePhrase now) in *.
    split; [congruence|]. split; [discriminate|]. split.
    + rewrite Hus5, Hids4, Hids3.
      destruct (Storage.getUserById st userId) as [old|] eqn:Hold.
      * left. now apply (Hold2 old).
      * right. split; [reflexivity|]. split; [reflexivity|]. now apply Hfresh2.
    + intros _. exists u4, (User.name u4).
      split; [unfold Storage.getUserById in *; rewrite Hus5; exact Hu4|].
      split; [reflexivity|].
      split; [intros old Hold; rewrite Hn4, Hn3; now apply (Hold2 old)|].
      split; [intros Hold; rewrite Hn4, Hn3; now apply Hfresh2|].
      split; [intros Ht; rewrite Hp4, Hp3, Ht; reflexivity|].
      split; [intros Ht; rewrite Hv4, Ht; reflexivity|].
      rewrite Hev5, Hu4. cbn [fmap option_fmap option_map].
      unfold Storage.getEvents. rewrite Hev4, Hev3, Hev2, Hev1. reflexivity.
  - apply orb_false_iff in Hgiven. destruct Hgiven as [Hpin Hphrase].
    assert (H2 : st2 = st1) by (apply Hidle2; reflexivity).
    unfold logSetup, saveVoicePhrase, savePin. rewrite Hpin, Hphrase, H2. cbn [orb].
    split; [reflexivity|]. split; [reflexivity|]. split; [now left | discriminate].
Qed.

End EnrolmentFacts.

Section MatcherRoundTrip.

(** A descriptor computed by the browser: finite binary32 values. *)
Local Abbreviation exact32 d :=
  (Forall (fun v => PrimFloat.is_finite v = true /\ JS.fround v = v) d).

Lemma of_array_exact32 d : exact32 d -> Float32Array.of_array d = Float32Array.mk d.
Proof.
  intros H. unfold Float32Array.of_array. f_equal.
  induction H as [|v d [_ Hv] _ IH]; [reflexivity|]. cbn. now rewrite Hv, IH.
Qed.

Lemma sum_squares_self d :
  Forall (fun v => PrimFloat.is_finite v = true) d ->
  FaceMatcher.sum_squares d d 0 = 0%float.
Proof.
  induction 1 as [|v d Hv _ IH]; [reflexivity|].
  cbn [FaceMatcher.sum_squares]. rewrite (sub_diag_finite v Hv). exact IH.
Qed.

(** A template is at distance 0 from the descriptor it was made of. *)
Lemma distance_to_self d userId image createdAt :
  exact32 d ->
  Spec.distance_to (FaceMatcher.NumberArray d) (FaceData.mk userId d image createdAt) = 0%float.
Proof.
  intros H. unfold Spec.distance_to, FaceMatcher.toFloat32Array. cbn [FaceData.descriptor].
  rewrite (of_array_exact32 d H). unfold FaceMatcher.euclidean. cbn [Float32Array.values].
  rewrite sum_squares_self; [reflexivity|].
  eapply Forall_impl; [exact H|]. now intros v [Hv _].
Qed.

Lemma saved_face_stored st userId descriptor image now :
  let faceData := FaceData.mk userId (Float32Array.to_array descriptor) image now in
  let faces' := Storage.faces (Storage.saveFaceData st userId descriptor image now) in
  In faceData faces' /\
  (forall face, In face faces' -> face = faceData \/ In face (Storage.faces st)).
Proof.
  cbv zeta. rewrite faces_saveFaceData. cbv zeta.
  destruct (list_find _ _) as [[i old]|] eqn:Hfind.
  - apply list_find_Some in Hfind. destruct Hfind as (Hlook & _ & _).
    assert (Hlt : i < length (Storage.faces st)) by (eapply lookup_lt_Some; eauto).
    split.
    + apply list_elem_of_In. eapply list_elem_of_lookup_2.
      apply list_lookup_insert_eq. exact Hlt.
    + intros face Hin. apply list_elem_of_In, list_elem_of_lookup_1 in Hin.
      destruct Hin as [j Hj]. destruct (decide (i = j)) as [<-|Hne].
      * rewrite list_lookup_insert_eq in Hj by exact Hlt. injection Hj as <-. now left.
      * rewrite list_lookup_insert_ne in Hj by exact Hne. right.
        eapply list_elem_of_In, list_elem_of_lookup_2; eauto.
  - split; [apply in_app_iff; right; now left|].
    intros face Hin. apply in_app_iff in Hin. destruct Hin as [Hin|[<-|[]]]; auto.
Qed.

(** A face whose template is at distance 0 is matched, at a distance that
    is not above 0; it is matched to that template's user when no other
    stored template is below the threshold. *)
Lemma template_at_zero_is_matched st descriptor face :
  In face (Storage.faces st) ->
  Spec.distance_to descriptor face = 0%float ->
  exists m,
    FaceMatcher.recognizeFaceFromDescriptor st descriptor = Some m /\
    PrimFloat.ltb 0 (FaceMatcher.distance m) = false /\
    ((forall other, In other (Storage.faces st) ->
        PrimFloat.ltb (Spec.distance_to descriptor other) FaceMatcher.threshold = true ->
        other = face) ->
     m = FaceMatcher.mkMatch (FaceData.userId face) 0).
Proof.
  intros Hin Hzero.
  pose proof (matching_loop_nearest (Spec.distance_to descriptor) (Storage.faces st)) as Hn.
  change (fold_left _ (Storage.faces st) None)
    with (FaceMatcher.recognizeFaceFromDescriptor st descriptor) in Hn.
  assert (Hbelow : PrimFloat.ltb (Spec.distance_to descriptor face) FaceMatcher.threshold = true)
    by (rewrite Hzero; reflexivity).
  destruct (FaceMatcher.recognizeFaceFromDescriptor st descriptor) as [m|].
  - destruct Hn as (i & best & Hi & -> & Hlt & Hmin & _).
    exists (FaceMatcher.mkMatch (FaceData.userId best) (Spec.distance_to descriptor best)).
    split; [reflexivity|]. split.
    + cbn [FaceMatcher.distance]. rewrite <- Hzero. now apply Hmin.
    + intros Hothers. rewrite (Hothers best); [now rewrite Hzero| |exact Hlt].
      eapply list_elem_of_In, list_elem_of_lookup_2; eauto.
  - rewrite (Hn face Hin) in Hbelow. discriminate Hbelow.
Qed.

End MatcherRoundTrip.

Section EnrolmentTheorems.
Import Enrolment.

Variable hashPassword : string -> string.
Variable verifyPassword : string -> string -> bool.

Local Abbreviation ids st := (User.id <$> Storage.users st).
Local Abbreviation register := (register_POST hashPassword).

Lemma register_POST_accepted st userId descriptor pin voicePhrase now st1 :
  JS.truthy userId = true ->
  saveDescriptor st (default "" userId) descriptor now = Some st1 ->
  register st userId descriptor pin voicePhrase now =
  (Response.mk 200 Response.Success,
   logSetup
     (saveVoicePhrase hashPassword
        (savePin hashPassword
           (ensureUser hashPassword st1 (default "" userId) pin voicePhrase now)
           (default "" userId) pin now)
        (default "" userId) voicePhrase now)
     (default "" userId) pin voicePhrase now).
Proof.
  intros Hid Hsaved. unfold register_POST. rewrite Hid, Hsaved. reflexivity.
Qed.

Lemma saveDescriptor_accepts st userId descriptor now :
  descriptor <> Some [] -> exists st1, saveDescriptor st userId descriptor now = Some st1.
Proof.
  intros Hd. destruct (saveDescriptor st userId descriptor now) as [st1|] eqn:E; [eauto|].
  apply saveDescriptor_refuses in E. contradiction.
Qed.

(** A request without a descriptor leaves the face templates alone. *)
Lemma register_faces_kept st userId pin voicePhrase now :
  Storage.faces (snd (register st userId None pin voicePhrase now)) = Storage.faces st.
Proof.
  destruct (JS.truthy userId) eqn:Hid.
  - rewrite (register_POST_accepted st userId None pin voicePhrase now st Hid eq_refl).
    cbn [snd].
    apply (register_accepted hashPassword st (default "" userId) None pin voicePhrase now st
             eq_refl).
  - unfold register_POST. now rewrite Hid.
Qed.

(** An accepted request with a descriptor saves it with [saveFaceData]. *)
Lemma register_faces st userId d pin voicePhrase now :
  JS.truthy userId = true ->
  d <> [] ->
  Storage.faces (snd (register st userId (Some d) pin voicePhrase now)) =
  Storage.faces
    (Storage.saveFaceData st (default "" userId) (Float32Array.of_array d) None now).
Proof.
  intros Hid Hd.
  assert (Hd' : Some d <> Some []) by congruence.
  destruct (saveDescriptor_accepts st (default "" userId) (Some d) now Hd') as [st1 Hsaved].
  rewrite (register_POST_accepted _ _ _ _ _ _ _ Hid Hsaved). cbn [fst snd].
  pose proof (register_accepted hashPassword st (default "" userId) (Some d) pin
                voicePhrase now st1 Hsaved) as H.
  cbv zeta in H. destruct H as (Hfaces & _). rewrite Hfaces.
  unfold saveDescriptor, FaceMatcher.saveFaceData in Hsaved.
  cbn [FaceMatcher.toFloat32Array] in Hsaved.
  destruct (length _ =? 0); [discriminate Hsaved|]. now injection Hsaved as <-.
Qed.

(** An accepted request with a descriptor of finite binary32 values stores
    it as the template of the id, next to templates that were there. *)
Lemma register_faces_enrolled st userId d pin voicePhrase now :
  JS.truthy userId = true ->
  d <> [] ->
  Forall (fun v => PrimFloat.is_finite v = true /\ JS.fround v = v) d ->
  let faces' := Storage.faces (snd (register st userId (Some d) pin voicePhrase now)) in
  let template := FaceData.mk (default "" userId) d None now in
  In template faces' /\
  (forall face, In face faces' -> face = template \/ In face (Storage.faces st)).
Proof.
  intros Hid Hd Hexact. cbv zeta. rewrite (register_faces _ _ _ _ _ _ Hid Hd).
  pose proof (saved_face_stored st (default "" userId) (Float32Array.of_array d) None now)
    as Hstored.
  cbv zeta in Hstored. rewrite (of_array_exact32 d Hexact) in Hstored.
  cbn [Float32Array.to_array Float32Array.values] in Hstored.
  rewrite (of_array_exact32 d Hexact). exact Hstored.
Qed.

(** What a request does to the ids of the accounts. *)
Lemma register_ids st userId descriptor pin voicePhrase now :
  ids (snd (register st userId descriptor pin voicePhrase now)) = ids st \/
  Storage.getUserById st (default "" userId) = None /\
  JS.truthy pin || JS.truthy voicePhrase = true /\
  ids (snd (register st userId descriptor pin voicePhrase now)) =
    ids st ++ [default "" userId].
Proof.
  destruct (JS.truthy userId) eqn:Hid.
  - destruct (saveDescriptor st (default "" userId) descriptor now) as [st1|] eqn:Hsaved.
    + rewrite (register_POST_accepted _ _ _ _ _ _ _ Hid Hsaved). cbn [snd].
      apply (register_accepted hashPassword st (default "" userId) descriptor pin
               voicePhrase now st1 Hsaved).
    + left. unfold register_POST. now rewrite Hid, Hsaved.
  - left. unfold register_POST. now rewrite Hid.
Qed.

(** The matcher reads the face templates only. *)
Lemma recognize_reads_faces st1 st2 descriptor :
  Storage.faces st1 = Storage.faces st2 ->
  FaceMatcher.recognizeFaceFromDescriptor st1 descriptor =
  FaceMatcher.recognizeFaceFromDescriptor st2 descriptor.
Proof.
  intros H. unfold FaceMatcher.recognizeFaceFromDescriptor, Storage.getFaceData.
  now rewrite H.
Qed.

(** A face enrolled where it matched nobody is matched to its own id. *)
Lemma enrolled_face_matches_its_id st userId d pin voicePhrase now :
  JS.truthy userId = true ->
  d <> [] ->
  Forall (fun v => PrimFloat.is_finite v = true /\ JS.fround v = v) d ->
  let st' := snd (register st userId (Some d) pin voicePhrase now) in
  exists m,
    FaceMatcher.recognizeFaceFromDescriptor st' (FaceMatcher.NumberArray d) = Some m /\
    PrimFloat.ltb 0 (FaceMatcher.distance m) = false /\
    (FaceMatcher.recognizeFaceFromDescriptor st (FaceMatcher.NumberArray d) = None ->
     m = FaceMatcher.mkMatch (default "" userId) 0).
Proof.
  intros Hid Hd Hexact. cbv zeta.
  pose proof (register_faces_enrolled st userId d pin voicePhrase now Hid Hd Hexact) as H.
  cbv zeta in H. destruct H as [Hin Hfrom].
  destruct (template_at_zero_is_matched _ (FaceMatcher.NumberArray d) _ Hin
              (distance_to_self d _ _ _ Hexact)) as (m & Hm & Hnear & Honly).
  exists m. split; [exact Hm|]. split; [exact Hnear|].
  intros Hnobody. apply Honly. intros other Hother Hbelow.
  destruct (Hfrom other Hother) as [->|Hold]; [reflexivity|].
  pose proof (matching_loop_nearest (Spec.distance_to (FaceMatcher.NumberArray d))
                (Storage.faces st)) as Hn.
  change (fold_left _ (Storage.faces st) None)
    with (FaceMatcher.recognizeFaceFromDescriptor st (FaceMatcher.NumberArray d)) in Hn.
  rewrite Hnobody in Hn. rewrite (Hn other Hold) in Hbelow. discriminate Hbelow.
Qed.

(** An accepted request with a PIN leaves an account under the id that
    holds the hash of the PIN. *)
Lemma register_stores_pin st userId descriptor pin voicePhrase now :
  JS.truthy userId = true ->
  JS.truthy pin = true ->
  descriptor <> Some [] ->
  exists user,
    Storage.getUserById (snd (register st userId descriptor pin voicePhrase now))
      (default "" userId) = Some user /\
    User.pinHash user = Some (hashPassword (default "" pin)) /\
    (JS.truthy voicePhrase = true -> User.voicePhrase user = voicePhrase) /\
    (Storage.getUserById st (default "" userId) = None ->
     User.name user = "User " +:+ default "" userId).
Proof.
  intros Hid Hpin Hd.
  destruct (saveDescriptor_accepts st (default "" userId) descriptor now Hd) as [st1 Hsaved].
  rewrite (register_POST_accepted _ _ _ _ _ _ _ Hid Hsaved). cbn [fst snd].
  pose proof (register_accepted hashPassword st (default "" userId) descriptor pin
                voicePhrase now st1 Hsaved) as H.
  cbv zeta in H. destruct H as (_ & _ & _ & Hgiven).
  rewrite Hpin in Hgiven.
  destruct (Hgiven eq_refl) as (u & name & Hu & Hname & _ & Hnew & Hp & Hv & _).
  exists u. split; [exact Hu|]. split; [now apply Hp|]. split; [exact Hv|].
  intros Hnone. rewrite Hname. now apply Hnew.
Qed.

(** X14. [POST /api/face/register] answers 400 and writes nothing when the
    user id is missing or empty, and when the descriptor is an empty array,
    whatever else the body holds. Every other request is accepted. An
    accepted request that carries a PIN or a phrase appends exactly one
    [setup] event, which names the account and tells which of the two were
    given; one that carries neither logs nothing and creates no account. *)
Theorem register_POST_refuses_and_logs
  (st : Storage.t) (userId : option string) (descriptor : option (list float))
  (pin voicePhrase : option string) (now : Z) :
  let r := register st userId descriptor pin voicePhrase now in
  let id := default "" userId in
  let given := JS.truthy pin || JS.truthy voicePhrase in
  (JS.truthy userId = false ->
   r = (Response.mk 400 (Response.Error "UserId is required"), st)) /\
  (JS.truthy userId = true -> descriptor = Some [] ->
   r = (Response.mk 400 (Response.Error "Invalid descriptor"), st)) /\
  (JS.truthy userId = true -> descriptor <> Some [] ->
   fst r = Response.mk 200 Response.Success /\
   (given = false ->
    Storage.events (snd r) = Storage.events st /\ ids (snd r) = ids st) /\
   (given = true ->
    exists name,
      Storage.events (snd r) =
        Storage.getEvents st None ++
        [Event.mk (pretty now) "setup" (Some id) (Some name) now
           (Some [("hasPin", JBool (JS.truthy pin));
                  ("hasVoicePhrase", JBool (JS.truthy voicePhrase))])] /\
      (forall old, Storage.getUserById st id = Some old -> name = User.name old) /\
      (Storage.getUserById st id = None -> name = "User " +:+ id))).
Proof.
  cbv zeta. split; [|split].
  - intros Hid. unfold register_POST. now rewrite Hid.
  - intros Hid ->. unfold register_POST. rewrite Hid. reflexivity.
  - intros Hid Hd.
    destruct (saveDescriptor_accepts st (default "" userId) descriptor now Hd) as [st1 Hsaved].
    rewrite (register_POST_accepted _ _ _ _ _ _ _ Hid Hsaved). cbn [fst snd].
    pose proof (register_accepted hashPassword st (default "" userId) descriptor pin
                  voicePhrase now st1 Hsaved) as H.
    cbv zeta in H. destruct H as (_ & Hidle & _ & Hgiven).
    destruct (saveDescriptor_accounts _ _ _ _ _ Hsaved) as (Hids1 & Hev1 & _).
    split; [reflexivity|]. split.
    + intros Hno. rewrite (Hidle Hno). auto.
    + intros Hyes. destruct (Hgiven Hyes) as (u & name & _ & _ & Hold & Hnew & _ & _ & Hev).
      exists name. auto.
Qed.

(** X15. The route never stores two accounts under one id: the ids of the
    accounts after a request are the ids before it, followed by the
    request's id when that id had no account and the request carries a PIN
    or a phrase. The branches of the source that create an account while
    saving the PIN or the phrase are never taken. *)
Theorem register_POST_keeps_ids_distinct
  (st : Storage.t) (userId : option string) (descriptor : option (list float))
  (pin voicePhrase : option string) (now : Z) :
  let r := register st userId descriptor pin voicePhrase now in
  let id := default "" userId in
  (ids (snd r) = ids st \/
   Storage.getUserById st id = None /\
   JS.truthy pin || JS.truthy voicePhrase = true /\
   ids (snd r) = ids st ++ [id]) /\
  (NoDup (ids st) -> NoDup (ids (snd r))).
Proof.
  cbv zeta.
  pose proof (register_ids st userId descriptor pin voicePhrase now) as Hids.
  split; [exact Hids|].
  intros Hnodup. destruct Hids as [->|(Hnone & _ & ->)]; [exact Hnodup|].
  apply NoDup_app. split; [exact Hnodup|]. split; [|apply NoDup_singleton].
  intros x Hx Hin. apply list_elem_of_singleton in Hin. subst x.
  now apply getUserById_absent in Hnone.
Qed.

(** X16. A PIN that was registered verifies: after an accepted request that
    carries a PIN, the account under the id holds the hash of that PIN (and
    the phrase, when one was given), and [POST /api/face/verify-pin] with
    the same id and PIN answers 200 and writes nothing, provided bcrypt
    accepts a password against its own hash and hashes are not empty. *)
Theorem registered_pin_verifies
  (st : Storage.t) (userId : option string) (descriptor : option (list float))
  (pin voicePhrase : option string) (now later : Z) :
  JS.truthy userId = true ->
  JS.truthy pin = true ->
  descriptor <> Some [] ->
  verifyPassword (default "" pin) (hashPassword (default "" pin)) = true ->
  hashPassword (default "" pin) <> "" ->
  let r := register st userId descriptor pin voicePhrase now in
  fst r = Response.mk 200 Response.Success /\
  (exists user,
      Storage.getUserById (snd r) (default "" userId) = Some user /\
      User.pinHash user = Some (hashPassword (default "" pin)) /\
      (JS.truthy voicePhrase = true -> User.voicePhrase user = voicePhrase)) /\
  Routes.verify_pin_POST verifyPassword (snd r) userId pin later =
    (Response.mk 200 Response.Success, snd r).
Proof.
  intros Hid Hpin Hd Hbcrypt Hhash. cbv zeta.
  destruct (register_stores_pin st userId descriptor pin voicePhrase now Hid Hpin Hd)
    as (u & Hu & Hp & Hv & _).
  destruct (saveDescriptor_accepts st (default "" userId) descriptor now Hd) as [st1 Hsaved].
  split; [now rewrite (register_POST_accepted _ _ _ _ _ _ _ Hid Hsaved)|].
  split; [exists u; auto|].
  set (st' := snd (register st userId descriptor pin voicePhrase now)) in *.
  unfold Routes.verify_pin_POST. rewrite Hid, Hpin, Hu, Hp. cbn [negb orb].
  cbn [JS.truthy default from_option id].
  replace (String.eqb (hashPassword (default "" pin)) "") with false
    by (symmetry; now apply String.eqb_neq).
  cbn [negb]. now rewrite Hbcrypt.
Qed.

(** X17. A face that was enrolled is recognized: after an accepted request
    that carries a descriptor of finite binary32 values, that very
    descriptor is matched, at a distance that is not above 0, and
    [POST /api/face/recognize] answers 200. It is matched to the enrolled
    id when it matched nobody before the enrolment. *)
Theorem enrolled_face_is_recognized
  (st : Storage.t) (userId : option string) (d : list float)
  (pin voicePhrase : option string) (now later : Z) :
  JS.truthy userId = true ->
  d <> [] ->
  Forall (fun v => PrimFloat.is_finite v = true /\ JS.fround v = v) d ->
  let r := register st userId (Some d) pin voicePhrase now in
  let id := default "" userId in
  fst r = Response.mk 200 Response.Success /\
  In (FaceData.mk id d None now) (Storage.faces (snd r)) /\
  exists m,
    FaceMatcher.recognizeFaceFromDescriptor (snd r) (FaceMatcher.NumberArray d) = Some m /\
    PrimFloat.ltb 0 (FaceMatcher.distance m) = false /\
    Routes.recognize_POST (snd r) (Some d) later =
      (Response.mk 200
         (Response.Recognized (FaceMatcher.userId m)
            (User.name <$> Storage.getUserById (snd r) (FaceMatcher.userId m))
            (FaceMatcher.distance m)),
       snd r) /\
    (FaceMatcher.recognizeFaceFromDescriptor st (FaceMatcher.NumberArray d) = None ->
     m = FaceMatcher.mkMatch id 0).
Proof.
  intros Hid Hd Hexact. cbv zeta.
  assert (Hd' : Some d <> Some []) by congruence.
  destruct (saveDescriptor_accepts st (default "" userId) (Some d) now Hd') as [st1 Hsaved].
  split; [now rewrite (register_POST_accepted _ _ _ _ _ _ _ Hid Hsaved)|].
  split; [apply (register_faces_enrolled st userId d pin voicePhrase now Hid Hd Hexact)|].
  destruct (enrolled_face_matches_its_id st userId d pin voicePhrase now Hid Hd Hexact)
    as (m & Hm & Hnear & Honly).
  exists m. split; [exact Hm|]. split; [exact Hnear|]. split; [|exact Honly].
  unfold Routes.recognize_POST. rewrite Hm. reflexivity.
Qed.

End EnrolmentTheorems.

Section EnrolmentWitnesses.
Import Enrolment.

Lemma registered_pin_verifies_witness :
  let r := register_POST Scenario.hashPassword Storage.empty (Some "user-1700000000000")
             (Some Scenario.alice_capture) (Some "4821") (Some "open sesame")
             1700000000000 in
  fst r = Response.mk 200 Response.Success /\
  (exists user,
      Storage.getUserById (snd r) "user-1700000000000" = Some user /\
      User.pinHash user = Some (Scenario.hashPassword "4821") /\
      (JS.truthy (Some "open sesame") = true -> User.voicePhrase user = Some "open sesame")) /\
  Routes.verify_pin_POST Scenario.verifyPassword (snd r) (Some "user-1700000000000")
    (Some "4821") 1700000100000 =
    (Response.mk 200 Response.Success, snd r).
Proof.
  apply (registered_pin_verifies Scenario.hashPassword Scenario.verifyPassword
           Storage.empty (Some "user-1700000000000") (Some Scenario.alice_capture)
           (Some "4821") (Some "open sesame") 1700000000000 1700000100000);
    first [reflexivity | discriminate].
Defined.

Lemma enrolled_face_is_recognized_witness :
  let r := register_POST Scenario.hashPassword Scenario.server0 (Some "user-8")
             (Some [0.5; -0.25; 1]%float) None None 1700000300000 in
  fst r = Response.mk 200 Response.Success /\
  In (FaceData.mk "user-8" [0.5; -0.25; 1]%float None 1700000300000) (Storage.faces (snd r)) /\
  exists m,
    FaceMatcher.recognizeFaceFromDescriptor (snd r)
      (FaceMatcher.NumberArray [0.5; -0.25; 1]%float) = Some m /\
    PrimFloat.ltb 0 (FaceMatcher.distance m) = false /\
    Routes.recognize_POST (snd r) (Some [0.5; -0.25; 1]%float) 1700000400000 =
      (Response.mk 200
         (Response.Recognized (FaceMatcher.userId m)
            (User.name <$> Storage.getUserById (snd r) (FaceMatcher.userId m))
            (FaceMatcher.distance m)),
       snd r) /\
    (FaceMatcher.recognizeFaceFromDescriptor Scenario.server0
       (FaceMatcher.NumberArray [0.5; -0.25; 1]%float) = None ->
     m = FaceMatcher.mkMatch "user-8" 0).
Proof.
  apply (enrolled_face_is_recognized Scenario.hashPassword Scenario.server0 (Some "user-8")
           [0.5; -0.25; 1]%float None None 1700000300000 1700000400000).
  - reflexivity.
  - discriminate.
  - repeat constructor.
Defined.

End EnrolmentWitnesses.

(** *** The voice check *)

Section AudioTheorems.
Import Audio.

Lemma sumSquares_silent l :
  Forall (fun v => PrimFloat.eqb v 0 = true) l -> sumSquares l 0 = 0%float.
Proof.
  induction 1 as [|v l Hv _ IH]; [reflexivity|].
  cbn [sumSquares]. rewrite (square_zero v Hv). exact IH.
Qed.

(** X18. The voice check needs a live recorder and at least one chunk of
    data. A recording that decodes to silence (every sample of the first
    channel a zero, or no sample at all) never passes, whatever its size.
    When the browser has no [AudioContext] or decoding throws, only the
    size is looked at: every recording of more than 1000 bytes passes. *)
Theorem silence_never_passes_the_voice_check
  (active : bool) (audioChunks : list nat) (size : nat) (channelData : Float32Array.t) :
  (forall decoding, stopRecording false audioChunks decoding = false) /\
  (forall decoding, stopRecording active [] decoding = false) /\
  (Forall (fun v => PrimFloat.eqb v 0 = true) (Float32Array.values channelData) ->
   hasAudioContent size (Decoded channelData) = false /\
   stopRecording active audioChunks (Decoded channelData) = false) /\
  (audioChunks <> [] -> 1000 < list_sum audioChunks ->
   stopRecording true audioChunks NoAudioContext = true /\
   stopRecording true audioChunks Failed = true).
Proof.
  split; [reflexivity|]. split; [intros decoding; destruct active; reflexivity|]. split.
  - intros Hsilent.
    assert (Hno : forall n, hasAudioContent n (Decoded channelData) = false).
    { intros n. unfold hasAudioContent. cbv zeta. rewrite (sumSquares_silent _ Hsilent).
      unfold JS.gtb, threshold. now apply root_of_zero_over. }
    split; [apply Hno|]. unfold stopRecording.
    destruct active; [|reflexivity]. destruct (length audioChunks =? 0); [reflexivity | apply Hno].
  - intros Hchunks Hsize. unfold stopRecording, hasAudioContent.
    destruct audioChunks as [|c rest]; [contradiction|]. cbn [length Nat.eqb].
    apply Nat.ltb_lt in Hsize. rewrite Hsize. split; reflexivity.
Qed.

Example a_silent_recording :
  hasAudioContent 2000 (Decoded (Float32Array.mk [0; -0; 0; 0]%float)) = false /\
  hasAudioContent 2000 (Decoded (Float32Array.mk [])) = false /\
  hasAudioContent 2000 (Decoded (Float32Array.mk [0.5; -0.5; 0.25; 0]%float)) = true /\
  hasAudioContent 2000 (Decoded (Float32Array.mk [0.0078125; -0.0078125]%float)) = false.
Proof. vm_compute. repeat split; reflexivity. Qed.

End AudioTheorems.

(** *** Unlock attempts from start to end *)

Section UnlockRuns.
Import SafePage.

Variable verifyPassword : string -> string -> bool.
Variable esp32Url : option string.

Local Arguments FaceMatcher.recognizeFaceFromDescriptor : simpl never.
Local Arguments Storage.getUserById : simpl never.
Local Arguments JS.digits_only : simpl never.
Local Arguments JS.sort : simpl never.
Local Arguments String.length : simpl never.
Local Arguments String.eqb : simpl never.
Local Arguments String.append : simpl never.
Local Arguments Nat.ltb : simpl never.
Local Arguments pretty : simpl never.

(** The page, the browser storage and the observations once the face was
    matched and the PIN accepted: the voice check is pending. *)
Lemma pin_accepted_run
  (w : World) (r : PermissionResult) (descriptor : list float) (value : string)
  (t1 t2 : Z) (m : FaceMatcher.Match) (user : User.t) (hash : string) :
  safeState (page w) = locked ->
  modelsLoaded (page w) = true ->
  cameraPermission (page w) = Some true ->
  micPermission (page w) = Some true ->
  FaceMatcher.recognizeFaceFromDescriptor (server w) (FaceMatcher.NumberArray descriptor) = Some m ->
  FaceMatcher.userId m <> "" ->
  Storage.getUserById (server w) (FaceMatcher.userId m) = Some user ->
  User.pinHash user = Some hash ->
  hash <> "" ->
  4 <= String.length (JS.digits_only value) ->
  verifyPassword (JS.digits_only value) hash = true ->
  run verifyPassword esp32Url w
    [ClickUnlock r; FaceTimer (Detected descriptor) t1; ChangePin value; ClickVerify t2] =
  mkWorld
    (mk unlocking (Some true) (Some true) (JS.digits_only value)
       "PIN verified. Please speak your phrase now." true true true
       (faceTimers (page w)) (voiceTimers (page w) ++ [FaceMatcher.userId m]))
    (<["recognizedUserId" := FaceMatcher.userId m]> (localStorage w))
    (server w)
    (trace w ++
     [ObsUnlockStarted;
      ObsRecognize (Response.mk 200
         (Response.Recognized (FaceMatcher.userId m) (Some (User.name user))
            (FaceMatcher.distance m)));
      ObsVerifyPin (FaceMatcher.userId m) (JS.digits_only value)
        (Response.mk 200 Response.Success)]).
Proof.
  intros Hlocked Hmodels Hcam Hmic Hmatch Hid Huser Hpin Hhash Hlen Hright.
  destruct w as [p ls st tr]. destruct p as [ss cam mic pn msg ml vid rec ft vt].
  cbn in Hlocked, Hmodels, Hcam, Hmic, Hmatch, Huser. subst ss ml cam mic.
  assert (Hnonempty : String.eqb (JS.digits_only value) "" = false).
  { destruct (JS.digits_only value); [cbv in Hlen; lia | reflexivity]. }
  assert (Hlong : Nat.ltb (String.length (JS.digits_only value)) 4 = false)
    by now apply Nat.ltb_ge.
  assert (Hidb : String.eqb (FaceMatcher.userId m) "" = false) by now apply String.eqb_neq.
  assert (Hhashb : String.eqb hash "" = false) by now apply String.eqb_neq.
  set (uid := FaceMatcher.userId m) in *.
  set (recognized := Response.mk 200
         (Response.Recognized uid (Some (User.name user)) (FaceMatcher.distance m))).
  set (w1 := mkWorld
         (mk unlocking (Some true) (Some true) pn "Scanning face..." true true rec (S ft) vt)
         ls st (tr ++ [ObsUnlockStarted])).
  set (w2 := mkWorld
         (mk unlocking (Some true) (Some true) ""
            "Face recognized. Please enter your PIN below." true true rec ft vt)
         (<["recognizedUserId" := uid]> ls) st
         ((tr ++ [ObsUnlockStarted]) ++ [ObsRecognize recognized])).
  set (w3 := withPage w2 (setPin (page w2) (JS.digits_only value))).
  assert (H1 : step verifyPassword esp32Url
                 (mkWorld (mk locked (Some true) (Some true) pn msg true vid rec ft vt) ls st tr)
                 (ClickUnlock r) = w1) by reflexivity.
  assert (H2 : step verifyPassword esp32Url w1 (FaceTimer (Detected descriptor) t1) = w2).
  { unfold step, w1. cbn [page faceTimers]. unfold faceTimer, Routes.recognize_POST.
    cbn [server withPage]. rewrite Hmatch. cbv zeta. fold uid. rewrite Huser. reflexivity. }
  assert (H3 : step verifyPassword esp32Url w2 (ChangePin value) = w3) by reflexivity.
  assert (Hpost : Routes.verify_pin_POST verifyPassword st (Some uid)
                    (Some (JS.digits_only value)) t2 =
                  (Response.mk 200 Response.Success, st)).
  { unfold Routes.verify_pin_POST. cbn [JS.truthy from_option id].
    rewrite Hidb, Hnonempty. cbn [negb orb]. cbv zeta. cbn [from_option id].
    rewrite Huser, Hpin.
    cbn [JS.truthy from_option id]. rewrite Hhashb. cbn [negb]. rewrite Hright. reflexivity. }
  unfold run. cbn [fold_left]. rewrite H1, H2, H3.
  unfold step, w3, w2. cbn [page withPage setPin pin safeState is_unlocking].
  rewrite Hnonempty, Hlong. cbn [orb negb andb].
  unfold verify_onClick. cbn [page withPage setPin pin localStorage server].
  rewrite Hnonempty, Hlong. cbn [orb].
  rewrite lookup_insert_eq. cbn [JS.truthy from_option id]. rewrite Hidb. cbn [negb].
  rewrite Hpost. cbn [negb Response.ok Response.status Nat.leb andb].
  cbv [withPage observe withServer setPin setStatusMessage setIsRecording setVoiceTimers
       JS.push page localStorage server trace safeState cameraPermission micPermission pin
       statusMessage modelsLoaded videoOn isRecording faceTimers voiceTimers].
  rewrite <- ?app_assoc. reflexivity.
Qed.

(** The voice check that ends an attempt, run on the world the lemma above
    describes. *)
Lemma voice_check_run
  (p : SafePage.t) (ls : gmap string string) (st : Storage.t) (tr : list Obs)
  (userId : string) (hasAudio : bool) (t3 : Z) :
  voiceTimers p = [userId] ->
  step verifyPassword esp32Url (mkWorld p ls st tr) (VoiceTimer hasAudio t3) =
  if hasAudio then
    mkWorld
      (mk unlocked (cameraPermission p) (micPermission p) "" "Safe unlocked"
         (modelsLoaded p) false false (faceTimers p) [])
      (delete "recognizedUserId" ls)
      (snd (Storage.createEvent st "unlock" (Some userId) None
              (Some [("verified", JStr "face+pin+voice")]) t3))
      (tr ++ [ObsVoice true; ObsEventPost (unlock_body userId)] ++ Derived.open_commands esp32Url)
  else
    mkWorld
      (mk locked (cameraPermission p) (micPermission p) ""
         "No audio detected. Please speak your phrase."
         (modelsLoaded p) false false (faceTimers p) [])
      (delete "recognizedUserId" ls) st (tr ++ [ObsVoice false]).
Proof.
  intros Hvt. destruct p as [ss cam mic pn msg ml vid rec ft vt]. cbn in Hvt. subst vt.
  unfold step. cbn [page voiceTimers]. unfold voiceTimer. destruct hasAudio.
  - unfold Routes.events_POST, unlock_body. cbn [EventBody.type JS.truthy].
    replace (String.eqb "unlock" "") with false by reflexivity. cbn [negb].
    cbn [from_option id EventBody.userId EventBody.userName EventBody.metadata server
         observe withPage withServer page].
    unfold Derived.open_commands. destruct esp32Url as [url|]; [destruct (String.eqb url "")|];
      cbv [withPage observe withServer setPin setStatusMessage setIsRecording setVoiceTimers
           setSafeState stopVideo setVideo removeItem
           JS.push page localStorage server trace safeState cameraPermission micPermission pin
           statusMessage modelsLoaded videoOn isRecording faceTimers voiceTimers];
      rewrite <- ?app_assoc; reflexivity.
  - cbv [withPage observe withServer setPin setStatusMessage setIsRecording setVoiceTimers
         setSafeState stopVideo setVideo removeItem sessionFailed
         JS.push page localStorage server trace safeState cameraPermission micPermission pin
         statusMessage modelsLoaded videoOn isRecording faceTimers voiceTimers].
    reflexivity.
Qed.

End UnlockRuns.

Section UnlockTheorems2.
Import SafePage.

Variable verifyPassword : string -> string -> bool.
Variable esp32Url : option string.

Local Abbreviation step := (SafePage.step verifyPassword esp32Url).
Local Abbreviation run := (SafePage.run verifyPassword esp32Url).

(** X19. The right face, PIN and voice open the safe: an unlock attempt
    started on a locked page with no voice check pending, in which the
    captured face matches a user, the PIN typed is accepted by that user's
    stored hash, and the voice check detects audio, ends unlocked with the
    PIN field cleared, the camera stopped and the recognized identity
    removed. One [unlock] event for that user is appended to the sorted log,
    and the open command is sent to the actuator once, after the three
    checks, if an actuator URL is configured. *)
Theorem right_face_pin_and_voice_unlock
  (w : World) (r : PermissionResult) (descriptor : list float) (value : string)
  (t1 t2 t3 : Z) (m : FaceMatcher.Match) (user : User.t) (hash : string) :
  safeState (page w) = locked ->
  modelsLoaded (page w) = true ->
  cameraPermission (page w) = Some true ->
  micPermission (page w) = Some true ->
  voiceTimers (page w) = [] ->
  FaceMatcher.recognizeFaceFromDescriptor (server w) (FaceMatcher.NumberArray descriptor) = Some m ->
  FaceMatcher.userId m <> "" ->
  Storage.getUserById (server w) (FaceMatcher.userId m) = Some user ->
  User.pinHash user = Some hash ->
  hash <> "" ->
  4 <= String.length (JS.digits_only value) ->
  verifyPassword (JS.digits_only value) hash = true ->
  let w' := run w [ClickUnlock r; FaceTimer (Detected descriptor) t1;
                   ChangePin value; ClickVerify t2; VoiceTimer true t3] in
  safeState (page w') = unlocked /\
  pin (page w') = "" /\
  videoOn (page w') = false /\
  localStorage w' !! "recognizedUserId" = None /\
  Storage.events (server w') =
    JS.sort Storage.newest_first (Storage.events (server w)) ++
    [Event.mk (pretty t3) "unlock" (Some (FaceMatcher.userId m)) None t3
       (Some [("verified", JStr "face+pin+voice")])] /\
  trace w' =
    trace w ++
    [ObsUnlockStarted;
     ObsRecognize (Response.mk 200
        (Response.Recognized (FaceMatcher.userId m) (Some (User.name user))
           (FaceMatcher.distance m)));
     ObsVerifyPin (FaceMatcher.userId m) (JS.digits_only value)
       (Response.mk 200 Response.Success);
     ObsVoice true;
     ObsEventPost (unlock_body (FaceMatcher.userId m))] ++
    Derived.open_commands esp32Url.
Proof.
  intros Hlocked Hmodels Hcam Hmic Hvt Hmatch Hid Huser Hpin Hhash Hlen Hright. cbv zeta.
  change [ClickUnlock r; FaceTimer (Detected descriptor) t1; ChangePin value; ClickVerify t2;
          VoiceTimer true t3]
    with ([ClickUnlock r; FaceTimer (Detected descriptor) t1; ChangePin value; ClickVerify t2] ++
          [VoiceTimer true t3]).
  rewrite run_snoc.
  rewrite (pin_accepted_run verifyPassword esp32Url w r descriptor value t1 t2 m user hash)
    by assumption.
  rewrite (voice_check_run verifyPassword esp32Url _ _ _ _ (FaceMatcher.userId m))
    by (cbn [voiceTimers]; rewrite Hvt; reflexivity).
  cbn [page safeState pin videoOn localStorage server trace].
  split; [reflexivity|]. split; [reflexivity|]. split; [reflexivity|].
  split; [apply lookup_delete_eq|]. split; [reflexivity|].
  rewrite <- app_assoc. reflexivity.
Qed.

(** X20. A voice check that detects no audio ends the attempt locked, with
    the PIN field cleared and the recognized identity removed, sends nothing
    to the actuator and, unlike a refused face or PIN, writes nothing to the
    event log. *)
Theorem silent_voice_check_locks_without_a_log_entry
  (w : World) (r : PermissionResult) (descriptor : list float) (value : string)
  (t1 t2 t3 : Z) (m : FaceMatcher.Match) (user : User.t) (hash : string) :
  safeState (page w) = locked ->
  modelsLoaded (page w) = true ->
  cameraPermission (page w) = Some true ->
  micPermission (page w) = Some true ->
  voiceTimers (page w) = [] ->
  FaceMatcher.recognizeFaceFromDescriptor (server w) (FaceMatcher.NumberArray descriptor) = Some m ->
  FaceMatcher.userId m <> "" ->
  Storage.getUserById (server w) (FaceMatcher.userId m) = Some user ->
  User.pinHash user = Some hash ->
  hash <> "" ->
  4 <= String.length (JS.digits_only value) ->
  verifyPassword (JS.digits_only value) hash = true ->
  let w' := run w [ClickUnlock r; FaceTimer (Detected descriptor) t1;
                   ChangePin value; ClickVerify t2; VoiceTimer false t3] in
  safeState (page w') = locked /\
  pin (page w') = "" /\
  videoOn (page w') = false /\
  localStorage w' !! "recognizedUserId" = None /\
  server w' = server w /\
  trace w' =
    trace w ++
    [ObsUnlockStarted;
     ObsRecognize (Response.mk 200
        (Response.Recognized (FaceMatcher.userId m) (Some (User.name user))
           (FaceMatcher.distance m)));
     ObsVerifyPin (FaceMatcher.userId m) (JS.digits_only value)
       (Response.mk 200 Response.Success);
     ObsVoice false].
Proof.
  intros Hlocked Hmodels Hcam Hmic Hvt Hmatch Hid Huser Hpin Hhash Hlen Hright. cbv zeta.
  change [ClickUnlock r; FaceTimer (Detected descriptor) t1; ChangePin value; ClickVerify t2;
          VoiceTimer false t3]
    with ([ClickUnlock r; FaceTimer (Detected descriptor) t1; ChangePin value; ClickVerify t2] ++
          [VoiceTimer false t3]).
  rewrite run_snoc.
  rewrite (pin_accepted_run verifyPassword esp32Url w r descriptor value t1 t2 m user hash)
    by assumption.
  rewrite (voice_check_run verifyPassword esp32Url _ _ _ _ (FaceMatcher.userId m))
    by (cbn [voiceTimers]; rewrite Hvt; reflexivity).
  cbn [page safeState pin videoOn localStorage server trace].
  split; [reflexivity|]. split; [reflexivity|]. split; [reflexivity|].
  split; [apply lookup_delete_eq|]. split; [reflexivity|].
  rewrite <- app_assoc. reflexivity.
Qed.

(** X21. A face scan that fails ends the attempt locked with the camera
    stopped. Only a face that was detected and matched nobody reaches the
    server, which logs one [unauthorized_face] event without a user; when
    no image, camera or face is found, or the scan throws, nothing is sent
    and nothing is logged. In every case the browser storage is left as it
    was, including an identity recognized in an earlier attempt. *)
Theorem failed_face_scan_locks
  (w : World) (r : PermissionResult) (scan : FaceScan) (t1 : Z) :
  safeState (page w) = locked ->
  modelsLoaded (page w) = true ->
  cameraPermission (page w) = Some true ->
  micPermission (page w) = Some true ->
  (forall descriptor, scan = Detected descriptor ->
     FaceMatcher.recognizeFaceFromDescriptor (server w) (FaceMatcher.NumberArray descriptor) = None) ->
  let w' := run w [ClickUnlock r; FaceTimer scan t1] in
  safeState (page w') = locked /\
  videoOn (page w') = false /\
  localStorage w' = localStorage w /\
  voiceTimers (page w') = voiceTimers (page w) /\
  match scan with
  | Detected descriptor =>
      Storage.events (server w') =
        JS.sort Storage.newest_first (Storage.events (server w)) ++
        [Event.mk (pretty t1) "unauthorized_face" None None t1
           (Some [("reason", JStr "No matching face found")])] /\
      trace w' =
        trace w ++
        [ObsUnlockStarted;
         ObsRecognize (Response.mk 401 (Response.Error "Face not recognized"))]
  | _ => server w' = server w /\ trace w' = trace w ++ [ObsUnlockStarted]
  end.
Proof.
  intros Hlocked Hmodels Hcam Hmic Hnobody. cbv zeta.
  destruct w as [p ls st tr]. destruct p as [ss cam mic pn msg ml vid rec ft vt].
  cbn in Hlocked, Hmodels, Hcam, Hmic, Hnobody. subst ss ml cam mic.
  unfold SafePage.run. cbn [fold_left].
  assert (H1 : step (mkWorld (mk locked (Some true) (Some true) pn msg true vid rec ft vt)
                       ls st tr) (ClickUnlock r) =
               mkWorld (mk unlocking (Some true) (Some true) pn "Scanning face..." true true
                          rec (S ft) vt) ls st (tr ++ [ObsUnlockStarted])) by reflexivity.
  rewrite H1. unfold SafePage.step. cbn [page faceTimers]. unfold faceTimer.
  destruct scan as [| | |descriptor|]; try (repeat split; reflexivity).
  unfold Routes.recognize_POST. cbn [server withPage]. rewrite (Hnobody descriptor eq_refl).
  repeat split. cbn. unfold JS.push. now rewrite <- app_assoc.
Qed.

Lemma server_faceTimer w scan now :
  server (faceTimer w scan now) = server w \/
  Derived.logs_one_event (server w) (server (faceTimer w scan now)).
Proof.
  unfold faceTimer, faceFailed. destruct scan; try (now left).
  unfold Routes.recognize_POST.
  destruct (FaceMatcher.recognizeFaceFromDescriptor _ _) as [m|].
  - left. reflexivity.
  - right. exists "unauthorized_face". do 4 eexists. split; [now left | reflexivity].
Qed.

Lemma server_verify_onClick w now :
  server (verify_onClick verifyPassword w now) = server w \/
  Derived.logs_one_event (server w) (server (verify_onClick verifyPassword w now)).
Proof.
  unfold verify_onClick, sessionFailed.
  destruct (_ || _); [now left|].
  destruct (negb (JS.truthy _)); [now left|].
  unfold Routes.verify_pin_POST.
  destruct (negb (JS.truthy (Some _)) || negb (JS.truthy (Some _))); [now left|].
  destruct (Storage.getUserById _ _) as [user|]; [|now left].
  destruct (negb (JS.truthy (User.pinHash user))); [now left|].
  destruct (negb (verifyPassword _ _)); [|now left].
  right. exists "unauthorized_face". do 4 eexists. split; [now left | reflexivity].
Qed.

Lemma server_voiceTimer w userId hasAudio now :
  server (voiceTimer esp32Url w userId hasAudio now) = server w \/
  Derived.logs_one_event (server w) (server (voiceTimer esp32Url w userId hasAudio now)).
Proof.
  unfold voiceTimer, sessionFailed. destruct hasAudio; [|now left].
  right. exists "unlock". do 4 eexists. split; [right; now left|].
  unfold Routes.events_POST, unlock_body. cbn [EventBody.type JS.truthy].
  replace (String.eqb "unlock" "") with false by reflexivity. cbn [negb].
  destruct esp32Url as [url|]; [destruct (String.eqb url "")|]; reflexivity.
Qed.

Lemma server_handleLock w now :
  Derived.logs_one_event (server w) (server (handleLock esp32Url w now)).
Proof.
  unfold handleLock. exists "lock". do 4 eexists. split; [right; right; now left|].
  reflexivity.
Qed.

Lemma server_step w i :
  server (step w i) = server w \/ Derived.logs_one_event (server w) (server (step w i)).
Proof.
  destruct i as [|camera mic|r|scan now|value|now|hasAudio now|now|];
    unfold SafePage.step; cbv zeta; try (now left).
  - case_match; [|now left]. left. unfold handleUnlock. repeat case_match; reflexivity.
  - destruct (faceTimers (page w)) as [|n]; [now left|].
    apply (server_faceTimer (withPage w (setFaceTimers (page w) n))).
  - case_match; now left.
  - case_match; [|now left]. apply server_verify_onClick.
  - destruct (voiceTimers (page w)) as [|userId rest]; [now left|].
    apply (server_voiceTimer (withPage w (setVoiceTimers (page w) rest))).
  - case_match; [|now left]. right. apply server_handleLock.
Qed.

(** X22. Whatever is clicked, typed, scanned or spoken on the safe page, and
    however often the page is reloaded, the unlock flow never changes an
    account or a face template. The only thing it writes on the server is
    the event log, to which it only adds: events of type
    [unauthorized_face], [unlock] or [lock], and every event logged before
    is still there. *)
Theorem unlock_flow_only_adds_events (w : World) (inputs : list Input) :
  let w' := run w inputs in
  Storage.users (server w') = Storage.users (server w) /\
  Storage.faces (server w') = Storage.faces (server w) /\
  exists added,
    Storage.events (server w') ≡ₚ Storage.events (server w) ++ added /\
    Forall (fun e => In (Event.type e) ["unauthorized_face"; "unlock"; "lock"]) added.
Proof.
  cbv zeta. induction inputs as [|i inputs IH] using rev_ind.
  - split; [reflexivity|]. split; [reflexivity|]. exists []. now rewrite app_nil_r.
  - rewrite run_snoc. destruct IH as (Hu & Hf & added & Hperm & Htypes).
    destruct (server_step (run w inputs) i)
      as [->|(type & userId & userName & metadata & now & Htype & ->)].
    + split; [exact Hu|]. split; [exact Hf|]. exists added. auto.
    + unfold Storage.createEvent. cbn [snd Storage.users Storage.faces Storage.events].
      split; [exact Hu|]. split; [exact Hf|].
      exists (added ++ [Event.mk (pretty now) type userId userName now metadata]).
      split.
      * unfold JS.push, Storage.getEvents. rewrite sort_perm, Hperm, app_assoc. reflexivity.
      * apply Forall_app. split; [exact Htypes|]. apply Forall_singleton. exact Htype.
Qed.

End UnlockTheorems2.

(** *** Setup, then unlock *)

Section SetupFacts.
Import SetupPage.

Variable hashPassword : string -> string.
Variable verifyPassword : string -> string -> bool.
Variable esp32Url : option string.

Local Abbreviation step := (SetupPage.step hashPassword verifyPassword esp32Url).
Local Abbreviation run := (SetupPage.run hashPassword verifyPassword esp32Url).

Lemma setup_run_app w l1 l2 : run w (l1 ++ l2) = run (run w l1) l2.
Proof. unfold SetupPage.run. apply fold_left_app. Qed.

(** Inputs of the unlock flow other than a reload leave the setup state
    alone. *)
Lemma run_safe w inputs :
  Forall (fun i => i <> SafePage.Reload) inputs ->
  run w (map Safe inputs) =
  withSafe w (SafePage.run verifyPassword esp32Url (safe w) inputs).
Proof.
  intros H. revert w. induction H as [|i inputs Hi _ IH]; intros w.
  - destruct w. reflexivity.
  - cbn [map]. unfold SetupPage.run, SafePage.run in *. cbn [fold_left].
    rewrite IH. destruct i; try contradiction; reflexivity.
Qed.

Lemma fresh_id_truthy (now : Z) : JS.truthy (Some ("user-" +:+ pretty now)) = true.
Proof. reflexivity. Qed.

Lemma long_pin_enabled value :
  4 <= String.length value ->
  String.eqb value "" || (String.length value <? 4) = false.
Proof.
  intros H. apply orb_false_iff. split.
  - destruct value; [cbn in H; lia | reflexivity].
  - now apply Nat.ltb_ge.
Qed.

End SetupFacts.

Section SetupRun.
Import SetupPage.

Variable hashPassword : string -> string.
Variable verifyPassword : string -> string -> bool.
Variable esp32Url : option string.

Local Abbreviation step := (SetupPage.step hashPassword verifyPassword esp32Url).
Local Abbreviation run := (SetupPage.run hashPassword verifyPassword esp32Url).
Local Abbreviation register := (Enrolment.register_POST hashPassword).

Local Arguments Enrolment.register_POST : simpl never.
Local Arguments JS.digits_only : simpl never.
Local Arguments String.length : simpl never.
Local Arguments String.eqb : simpl never.
Local Arguments String.append : simpl never.
Local Arguments Nat.ltb : simpl never.
Local Arguments pretty : simpl never.

(** The accepted answer of the route, with the storage it leaves. *)
Lemma register_POST_ok st userId descriptor pin voicePhrase now :
  JS.truthy userId = true -> descriptor <> Some [] ->
  register st userId descriptor pin voicePhrase now =
  (Response.mk 200 Response.Success,
   snd (register st userId descriptor pin voicePhrase now)).
Proof.
  intros Hid Hd.
  destruct (saveDescriptor_accepts st (default "" userId) descriptor now Hd) as [st1 Hsaved].
  now rewrite (register_POST_accepted hashPassword _ _ _ _ _ _ _ Hid Hsaved).
Qed.

(** The id [completeFaceSetup] registers the face under when a setup was
    just started: the one the browser holds, or a new one. *)
Lemma setup_id_truthy (stored : option string) (now : Z) :
  JS.truthy
    (Some (if JS.truthy stored then default "" stored else "user-" +:+ pretty now)) = true.
Proof.
  destruct stored as [u|]; [|reflexivity]. cbn [JS.truthy default from_option id].
  destruct (String.eqb u "") eqn:E; [reflexivity|]. cbn [negb]. now rewrite E.
Qed.

(** A complete setup started on a locked, ready page with no phrase timer
    pending: the face is captured, the same PIN typed twice, a phrase typed
    and recorded. *)
Lemma setup_run_from
  (p : SafePage.t) (ls : gmap string string) (st : Storage.t) (tr : list SafePage.Obs)
  (s : SetupPage.t) (r : SafePage.PermissionResult) (d : list float)
  (value phrase : string) (t0 t1 : Z) :
  SafePage.safeState p = SafePage.locked ->
  SafePage.modelsLoaded p = true ->
  SafePage.cameraPermission p = Some true ->
  SafePage.micPermission p = Some true ->
  phraseTimers s = [] ->
  d <> [] ->
  4 <= String.length (JS.digits_only value) ->
  let stored := ls !! "userId" in
  let userId := if JS.truthy stored then default "" stored else "user-" +:+ pretty t0 in
  let st1 := snd (register st (Some userId) (Some d) None None t0) in
  let st2 := snd (register st1 (Some userId) None (Some (JS.digits_only value))
                    (Some phrase) t1) in
  run (mkWorld (SafePage.mkWorld p ls st tr) s)
    [ClickSetup r; ClickCaptureFace (Detected d) t0;
     ChangeSetupPin value; ChangeConfirmPin value; ClickSetPin;
     ChangePhrase phrase; ClickRecordPhrase; PhraseTimer true t1] =
  mkWorld
    (SafePage.mkWorld
       (SafePage.mk SafePage.locked (Some true) (Some true) (SafePage.pin p)
          "Setup complete! You can now unlock the safe." true false false
          (SafePage.faceTimers p) (SafePage.voiceTimers p))
       (<["userId" := userId]> ls) st2 tr)
    (mk mode_face "" "" "" None []).
Proof.
  intros Hlocked Hmodels Hcam Hmic Htimers Hd Hlen. cbv zeta.
  destruct p as [ss cam mic pn msg ml vid rec ft vt].
  destruct s as [mode sp cp ph suid timers].
  cbn in Hlocked, Hmodels, Hcam, Hmic, Htimers. subst ss ml cam mic timers.
  cbn [SafePage.pin SafePage.faceTimers SafePage.voiceTimers].
  pose proof (setup_id_truthy (ls !! "userId") t0) as Htruthy.
  set (userId := if JS.truthy (ls !! "userId") then default "" (ls !! "userId")
                 else "user-" +:+ pretty t0) in *.
  set (pinValue := JS.digits_only value).
  assert (Hd' : Some d <> Some []) by congruence.
  assert (Hnone : @None (list float) <> Some []) by discriminate.
  pose proof (register_POST_ok st (Some userId) (Some d) None None t0 Htruthy Hd') as Hr1.
  set (st1 := snd (register st (Some userId) (Some d) None None t0)) in *.
  pose proof (register_POST_ok st1 (Some userId) None (Some pinValue) (Some phrase) t1
                Htruthy Hnone) as Hr2.
  set (st2 := snd (register st1 (Some userId) None (Some pinValue) (Some phrase) t1)) in *.
  pose proof (long_pin_enabled pinValue Hlen) as Hen.
  unfold SetupPage.run. cbn [fold_left].
  (* the page enters setup *)
  set (w3 := mkWorld
         (SafePage.mkWorld
            (SafePage.mk SafePage.setup (Some true) (Some true) pn
               "Setup: Capture your face" true true rec ft vt)
            ls st tr)
         (mk mode_face sp cp ph None [])).
  assert (H3 : step (mkWorld
                       (SafePage.mkWorld
                          (SafePage.mk SafePage.locked (Some true) (Some true) pn msg true vid
                             rec ft vt) ls st tr)
                       (mk mode sp cp ph suid [])) (ClickSetup r) = w3)
    by reflexivity.
  rewrite H3.
  (* the face is registered under the id, which the browser keeps *)
  set (page4 := SafePage.mkWorld
         (SafePage.mk SafePage.setup (Some true) (Some true) pn
            "Face registered. Now set your PIN." true true rec ft vt)
         (<["userId" := userId]> ls) st1 tr).
  set (w4 := mkWorld page4 (mk mode_pin sp cp ph (Some userId) [])).
  assert (H4 : step w3 (ClickCaptureFace (Detected d) t0) = w4).
  { unfold SetupPage.step, w3. cbn [safe setup SafePage.page SafePage.safeState is_setup
      setupMode is_face andb]. unfold completeFaceSetup.
    cbn [safe setup SafePage.page SafePage.modelsLoaded negb setupUserId JS.truthy
         SafePage.localStorage].
    fold userId.
    cbn [withSafe withSetup safe setup SafePage.setItem SafePage.server SafePage.page
         SafePage.localStorage SafePage.trace setupMode setupPin confirmPin SetupPage.phrase
         phraseTimers].
    rewrite Hr1. reflexivity. }
  rewrite H4.
  (* the PIN is typed twice and accepted, the phrase typed and recorded *)
  set (w6 := mkWorld page4 (mk mode_pin pinValue pinValue ph (Some userId) [])).
  assert (H6 : step (step w4 (ChangeSetupPin value)) (ChangeConfirmPin value) = w6)
    by reflexivity.
  rewrite H6.
  set (w7 := mkWorld
         (SafePage.mkWorld
            (SafePage.mk SafePage.setup (Some true) (Some true) pn
               "PIN set. Now record your phrase." true true rec ft vt)
            (<["userId" := userId]> ls) st1 tr)
         (mk mode_phrase pinValue pinValue ph (Some userId) [])).
  assert (H7 : step w6 ClickSetPin = w7).
  { unfold SetupPage.step, w6, page4.
    cbn [safe setup SafePage.page SafePage.safeState is_setup setupMode is_pin andb setupPin].
    rewrite Hen. cbn [negb]. unfold completePinSetup.
    cbn [safe setup setupMode setupPin confirmPin SetupPage.phrase setupUserId phraseTimers].
    rewrite Hen, String.eqb_refl. reflexivity. }
  rewrite H7.
  set (w9 := mkWorld
         (SafePage.mkWorld
            (SafePage.mk SafePage.setup (Some true) (Some true) pn
               "Recording phrase..." true true true ft vt)
            (<["userId" := userId]> ls) st1 tr)
         (mk mode_phrase pinValue pinValue phrase (Some userId)
            [mkClosure (Some userId) pinValue phrase])).
  assert (H9 : step (step w7 (ChangePhrase phrase)) ClickRecordPhrase = w9) by reflexivity.
  rewrite H9.
  (* the recording holds audio: PIN and phrase are registered *)
  unfold SetupPage.step, w9. cbn [setup phraseTimers]. unfold phraseTimer.
  cbn [closureUserId closurePin closurePhrase]. rewrite Htruthy. cbv iota. rewrite Htruthy.
  cbn [onPage withSafe withSetup safe setup SafePage.withPage SafePage.server SafePage.page
       SafePage.localStorage SafePage.trace].
  rewrite Hr2. reflexivity.
Qed.

(** The same setup on a freshly loaded page in a browser that holds no
    user id. *)
Lemma setup_run
  (st : Storage.t) (r : SafePage.PermissionResult) (d : list float)
  (value phrase : string) (t0 t1 : Z) :
  d <> [] ->
  4 <= String.length (JS.digits_only value) ->
  let userId := "user-" +:+ pretty t0 in
  let st1 := snd (register st (Some userId) (Some d) None None t0) in
  let st2 := snd (register st1 (Some userId) None (Some (JS.digits_only value))
                    (Some phrase) t1) in
  run (load ∅ st)
    [Safe SafePage.ModelsLoaded; Safe (SafePage.PermissionsChecked true true);
     ClickSetup r; ClickCaptureFace (Detected d) t0;
     ChangeSetupPin value; ChangeConfirmPin value; ClickSetPin;
     ChangePhrase phrase; ClickRecordPhrase; PhraseTimer true t1] =
  mkWorld
    (SafePage.mkWorld
       (SafePage.mk SafePage.locked (Some true) (Some true) ""
          "Setup complete! You can now unlock the safe." true false false 0 [])
       (<["userId" := userId]> ∅) st2 [SafePage.ObsPageLoad])
    (mk mode_face "" "" "" None []).
Proof.
  intros Hd Hlen. cbv zeta.
  change [Safe SafePage.ModelsLoaded; Safe (SafePage.PermissionsChecked true true);
          ClickSetup r; ClickCaptureFace (Detected d) t0;
          ChangeSetupPin value; ChangeConfirmPin value; ClickSetPin;
          ChangePhrase phrase; ClickRecordPhrase; PhraseTimer true t1]
    with ([Safe SafePage.ModelsLoaded; Safe (SafePage.PermissionsChecked true true)] ++
          [ClickSetup r; ClickCaptureFace (Detected d) t0;
           ChangeSetupPin value; ChangeConfirmPin value; ClickSetPin;
           ChangePhrase phrase; ClickRecordPhrase; PhraseTimer true t1]).
  rewrite setup_run_app.
  change (run (load ∅ st)
            [Safe SafePage.ModelsLoaded; Safe (SafePage.PermissionsChecked true true)])
    with (mkWorld
            (SafePage.mkWorld
               (SafePage.mk SafePage.locked (Some true) (Some true) ""
                  "Models loaded. Ready to scan." true false false 0 [])
               ∅ st [SafePage.ObsPageLoad])
            init).
  rewrite (setup_run_from _ ∅ st _ init r d value phrase t0 t1) by first [reflexivity | assumption].
  rewrite lookup_empty. reflexivity.
Qed.

End SetupRun.

Section SetupThenUnlock.
Import SetupPage.

Variable hashPassword : string -> string.
Variable verifyPassword : string -> string -> bool.
Variable esp32Url : option string.

Local Abbreviation run := (SetupPage.run hashPassword verifyPassword esp32Url).
Local Abbreviation register := (Enrolment.register_POST hashPassword).

(** X23. Whoever completes the setup can open the safe. On a freshly loaded
    page in a browser that holds no user id, a setup in which a face is
    captured that matches nobody enrolled, a PIN of at least four digits is
    typed twice, and a phrase is recorded, leaves the page locked, the new
    id in the browser, and on the server the face template and an account
    holding the hash of the PIN. An unlock attempt with the same face and
    PIN and a voice check that detects audio then ends unlocked, after one
    face match at distance 0, one PIN verification and one voice check, with
    the open command sent if an actuator URL is configured; provided bcrypt
    accepts a PIN against its own hash and hashes are not empty. *)
Theorem setup_then_unlock_opens_the_safe
  (st : Storage.t) (r r' : SafePage.PermissionResult) (d : list float)
  (value phrase : string) (t0 t1 t2 t3 t4 : Z) :
  d <> [] ->
  Forall (fun v => PrimFloat.is_finite v = true /\ JS.fround v = v) d ->
  4 <= String.length (JS.digits_only value) ->
  verifyPassword (JS.digits_only value) (hashPassword (JS.digits_only value)) = true ->
  hashPassword (JS.digits_only value) <> "" ->
  FaceMatcher.recognizeFaceFromDescriptor st (FaceMatcher.NumberArray d) = None ->
  let userId := "user-" +:+ pretty t0 in
  let w := run (load ∅ st)
             [Safe SafePage.ModelsLoaded; Safe (SafePage.PermissionsChecked true true);
              ClickSetup r; ClickCaptureFace (Detected d) t0;
              ChangeSetupPin value; ChangeConfirmPin value; ClickSetPin;
              ChangePhrase phrase; ClickRecordPhrase; PhraseTimer true t1] in
  let w' := run w
              [Safe (SafePage.ClickUnlock r'); Safe (SafePage.FaceTimer (SafePage.Detected d) t2);
               Safe (SafePage.ChangePin value); Safe (SafePage.ClickVerify t3);
               Safe (SafePage.VoiceTimer true t4)] in
  SafePage.safeState (SafePage.page (safe w)) = SafePage.locked /\
  SafePage.localStorage (safe w) !! "userId" = Some userId /\
  In (FaceData.mk userId d None t0) (Storage.faces (SafePage.server (safe w))) /\
  (exists user,
      Storage.getUserById (SafePage.server (safe w)) userId = Some user /\
      User.pinHash user = Some (hashPassword (JS.digits_only value))) /\
  SafePage.safeState (SafePage.page (safe w')) = SafePage.unlocked /\
  exists userName,
    SafePage.trace (safe w') =
    [SafePage.ObsPageLoad;
     SafePage.ObsUnlockStarted;
     SafePage.ObsRecognize
       (Response.mk 200 (Response.Recognized userId (Some userName) 0));
     SafePage.ObsVerifyPin userId (JS.digits_only value) (Response.mk 200 Response.Success);
     SafePage.ObsVoice true;
     SafePage.ObsEventPost (SafePage.unlock_body userId)] ++
    Derived.open_commands esp32Url.
Proof.
  intros Hd Hexact Hlen Hbcrypt Hhash Hnobody. cbv zeta.
  rewrite (setup_run hashPassword verifyPassword esp32Url st r d value phrase t0 t1 Hd Hlen).
  set (userId := "user-" +:+ pretty t0).
  set (pinValue := JS.digits_only value) in *.
  set (st1 := snd (register st (Some userId) (Some d) None None t0)).
  set (st2 := snd (register st1 (Some userId) None (Some pinValue) (Some phrase) t1)).
  assert (Hid : JS.truthy (Some userId) = true) by apply fresh_id_truthy.
  (* what the two requests left on the server *)
  assert (Hfaces : Storage.faces st2 = Storage.faces st1) by apply register_faces_kept.
  pose proof (register_faces_enrolled hashPassword st (Some userId) d None None t0
                Hid Hd Hexact) as [Htemplate _].
  destruct (enrolled_face_matches_its_id hashPassword st (Some userId) d None None t0
              Hid Hd Hexact) as (m & Hm & _ & Honly).
  rewrite (Honly Hnobody) in Hm. clear m Honly. cbn [default from_option id] in Hm, Htemplate.
  fold st1 in Hm, Htemplate.
  rewrite <- (recognize_reads_faces st2 st1 _ Hfaces) in Hm.
  assert (Hnone : @None (list float) <> Some []) by discriminate.
  destruct (register_stores_pin hashPassword st1 (Some userId) None (Some pinValue)
              (Some phrase) t1 Hid) as (user & Huser & Hpin & _);
    [destruct pinValue; [cbv in Hlen; lia | reflexivity] | exact Hnone |].
  cbn [default from_option id] in Huser, Hpin. fold st2 in Huser.
  cbn [safe SafePage.page SafePage.safeState SafePage.localStorage SafePage.server].
  split; [reflexivity|]. split; [apply lookup_insert_eq|].
  split; [rewrite Hfaces; exact Htemplate|]. split; [exists user; auto|].
  (* the unlock attempt *)
  change [Safe (SafePage.ClickUnlock r'); Safe (SafePage.FaceTimer (SafePage.Detected d) t2);
          Safe (SafePage.ChangePin value); Safe (SafePage.ClickVerify t3);
          Safe (SafePage.VoiceTimer true t4)]
    with (map Safe ([SafePage.ClickUnlock r'; SafePage.FaceTimer (SafePage.Detected d) t2;
                     SafePage.ChangePin value; SafePage.ClickVerify t3] ++
                    [SafePage.VoiceTimer true t4])).
  rewrite run_safe by (repeat constructor; discriminate).
  cbn [safe withSafe]. rewrite run_snoc.
  rewrite (pin_accepted_run verifyPassword esp32Url _ r' d value t2 t3
             (FaceMatcher.mkMatch userId 0) user (hashPassword pinValue));
    try reflexivity; try assumption.
  - rewrite (voice_check_run verifyPassword esp32Url _ _ _ _ userId) by reflexivity.
    cbn [SafePage.page SafePage.safeState SafePage.trace FaceMatcher.userId
         FaceMatcher.distance].
    split; [reflexivity|]. exists (User.name user). reflexivity.
  - cbn [FaceMatcher.userId]. intros Hempty.
    pose proof Hid as Ht. rewrite Hempty in Ht. discriminate Ht.
Qed.

End SetupThenUnlock.

Section LaterSetup.
Import SetupPage.

Variable hashPassword : string -> string.
Variable verifyPassword : string -> string -> bool.
Variable esp32Url : option string.

Local Abbreviation run := (SetupPage.run hashPassword verifyPassword esp32Url).
Local Abbreviation register := (Enrolment.register_POST hashPassword).
Local Abbreviation ids st := (User.id <$> Storage.users st).

(** Saving a template leaves one template of the user where there was
    none, and as many as there were otherwise. *)
Lemma count_templates_saveFaceData st userId descriptor image now :
  let faces' := Storage.faces (Storage.saveFaceData st userId descriptor image now) in
  Spec.count_templates userId faces' =
    Nat.max 1 (Spec.count_templates userId (Storage.faces st)) /\
  length faces' =
    length (Storage.faces st) + (1 - Spec.count_templates userId (Storage.faces st)).
Proof.
  cbv zeta. rewrite faces_saveFaceData. cbv zeta.
  destruct (list_find _ _) as [[i old]|] eqn:Hfind.
  - apply list_find_Some in Hfind. destruct Hfind as (Hlook & Hid & _).
    rewrite (count_templates_insert userId _ i old) by (auto; now rewrite Hid).
    rewrite length_insert.
    assert (Hpos : 1 <= Spec.count_templates userId (Storage.faces st)).
    { unfold Spec.count_templates.
      assert (Hin : In old (List.filter (fun f => String.eqb (FaceData.userId f) userId)
                              (Storage.faces st))).
      { apply List.filter_In. split.
        - eapply list_elem_of_In, list_elem_of_lookup_2; eauto.
        - now apply String.eqb_eq. }
      destruct (List.filter _ _); [destruct Hin | cbn; lia]. }
    lia.
  - apply list_find_None in Hfind.
    assert (Habsent : Spec.count_templates userId (Storage.faces st) = 0).
    { apply count_templates_absent. intros Hin. apply list_elem_of_fmap in Hin.
      destruct Hin as (f & Heq & Hf). rewrite Forall_forall in Hfind.
      now apply (Hfind f Hf). }
    rewrite Habsent. unfold Spec.count_templates in *.
    rewrite List.filter_app, !length_app, Habsent. cbn [List.filter FaceData.userId].
    rewrite String.eqb_refl. cbn. lia.
Qed.

(** X24. A setup reuses the user id the browser holds from an earlier one.
    The face captured replaces the template stored under that id instead of
    being added to it, the PIN replaces the PIN of its account, and no second
    account is written: whoever enrolled on that browser before is
    enrolled no longer. *)
Theorem setup_reuses_the_browser_user_id
  (p : SafePage.t) (ls : gmap string string) (st : Storage.t) (tr : list SafePage.Obs)
  (s : SetupPage.t) (r : SafePage.PermissionResult) (d : list float)
  (value phrase userId : string) (t0 t1 : Z) :
  SafePage.safeState p = SafePage.locked ->
  SafePage.modelsLoaded p = true ->
  SafePage.cameraPermission p = Some true ->
  SafePage.micPermission p = Some true ->
  phraseTimers s = [] ->
  ls !! "userId" = Some userId ->
  userId <> "" ->
  d <> [] ->
  Forall (fun v => PrimFloat.is_finite v = true /\ JS.fround v = v) d ->
  4 <= String.length (JS.digits_only value) ->
  let w := run (mkWorld (SafePage.mkWorld p ls st tr) s)
             [ClickSetup r; ClickCaptureFace (Detected d) t0;
              ChangeSetupPin value; ChangeConfirmPin value; ClickSetPin;
              ChangePhrase phrase; ClickRecordPhrase; PhraseTimer true t1] in
  let st' := SafePage.server (safe w) in
  SafePage.safeState (SafePage.page (safe w)) = SafePage.locked /\
  SafePage.localStorage (safe w) !! "userId" = Some userId /\
  In (FaceData.mk userId d None t0) (Storage.faces st') /\
  Spec.count_templates userId (Storage.faces st') =
    Nat.max 1 (Spec.count_templates userId (Storage.faces st)) /\
  length (Storage.faces st') =
    length (Storage.faces st) + (1 - Spec.count_templates userId (Storage.faces st)) /\
  (exists user,
      Storage.getUserById st' userId = Some user /\
      User.pinHash user = Some (hashPassword (JS.digits_only value))) /\
  (forall old, Storage.getUserById st userId = Some old -> ids st' = ids st).
Proof.
  intros Hlocked Hmodels Hcam Hmic Htimers Hstored Hid Hd Hexact Hlen. cbv zeta.
  rewrite (setup_run_from hashPassword verifyPassword esp32Url p ls st tr s r d value phrase
             t0 t1) by assumption.
  rewrite Hstored. cbn [JS.truthy default from_option id].
  assert (Hidb : String.eqb userId "" = false) by now apply String.eqb_neq.
  rewrite Hidb. cbn [negb].
  set (pinValue := JS.digits_only value) in *.
  set (st1 := snd (register st (Some userId) (Some d) None None t0)).
  set (st2 := snd (register st1 (Some userId) None (Some pinValue) (Some phrase) t1)).
  assert (Htruthy : JS.truthy (Some userId) = true) by (cbn; now rewrite Hidb).
  assert (Hfaces2 : Storage.faces st2 = Storage.faces st1) by apply register_faces_kept.
  assert (Hfaces1 : Storage.faces st1 =
            Storage.faces (Storage.saveFaceData st userId (Float32Array.of_array d) None t0))
    by (apply (register_faces hashPassword st (Some userId)); assumption).
  pose proof (count_templates_saveFaceData st userId (Float32Array.of_array d) None t0)
    as Hcount. cbv zeta in Hcount. rewrite <- Hfaces1, <- Hfaces2 in Hcount.
  pose proof (register_faces_enrolled hashPassword st (Some userId) d None None t0
                Htruthy Hd Hexact) as [Htemplate _].
  cbn [default from_option id] in Htemplate. fold st1 in Htemplate.
  assert (Hnone : @None (list float) <> Some []) by discriminate.
  destruct (register_stores_pin hashPassword st1 (Some userId) None (Some pinValue)
              (Some phrase) t1 Htruthy) as (user & Huser & Hpin & _);
    [destruct pinValue; [cbv in Hlen; lia | reflexivity] | exact Hnone |].
  cbn [default from_option id] in Huser, Hpin. fold st2 in Huser.
  cbn [safe SafePage.page SafePage.safeState SafePage.localStorage SafePage.server].
  split; [reflexivity|]. split; [apply lookup_insert_eq|].
  split; [rewrite Hfaces2; exact Htemplate|].
  split; [apply Hcount|]. split; [apply Hcount|]. split; [exists user; auto|].
  (* no account is added when one exists *)
  intros old Hold.
  assert (Hd' : Some d <> Some []) by congruence.
  destruct (register_ids hashPassword st (Some userId) (Some d) None None t0)
    as [H1|(_ & Hgiven & _)]; [|discriminate Hgiven].
  fold st1 in H1.
  destruct (register_ids hashPassword st1 (Some userId) None (Some pinValue) (Some phrase) t1)
    as [H2|(Habsent & _ & _)].
  - fold st2 in H2. now rewrite H2, H1.
  - cbn [default from_option id] in Habsent.
    apply getUserById_absent in Habsent. exfalso. apply Habsent.
    unfold ids in *. rewrite H1.
    apply list_elem_of_fmap. exists old. split.
    + symmetry. now apply (getUserById_id st).
    + unfold Storage.getUserById in Hold. apply find_some in Hold.
      now apply list_elem_of_In.
Qed.

End LaterSetup.

(** *** The theorems above at concrete inputs *)

Section Witnesses.

Lemma account_routes_refuse_without_admin_token_witness :
  Api.events_GET Fixtures.jwtVerify Fixtures.parseInt Fixtures.server1
    (Some "user-token") (Some "100") = Api.unauthorized /\
  Api.users_GET Fixtures.jwtVerify Fixtures.server1 (Some "user-token") = Api.unauthorized /\
  Api.users_POST Fixtures.jwtVerify Scenario.hashPassword Fixtures.server1
    (Some "user-token") (Some "Eve") (Some "eve@safe.local") (Some "pw") (Some true)
    1700000600000 = (Api.unauthorized, Fixtures.server1) /\
  Api.users_id_DELETE Fixtures.jwtVerify Fixtures.server1 (Some "user-token")
    "1699999999999" = (Api.unauthorized, Fixtures.server1).
Proof.
  apply (account_routes_refuse_without_admin_token Fixtures.jwtVerify Scenario.hashPassword
           Fixtures.parseInt Fixtures.server1 (Some "user-token") (Some "100") (Some "Eve")
           (Some "eve@safe.local") (Some "pw") (Some true) "1699999999999" 1700000600000).
  reflexivity.
Defined.

Lemma users_POST_keeps_emails_unique_witness :
  let r := Api.users_POST Fixtures.jwtVerify Scenario.hashPassword Fixtures.server1
             (Some "admin-token") (Some "Bob") (Some "bob@safe.local") (Some "pw") None
             1700000600000 in
  let complete := JS.truthy (Some "Bob") && JS.truthy (Some "bob@safe.local") &&
                  JS.truthy (Some "pw") in
  (complete = false ->
   r = (Api.mkResponse 400 (Api.Error "Name, email, and password are required"),
        Fixtures.server1)) /\
  (forall existingUser,
      complete = true ->
      Accounts.getUserByEmail Fixtures.server1 "bob@safe.local" = Some existingUser ->
      r = (Api.mkResponse 400 (Api.Error "User with this email already exists"),
           Fixtures.server1)) /\
  (complete = true ->
   Accounts.getUserByEmail Fixtures.server1 "bob@safe.local" = None ->
   let user :=
     User.mk (pretty 1700000600000%Z) "Bob" "bob@safe.local" (Scenario.hashPassword "pw")
       false None None None 1700000600000 in
   r = (Api.mkResponse 200 (Api.UserSaved (Api.safe user)),
        Storage.mk (Storage.users Fixtures.server1 ++ [user])
          (Storage.events Fixtures.server1) (Storage.faces Fixtures.server1)) /\
   Accounts.getUserByEmail (snd r) "bob@safe.local" = Some user) /\
  (NoDup (User.email <$> Storage.users Fixtures.server1) ->
   NoDup (User.email <$> Storage.users (snd r))).
Proof.
  apply (users_POST_keeps_emails_unique Fixtures.jwtVerify Scenario.hashPassword
           Fixtures.server1 (Some "admin-token") (Some "Bob") (Some "bob@safe.local")
           (Some "pw") None 1700000600000).
  reflexivity.
Defined.

Lemma init_POST_creates_an_admin_once_witness :
  let r1 := Api.init_POST Scenario.hashPassword Scenario.server0 (Some "Admin")
              (Some "admin@safe.local") (Some "s3cret") 1699999999999 in
  let r2 := Api.init_POST Scenario.hashPassword (snd r1) (Some "Mallory")
              (Some "admin@safe.local") (Some "other") 1700000700000 in
  let admin :=
    User.mk (pretty 1699999999999%Z) "Admin" "admin@safe.local"
      (Scenario.hashPassword "s3cret") true None None None 1699999999999 in
  (Accounts.getUserByEmail Scenario.server0 "admin@safe.local" = None ->
   r1 = (Api.mkResponse 200
           (Api.AdminCreated "Admin user created successfully" (Api.safe admin)),
         Storage.mk (Storage.users Scenario.server0 ++ [admin])
           (Storage.events Scenario.server0) (Storage.faces Scenario.server0)) /\
   Accounts.getUserByEmail (snd r1) "admin@safe.local" = Some admin) /\
  (forall existingAdmin,
      Accounts.getUserByEmail Scenario.server0 "admin@safe.local" = Some existingAdmin ->
      r1 = (Api.mkResponse 400 (Api.Error "Admin user already exists"), Scenario.server0)) /\
  Api.status (fst r2) = 400 /\
  snd r2 = snd r1.
Proof.
  apply (init_POST_creates_an_admin_once Scenario.hashPassword Scenario.server0
           (Some "Admin") (Some "admin@safe.local") (Some "s3cret") (Some "Mallory")
           (Some "other") 1699999999999 1700000700000);
    reflexivity.
Defined.


Import SafePage.

Lemma right_face_pin_and_voice_unlock_witness :
  let w' := run Scenario.verifyPassword Scenario.esp32Url Scenario.ready
              [ClickUnlock PermGranted;
               FaceTimer (Detected Scenario.alice_capture) 1700000100000;
               ChangePin "4821"; ClickVerify 1700000105000;
               VoiceTimer true 1700000108000] in
  safeState (page w') = unlocked /\
  pin (page w') = "" /\
  videoOn (page w') = false /\
  localStorage w' !! "recognizedUserId" = None /\
  Storage.events (server w') =
    JS.sort Storage.newest_first (Storage.events (server Scenario.ready)) ++
    [Event.mk (pretty 1700000108000%Z) "unlock" (Some "user-1700000000000") None
       1700000108000 (Some [("verified", JStr "face+pin+voice")])] /\
  trace w' =
    trace Scenario.ready ++
    [ObsUnlockStarted;
     ObsRecognize (Response.mk 200
        (Response.Recognized "user-1700000000000" (Some "User user-1700000000000") 0.125));
     ObsVerifyPin "user-1700000000000" (JS.digits_only "4821")
       (Response.mk 200 Response.Success);
     ObsVoice true;
     ObsEventPost (unlock_body "user-1700000000000")] ++
    Derived.open_commands Scenario.esp32Url.
Proof.
  apply (right_face_pin_and_voice_unlock Scenario.verifyPassword Scenario.esp32Url
           Scenario.ready PermGranted Scenario.alice_capture "4821"
           1700000100000 1700000105000 1700000108000
           (FaceMatcher.mkMatch "user-1700000000000" 0.125) Scenario.alice
           (Scenario.hashPassword "4821"));
    first [reflexivity | discriminate | vm_compute; lia].
Defined.

Lemma silent_voice_check_locks_without_a_log_entry_witness :
  let w' := run Scenario.verifyPassword Scenario.esp32Url Scenario.ready
              [ClickUnlock PermGranted;
               FaceTimer (Detected Scenario.alice_capture) 1700000100000;
               ChangePin "4821"; ClickVerify 1700000105000;
               VoiceTimer false 1700000108000] in
  safeState (page w') = locked /\
  pin (page w') = "" /\
  videoOn (page w') = false /\
  localStorage w' !! "recognizedUserId" = None /\
  server w' = server Scenario.ready /\
  trace w' =
    trace Scenario.ready ++
    [ObsUnlockStarted;
     ObsRecognize (Response.mk 200
        (Response.Recognized "user-1700000000000" (Some "User user-1700000000000") 0.125));
     ObsVerifyPin "user-1700000000000" (JS.digits_only "4821")
       (Response.mk 200 Response.Success);
     ObsVoice false].
Proof.
  apply (silent_voice_check_locks_without_a_log_entry Scenario.verifyPassword
           Scenario.esp32Url Scenario.ready PermGranted Scenario.alice_capture "4821"
           1700000100000 1700000105000 1700000108000
           (FaceMatcher.mkMatch "user-1700000000000" 0.125) Scenario.alice
           (Scenario.hashPassword "4821"));
    first [reflexivity | discriminate | vm_compute; lia].
Defined.

Lemma failed_face_scan_locks_witness :
  let w := withPage Scenario.ready Scenario.ready_page in
  let w' := run Scenario.verifyPassword Scenario.esp32Url
              (setItem w "recognizedUserId" "user-1700000000000")
              [ClickUnlock PermGranted;
               FaceTimer (Detected Scenario.stranger_capture) 1700000100000] in
  safeState (page w') = locked /\
  videoOn (page w') = false /\
  localStorage w' = localStorage (setItem w "recognizedUserId" "user-1700000000000") /\
  voiceTimers (page w') = voiceTimers (page w) /\
  Storage.events (server w') =
    JS.sort Storage.newest_first (Storage.events (server w)) ++
    [Event.mk (pretty 1700000100000%Z) "unauthorized_face" None None 1700000100000
       (Some [("reason", JStr "No matching face found")])] /\
  trace w' =
    trace w ++
    [ObsUnlockStarted;
     ObsRecognize (Response.mk 401 (Response.Error "Face not recognized"))].
Proof.
  apply (failed_face_scan_locks Scenario.verifyPassword Scenario.esp32Url
           (setItem (withPage Scenario.ready Scenario.ready_page) "recognizedUserId"
              "user-1700000000000")
           PermGranted (Detected Scenario.stranger_capture) 1700000100000);
    try reflexivity.
  intros descriptor [= <-]. reflexivity.
Defined.

End Witnesses.

Section SetupWitness.
Import SetupPage.

Lemma setup_then_unlock_opens_the_safe_witness :
  let run := SetupPage.run Scenario.hashPassword Scenario.verifyPassword Scenario.esp32Url in
  let userId := "user-" +:+ pretty 1700000000000%Z in
  let w := run (load ∅ Storage.empty)
             [Safe SafePage.ModelsLoaded; Safe (SafePage.PermissionsChecked true true);
              ClickSetup SafePage.PermGranted;
              ClickCaptureFace (Detected Scenario.alice_capture) 1700000000000;
              ChangeSetupPin "4821"; ChangeConfirmPin "4821"; ClickSetPin;
              ChangePhrase "open sesame"; ClickRecordPhrase;
              PhraseTimer true 1700000020000] in
  let w' := run w
              [Safe (SafePage.ClickUnlock SafePage.PermGranted);
               Safe (SafePage.FaceTimer (SafePage.Detected Scenario.alice_capture)
                       1700000100000);
               Safe (SafePage.ChangePin "4821"); Safe (SafePage.ClickVerify 1700000105000);
               Safe (SafePage.VoiceTimer true 1700000108000)] in
  SafePage.safeState (SafePage.page (safe w)) = SafePage.locked /\
  SafePage.localStorage (safe w) !! "userId" = Some userId /\
  In (FaceData.mk userId Scenario.alice_capture None 1700000000000)
     (Storage.faces (SafePage.server (safe w))) /\
  (exists user,
      Storage.getUserById (SafePage.server (safe w)) userId = Some user /\
      User.pinHash user = Some (Scenario.hashPassword (JS.digits_only "4821"))) /\
  SafePage.safeState (SafePage.page (safe w')) = SafePage.unlocked /\
  exists userName,
    SafePage.trace (safe w') =
    [SafePage.ObsPageLoad;
     SafePage.ObsUnlockStarted;
     SafePage.ObsRecognize
       (Response.mk 200 (Response.Recognized userId (Some userName) 0));
     SafePage.ObsVerifyPin userId (JS.digits_only "4821") (Response.mk 200 Response.Success);
     SafePage.ObsVoice true;
     SafePage.ObsEventPost (SafePage.unlock_body userId)] ++
    Derived.open_commands Scenario.esp32Url.
Proof.
  apply (setup_then_unlock_opens_the_safe Scenario.hashPassword Scenario.verifyPassword
           Scenario.esp32Url Storage.empty SafePage.PermGranted SafePage.PermGranted
           Scenario.alice_capture "4821" "open sesame"
           1700000000000 1700000020000 1700000100000 1700000105000 1700000108000);
    first [reflexivity | discriminate | vm_compute; lia | repeat constructor].
Defined.

(** Somebody else runs the setup in the browser Alice enrolled with. *)
Lemma setup_reuses_the_browser_user_id_witness :
  let w := SetupPage.run Scenario.hashPassword Scenario.verifyPassword Scenario.esp32Url
             (mkWorld
                (SafePage.mkWorld Scenario.ready_page
                   (<["userId" := "user-1700000000000"]> ∅) Scenario.server0
                   [SafePage.ObsPageLoad])
                init)
             [ClickSetup SafePage.PermGranted;
              ClickCaptureFace (Detected [0.5; -0.25; 1]%float) 1700000900000;
              ChangeSetupPin "9999"; ChangeConfirmPin "9999"; ClickSetPin;
              ChangePhrase "abracadabra"; ClickRecordPhrase;
              PhraseTimer true 1700000920000] in
  let st' := SafePage.server (safe w) in
  SafePage.safeState (SafePage.page (safe w)) = SafePage.locked /\
  SafePage.localStorage (safe w) !! "userId" = Some "user-1700000000000" /\
  In (FaceData.mk "user-1700000000000" [0.5; -0.25; 1]%float None 1700000900000)
     (Storage.faces st') /\
  Spec.count_templates "user-1700000000000" (Storage.faces st') =
    Nat.max 1 (Spec.count_templates "user-1700000000000" (Storage.faces Scenario.server0)) /\
  length (Storage.faces st') =
    length (Storage.faces Scenario.server0) +
    (1 - Spec.count_templates "user-1700000000000" (Storage.faces Scenario.server0)) /\
  (exists user,
      Storage.getUserById st' "user-1700000000000" = Some user /\
      User.pinHash user = Some (Scenario.hashPassword (JS.digits_only "9999"))) /\
  (forall old, Storage.getUserById Scenario.server0 "user-1700000000000" = Some old ->
     User.id <$> Storage.users st' = User.id <$> Storage.users Scenario.server0).
Proof.
  apply (setup_reuses_the_browser_user_id Scenario.hashPassword Scenario.verifyPassword
           Scenario.esp32Url Scenario.ready_page (<["userId" := "user-1700000000000"]> ∅)
           Scenario.server0 [SafePage.ObsPageLoad] init SafePage.PermGranted
           [0.5; -0.25; 1]%float "9999" "abracadabra" "user-1700000000000"
           1700000900000 1700000920000);
    first [reflexivity | apply lookup_insert_eq | discriminate | vm_compute; lia
          | repeat constructor].
Defined.

End SetupWitness.

